(** * MahjongGame: a shallow embedding of the game engine and its search

    The development follows the layout of the repository:
    - [Py]            the fragment of Python's run-time the code relies on
                      (exceptions, insertion-ordered dicts, list methods);
    - [Mahjong]       src/game_logic/mahjong.py
    - [MahjongMaster] src/MahjongGame-master/game_logic/mahjong.py
    - [App]           src/app.py (room state, claims, win check, settlement)
    - [Mcts]          src/game_logic/mcts.py (the callback-driven engine)
    - [PyHeap]        lists and dicts shared by reference
    - [MahjongMcts]   src/game_logic/mahjong_mcts.py (move application)
    - [MctsMaster]    src/MahjongGame-master/game_logic/mcts.py
    then the vocabulary in which the properties are stated, and the
    properties of each component with their proofs. *)

From Stdlib Require Import ZArith List String Ascii Bool Lia DecimalString.
From Stdlib Require Import Permutation Sorted.
Import ListNotations.
Local Open Scope string_scope.
Local Open Scope Z_scope.

(* ===================================================================== *)
(** ** Python run-time fragment *)
(* ===================================================================== *)
Module Py.

(** The exceptions the modelled code can raise. *)
Inductive Exn : Type :=
| ValueError (msg : string)
| KeyError (key : string)
| IndexError (msg : string)
| TypeError (msg : string)
| StopIteration.

(** Result of a fallible pure computation. *)
Inductive Res (A : Type) : Type :=
| Ok (a : A)
| Raise (e : Exn).
Arguments Ok {A} a.
Arguments Raise {A} e.

Definition rbind {A B} (r : Res A) (k : A -> Res B) : Res B :=
  match r with
  | Ok a => k a
  | Raise e => Raise e
  end.

(** A dict is an association list in insertion order; keys are unique in
    every dict the code builds, which [dict_wf] records. *)
Definition dict (V : Type) : Type := list (string * V).

Fixpoint dict_get {V} (k : string) (d : dict V) : option V :=
  match d with
  | [] => None
  | (k', v) :: d' => if String.eqb k k' then Some v else dict_get k d'
  end.

(** [d[k] = v]: overwrite in place, or append a new key at the end. *)
Fixpoint dict_set {V} (k : string) (v : V) (d : dict V) : dict V :=
  match d with
  | [] => [(k, v)]
  | (k', v') :: d' =>
      if String.eqb k k' then (k', v) :: d' else (k', v') :: dict_set k v d'
  end.

Definition dict_keys {V} (d : dict V) : list string := map fst d.

Fixpoint str_in (k : string) (l : list string) : bool :=
  match l with
  | [] => false
  | x :: l' => String.eqb k x || str_in k l'
  end.

Fixpoint str_nodup (l : list string) : bool :=
  match l with
  | [] => true
  | x :: l' => negb (str_in x l') && str_nodup l'
  end.

Definition dict_wf {V} (d : dict V) : bool := str_nodup (dict_keys d).

(** [d[k]], raising [KeyError] on a missing key. *)
Definition dict_index {V} (k : string) (d : dict V) : Res V :=
  match dict_get k d with
  | Some v => Ok v
  | None => Raise (KeyError k)
  end.

(** [max(l, key=f)]: the first element whose key is not exceeded later;
    [ValueError] on an empty sequence. *)
Fixpoint max_from {A} (f : A -> Z) (best : A) (l : list A) : A :=
  match l with
  | [] => best
  | x :: l' => if f best <? f x then max_from f x l' else max_from f best l'
  end.

Definition py_max {A} (f : A -> Z) (l : list A) : Res A :=
  match l with
  | [] => Raise (ValueError "max() arg is an empty sequence")
  | x :: l' => Ok (max_from f x l')
  end.

Fixpoint min_from {A} (f : A -> Z) (best : A) (l : list A) : A :=
  match l with
  | [] => best
  | x :: l' => if f x <? f best then min_from f x l' else min_from f best l'
  end.

Definition py_min {A} (f : A -> Z) (l : list A) : Res A :=
  match l with
  | [] => Raise (ValueError "min() arg is an empty sequence")
  | x :: l' => Ok (min_from f x l')
  end.

(** [next(x for x in l if p x)], raising [StopIteration] when none. *)
Definition py_next {A} (p : A -> bool) (l : list A) : Res A :=
  match find p l with
  | Some x => Ok x
  | None => Raise StopIteration
  end.

(** [l.pop()] on a list: drop the last element. *)
Definition pop_last {A} (l : list A) : list A := removelast l.

(** [str.split()] with no argument: maximal runs of non-blank characters. *)
Definition is_blank (c : ascii) : bool :=
  let n := nat_of_ascii c in
  (Nat.eqb n 32 || Nat.eqb n 9 || Nat.eqb n 10 || Nat.eqb n 11
   || Nat.eqb n 12 || Nat.eqb n 13)%bool.

Fixpoint split_aux (cur : string) (s : string) : list string :=
  match s with
  | EmptyString => match cur with EmptyString => [] | _ => [cur] end
  | String c s' =>
      if is_blank c
      then match cur with
           | EmptyString => split_aux EmptyString s'
           | _ => cur :: split_aux EmptyString s'
           end
      else split_aux (cur ++ String c EmptyString) s'
  end.

Definition split (s : string) : list string := split_aux EmptyString s.

(** [int(w)] on a word: an optional minus sign and decimal digits.  The
    words parsed by the program are the second words of tile names. *)
Definition int_of_word (w : string) : option Z :=
  option_map Z.of_int (NilZero.int_of_string w).

(** [str(n)] for an integer. *)
Definition str_of_int (n : Z) : string := NilZero.string_of_int (Z.to_int n).

End Py.

Import Py.

(* ===================================================================== *)
(** ** src/game_logic/mahjong.py *)
(* ===================================================================== *)

(** A tile object.  [name] and [suit] are set once by [__init__] from the
    id and never reassigned, so they are functions of the id; which
    function depends on the module that built the tile. *)
Record Tile : Type := mkTile { id : Z }.

Definition Tile_eqb (a b : Tile) : bool := id a =? id b.

(** [can_claim_*] are written once and duck-typed over the attributes
    [.id], [.suit] and [.name]; both copies of mahjong.py have the same
    text for them. *)
Section Claims.
Variable suit : Tile -> string.
Variable name : Tile -> string.

Definition count_id (hand : list Tile) (tile : Tile) : Z :=
  Z.of_nat (List.length (filter (fun t => id t =? id tile) hand)).

Definition can_claim_pong (hand : list Tile) (tile : Tile) : bool :=
  2 <=? count_id hand tile.

Definition can_claim_kong (hand : list Tile) (tile : Tile) : bool :=
  3 <=? count_id hand tile.

(** [int(t.name.split()[1])]; [None] stands for the exception
    (IndexError or ValueError) that the [try] blocks catch. *)
Definition tile_number (t : Tile) : option Z :=
  match nth_error (split (name t)) 1 with
  | Some w => int_of_word w
  | None => None
  end.

Definition suited (t : Tile) : bool :=
  str_in (suit t) ["bamboo"; "characters"; "dots"].

Fixpoint hand_numbers (hand : list Tile) (tile : Tile) : list Z :=
  match hand with
  | [] => []
  | t :: hand' =>
      if String.eqb (suit t) (suit tile)
      then match tile_number t with
           | Some num => num :: hand_numbers hand' tile
           | None => hand_numbers hand' tile
           end
      else hand_numbers hand' tile
  end.

Definition z_in (n : Z) (l : list Z) : bool := existsb (Z.eqb n) l.

Definition chi_sequences (tile_number : Z) (hn : list Z) : list (list Z) :=
  (if z_in (tile_number - 2) hn && z_in (tile_number - 1) hn
   then [[tile_number - 2; tile_number - 1; tile_number]] else [])
  ++ (if z_in (tile_number - 1) hn && z_in (tile_number + 1) hn
      then [[tile_number - 1; tile_number; tile_number + 1]] else [])
  ++ (if z_in (tile_number + 1) hn && z_in (tile_number + 2) hn
      then [[tile_number; tile_number + 1; tile_number + 2]] else []).

Definition can_claim_chi (hand : list Tile) (tile : Tile)
  : bool * option (list Z) :=
  if negb (suited tile) then (false, None)
  else match tile_number tile with
       | None => (false, None)
       | Some n =>
           match chi_sequences n (hand_numbers hand tile) with
           | [] => (false, None)
           | s :: _ => (true, Some s)
           end
       end.
End Claims.

Module Mahjong.

Definition SUIT_NAMES : list (Z * string) :=
  [(0, "bamboo"); (1, "characters"); (2, "dots");
   (3, "winds"); (4, "dragons"); (5, "bonus")].

Definition TILE_NAMES : list (Z * string) :=
  [(0, "bamboo 1"); (1, "bamboo 2"); (2, "bamboo 3"); (3, "bamboo 4");
   (4, "bamboo 5"); (5, "bamboo 6"); (6, "bamboo 7"); (7, "bamboo 8");
   (8, "bamboo 9");
   (9, "characters 1"); (10, "characters 2"); (11, "characters 3");
   (12, "characters 4"); (13, "characters 5"); (14, "characters 6");
   (15, "characters 7"); (16, "characters 8"); (17, "characters 9");
   (18, "dots 1"); (19, "dots 2"); (20, "dots 3"); (21, "dots 4");
   (22, "dots 5"); (23, "dots 6"); (24, "dots 7"); (25, "dots 8");
   (26, "dots 9");
   (27, "east"); (28, "south"); (29, "west"); (30, "north");
   (31, "green dragon"); (32, "red dragon"); (33, "white dragon");
   (34, "flower 1"); (35, "flower 2"); (36, "flower 3"); (37, "flower 4");
   (38, "season 1"); (39, "season 2"); (40, "season 3"); (41, "season 4")].

Fixpoint table_get (k : Z) (d : list (Z * string)) (default : string)
  : string :=
  match d with
  | [] => default
  | (k', v) :: d' => if k =? k' then v else table_get k d' default
  end.

(** [Tile.get_suit] *)
Definition get_suit (tile_id : Z) : string :=
  if (0 <=? tile_id) && (tile_id <=? 8) then table_get 0 SUIT_NAMES ""
  else if (9 <=? tile_id) && (tile_id <=? 17) then table_get 1 SUIT_NAMES ""
  else if (18 <=? tile_id) && (tile_id <=? 26) then table_get 2 SUIT_NAMES ""
  else if (27 <=? tile_id) && (tile_id <=? 30) then table_get 3 SUIT_NAMES ""
  else if (31 <=? tile_id) && (tile_id <=? 33) then table_get 4 SUIT_NAMES ""
  else if (34 <=? tile_id) && (tile_id <=? 41) then table_get 5 SUIT_NAMES ""
  else "unknown".

(** Attributes assigned by [Tile.__init__]. *)
Definition name (t : Tile) : string := table_get (id t) TILE_NAMES "Unknown".
Definition suit (t : Tile) : string := get_suit (id t).

(** [range(lo, lo + n)] *)
Fixpoint range (lo : Z) (n : nat) : list Z :=
  match n with
  | O => []
  | S n' => lo :: range (lo + 1) n'
  end.

(** [create_deck]: the two loops append to one list. *)
Definition create_deck : list Tile :=
  flat_map (fun tile_id => repeat (mkTile tile_id) 4) (range 0 34)
  ++ map mkTile (range 34 8).

Definition can_claim_pong := can_claim_pong.
Definition can_claim_kong := can_claim_kong.
Definition can_claim_chi := can_claim_chi suit name.

(** [players_hands[player].append(deck.pop(0))]; the deck is the caller's
    list, shortened in place: it is returned beside the result. *)
Definition deal_one (player : string) (players_hands : dict (list Tile))
           (deck : list Tile) : Res (dict (list Tile)) * list Tile :=
  match dict_index player players_hands with
  | Raise e => (Raise e, deck)
  | Ok hand =>
      match deck with
      | [] => (Raise (IndexError "pop from empty list"), deck)
      | t :: deck' =>
          (Ok (dict_set player (hand ++ [t])%list players_hands), deck')
      end
  end.

(** [for player in players: ...] *)
Fixpoint deal_round (players : list string) (players_hands : dict (list Tile))
         (deck : list Tile) : Res (dict (list Tile)) * list Tile :=
  match players with
  | [] => (Ok players_hands, deck)
  | player :: players' =>
      match deal_one player players_hands deck with
      | (Ok players_hands', deck') => deal_round players' players_hands' deck'
      | (Raise e, deck') => (Raise e, deck')
      end
  end.

(** [for _ in range(n): for player in [...]: ...] *)
Fixpoint deal_rounds (n : nat) (players_hands : dict (list Tile))
         (deck : list Tile) : Res (dict (list Tile)) * list Tile :=
  match n with
  | O => (Ok players_hands, deck)
  | S n' =>
      match deal_round ["east"; "south"; "west"; "north"] players_hands deck with
      | (Ok players_hands', deck') => deal_rounds n' players_hands' deck'
      | (Raise e, deck') => (Raise e, deck')
      end
  end.

(** [deal_tiles]: the hands, and the deck after the call (the second
    component of the pair the function returns is that same list). *)
Definition deal_tiles (deck : list Tile)
  : Res (dict (list Tile)) * list Tile :=
  let players_hands :=
    [("east", []); ("south", []); ("west", []); ("north", [])] in
  match deal_rounds 13 players_hands deck with
  | (Ok players_hands', deck') => deal_one "north" players_hands' deck'
  | (Raise e, deck') => (Raise e, deck')
  end.

End Mahjong.

(* ===================================================================== *)
(** ** src/MahjongGame-master/game_logic/mahjong.py *)
(* ===================================================================== *)
Module MahjongMaster.

(** The module carries the same [SUIT_NAMES] and [TILE_NAMES] tables as
    the other copy, but [Tile.__init__] does not consult them. *)
Definition SUIT_NAMES := Mahjong.SUIT_NAMES.
Definition TILE_NAMES := Mahjong.TILE_NAMES.

(** [self.suit = "bamboo" if id < 9 else "characters" if id < 18 else "dots"] *)
Definition suit (t : Tile) : string :=
  if id t <? 9 then "bamboo" else if id t <? 18 then "characters" else "dots".

(** [self.name = f"{self.suit} {id % 9 + 1}"] *)
Definition name (t : Tile) : string :=
  suit t ++ " " ++ str_of_int (id t mod 9 + 1).

(** [return [Tile(i) for i in range(27)]] *)
Definition create_deck : list Tile := map mkTile (Mahjong.range 0 27).

Definition can_claim_pong := can_claim_pong.
Definition can_claim_kong := can_claim_kong.
Definition can_claim_chi := can_claim_chi suit name.

(** [deck[lo:hi]] for [0 <= lo <= hi]: a slice never raises. *)
Definition slice {A} (deck : list A) (lo hi : nat) : list A :=
  firstn (hi - lo) (skipn lo deck).

(** [deal_tiles] *)
Definition deal_tiles (deck : list Tile) : dict (list Tile) * list Tile :=
  let hands := [("east", slice deck 0 14);
                ("south", slice deck 14 27);
                ("west", slice deck 27 40);
                ("north", slice deck 40 53)] in
  let remaining := skipn 53 deck in
  (hands, remaining).

End MahjongMaster.

(* ===================================================================== *)
(** ** src/app.py *)
(* ===================================================================== *)
Module App.

Definition len {A} (l : list A) : Z := Z.of_nat (List.length l).

(** A meld as stored in [players_melds]: the dict [meld_info].  Each
    entry of ['tiles'] is a dict of a tile's attributes, determined by
    the tile's id. *)
Record Meld : Type := mkMeld {
  meld_type : string;
  tiles : list Tile;
  claimed_by : string
}.

(** [room_data["game_state"]] after [on_start_game]; ["last_discard"] is
    read with [.get], so an absent key is [None]. *)
Record GameState : Type := mkGameState {
  players_hands : dict (list Tile);
  remaining_deck : list Tile;
  discard_pile : list Tile;
  current_turn : string;
  players_melds : dict (list Meld);
  last_discard : option Tile
}.

(** [rooms[room_id]] *)
Record Room : Type := mkRoom {
  human_players : list string;
  bots : list string;
  positions : dict string;
  sids : dict (option string);
  game_started : bool;
  game_state : GameState;
  scores : dict Z
}.

(** The keys of the dict built by [create_room_route]; no handler adds
    a key to a room afterwards. *)
Definition ROOM_KEYS : list string :=
  ["human_players"; "bots"; "positions"; "sids"; "game_started";
   "game_state"; "scores"].

Definition POSITIONS : list string := ["north"; "east"; "south"; "west"].

(** The value sent as ['score_table']: the scores dict, or the pair
    returned by [settle_scores] where the caller forwards it whole. *)
Inductive ScoreTable : Type :=
| ScoresOnly (s : dict Z)
| ScoresAndWinner (s : dict Z) (winner : string).

(** What the handlers emit, and the threads they start. *)
Inductive Event : Type :=
| error (message : string)
| hand_update (hand_counts : dict Z)
| tile_drawn (sid : string) (tile : Tile)
| tile_discarded (username : string) (tile : Tile)
| turn_update (turn : string)
| meld_claimed (meld_info : Meld)
| meld_update (melds : dict (list Meld))
| update_hand (sid : string) (hand : list Tile)
| game_over (winner : option string) (score_table : ScoreTable)
            (reason : string)
| ai_thread (bot_username : string).

(** Handlers mutate the room in place and may raise half-way: the state
    reached and the events sent so far survive an exception. *)
Definition M (A : Type) : Type := Room -> Res A * Room * list Event.

Definition ret {A} (a : A) : M A := fun rd => (Ok a, rd, []).

Definition bind {A B} (m : M A) (k : A -> M B) : M B :=
  fun rd =>
    match m rd with
    | (Ok a, rd', ev) =>
        match k a rd' with
        | (r, rd'', ev') => (r, rd'', (ev ++ ev')%list)
        end
    | (Raise e, rd', ev) => (Raise e, rd', ev)
    end.

Definition get : M Room := fun rd => (Ok rd, rd, []).
Definition put (rd : Room) : M unit := fun _ => (Ok tt, rd, []).
Definition emit (e : Event) : M unit := fun rd => (Ok tt, rd, [e]).
Definition lift {A} (r : Res A) : M A := fun rd => (r, rd, []).

Declare Scope app_scope.
Delimit Scope app_scope with app.
Notation "x <- m ;; k" := (bind m (fun x => k))
  (at level 61, m at next level, right associativity) : app_scope.
Notation "m ;;; k" := (bind m (fun _ => k))
  (at level 61, right associativity) : app_scope.
Local Open Scope app_scope.

(** [for x in l: body x] *)
Fixpoint for_each {A} (l : list A) (body : A -> M unit) : M unit :=
  match l with
  | [] => ret tt
  | x :: l' => body x ;;; for_each l' body
  end.

Definition set_game_state (rd : Room) (gs : GameState) : Room :=
  mkRoom (human_players rd) (bots rd) (positions rd) (sids rd)
         (game_started rd) gs (scores rd).

Definition set_scores (rd : Room) (s : dict Z) : Room :=
  mkRoom (human_players rd) (bots rd) (positions rd) (sids rd)
         (game_started rd) (game_state rd) s.

Definition set_hands (gs : GameState) (h : dict (list Tile)) : GameState :=
  mkGameState h (remaining_deck gs) (discard_pile gs) (current_turn gs)
              (players_melds gs) (last_discard gs).

Definition set_deck (gs : GameState) (d : list Tile) : GameState :=
  mkGameState (players_hands gs) d (discard_pile gs) (current_turn gs)
              (players_melds gs) (last_discard gs).

Definition set_discard_pile (gs : GameState) (d : list Tile) : GameState :=
  mkGameState (players_hands gs) (remaining_deck gs) d (current_turn gs)
              (players_melds gs) (last_discard gs).

Definition set_current_turn (gs : GameState) (t : string) : GameState :=
  mkGameState (players_hands gs) (remaining_deck gs) (discard_pile gs) t
              (players_melds gs) (last_discard gs).

Definition set_melds (gs : GameState) (m : dict (list Meld)) : GameState :=
  mkGameState (players_hands gs) (remaining_deck gs) (discard_pile gs)
              (current_turn gs) m (last_discard gs).

Definition set_last_discard (gs : GameState) (t : option Tile) : GameState :=
  mkGameState (players_hands gs) (remaining_deck gs) (discard_pile gs)
              (current_turn gs) (players_melds gs) t.

(** [d.get(k, [])] where [k] may be [None] (never a key). *)
Definition get_list {V} (k : option string) (d : dict (list V)) : list V :=
  match k with
  | Some k' => match dict_get k' d with Some l => l | None => [] end
  | None => []
  end.

(** [l.index(x)] *)
Fixpoint index_of (x : string) (l : list string) : Res nat :=
  match l with
  | [] => Raise (ValueError "x is not in list")
  | y :: l' => if String.eqb x y then Ok O
               else rbind (index_of x l') (fun i => Ok (S i))
  end.

Definition get_next_turn (turn : string) : Res string :=
  rbind (index_of turn POSITIONS) (fun idx =>
    match nth_error POSITIONS (Nat.modulo (idx + 1) (List.length POSITIONS)) with
    | Some p => Ok p
    | None => Raise (IndexError "list index out of range")
    end).

Definition update_hand_counts : M unit :=
  rd <- get ;;
  emit (hand_update
          (map (fun pos =>
                  (pos, len (get_list (Some pos) (players_hands (game_state rd)))))
               POSITIONS)).

(** [meld['tiles'][0]['id']] *)
Definition first_tile_id (meld : Meld) : Res Z :=
  match tiles meld with
  | t :: _ => Ok (id t)
  | [] => Raise (IndexError "list index out of range")
  end.

Definition terminal_id (tile_id : Z) : bool :=
  (tile_id =? 0) || (tile_id =? 8).

(** One pass of the scoring loop of [compute_score]. *)
Definition compute_score_meld (meld : Meld) : Res Z :=
  if String.eqb (meld_type meld) "pong" then
    rbind (first_tile_id meld) (fun tile_id =>
      Ok (if terminal_id tile_id then 4 else 2))
  else if String.eqb (meld_type meld) "kong" then
    rbind (first_tile_id meld) (fun tile_id =>
      Ok (if terminal_id tile_id then 8 else 4))
  else Ok 0.

Fixpoint sum_melds (f : Meld -> Res Z) (melds : list Meld) (acc : Z)
  : Res Z :=
  match melds with
  | [] => Ok acc
  | m :: melds' => rbind (f m) (fun p => sum_melds f melds' (acc + p))
  end.

(** [compute_score]: both branches on ['self_drawn'] add 2. *)
Definition compute_score (hand : list Tile) (melds : list Meld)
           (self_drawn : bool) : Res Z :=
  rbind (sum_melds compute_score_meld melds 0) (fun score =>
    if self_drawn then Ok (score + 2) else Ok (score + 2)).

Fixpoint meld_total (melds : list Meld) (total : Z) : Z :=
  match melds with
  | [] => total
  | meld :: melds' =>
      if String.eqb (meld_type meld) "kong"
      then meld_total melds' (total + 4)
      else meld_total melds' (total + 3)
  end.

(** [check_win_and_score]: reads the room, changes nothing. *)
Definition check_win_and_score (rd : Room) (username : string)
  : Res (bool * Z) :=
  let position := dict_get username (positions rd) in
  let melds := get_list position (players_melds (game_state rd)) in
  let hand := get_list position (players_hands (game_state rd)) in
  let total := meld_total melds (len hand) in
  if (total =? 14) && (len hand =? 2) then
    match hand with
    | h0 :: h1 :: _ =>
        if id h0 =? id h1
        then rbind (compute_score hand melds true) (fun score => Ok (true, score))
        else Ok (false, 0)
    | _ => Ok (false, 0)
    end
  else Ok (false, 0).

(** One pass of the scoring loop of [settle_scores]. *)
Definition settle_meld (meld : Meld) : Res Z :=
  if String.eqb (meld_type meld) "pong" then
    rbind (first_tile_id meld) (fun tile_id =>
      Ok (if terminal_id tile_id then 4 else 2))
  else if String.eqb (meld_type meld) "kong" then
    rbind (first_tile_id meld) (fun tile_id =>
      Ok (if terminal_id tile_id then 8 else 4))
  else if String.eqb (meld_type meld) "chi" then Ok 1
  else Ok 0.

Fixpoint player_scores_loop (items : dict (list Meld)) (player_scores : dict Z)
  : Res (dict Z) :=
  match items with
  | [] => Ok player_scores
  | (position, melds) :: items' =>
      rbind (sum_melds settle_meld melds 0) (fun player_score =>
        player_scores_loop items' (dict_set position player_score player_scores))
  end.

(** [scores[user] += delta] on the room's score table. *)
Definition add_score (user : string) (delta : Z) : M unit :=
  rd <- get ;;
  v <- lift (dict_index user (scores rd)) ;;
  put (set_scores rd (dict_set user (v + delta) (scores rd))).

(** The body of the inner loop of [settle_scores]:
    [if loser != winner: ...] with its branch on the east seat. *)
Definition pay_winner (winner winner_position : string) (winner_score : Z)
           (loser : string) : M unit :=
  if negb (String.eqb loser winner) then
    if String.eqb winner_position "east" then
      add_score winner (2 * winner_score) ;;;
      add_score loser (- (2 * winner_score))
    else
      add_score winner winner_score ;;;
      add_score loser (- winner_score)
  else ret tt.

(** [{user: 2000 for user in room_data["positions"].keys()}] *)
Definition fresh_scores (positions : dict string) : dict Z :=
  fold_left (fun d user => dict_set user 2000 d) (dict_keys positions) [].

Definition settle_scores (winner : option string) (win_score : Z)
  : M (dict Z * string) :=
  rd <- get ;;
  (match scores rd with
   | [] => put (set_scores rd (fresh_scores (positions rd)))
   | _ => ret tt
   end) ;;;
  player_scores <- lift (player_scores_loop (players_melds (game_state rd)) []) ;;
  winner_position <-
    lift (py_max (fun k => match dict_get k player_scores with
                           | Some v => v | None => 0 end)
                 (dict_keys player_scores)) ;;
  winner_score <- lift (dict_index winner_position player_scores) ;;
  winner <- lift (rbind (py_next (fun up => String.eqb (snd up) winner_position)
                                 (positions rd))
                        (fun up => Ok (fst up))) ;;
  for_each (positions rd) (fun up =>
    if String.eqb (fst up) winner then
      for_each (positions rd) (fun lp =>
        pay_winner winner winner_position winner_score (fst lp))
    else ret tt) ;;;
  rd' <- get ;;
  ret (scores rd', winner).

(** [l.remove(t)]: drop the first element equal to [t].  [Tile] defines
    no [__eq__], so equality is identity; every call below passes an
    element met while scanning a snapshot of the same list in order, and
    the first tile with that id is then the element itself. *)
Fixpoint list_remove (t : Tile) (l : list Tile) : Res (list Tile) :=
  match l with
  | [] => Raise (ValueError "list.remove(x): x not in list")
  | x :: l' =>
      if Tile_eqb x t then Ok l'
      else rbind (list_remove t l') (fun r => Ok (x :: r))
  end.

(** The pong and kong loops of [on_claim_meld]:
    [for t in hand[:]: if t.id == last_discard.id and count < limit: ...] *)
Fixpoint take_matching (limit : Z) (last : Tile) (snapshot : list Tile)
         (hand meld_tiles : list Tile) (count : Z)
  : Res (list Tile * list Tile) :=
  match snapshot with
  | [] => Ok (hand, meld_tiles)
  | t :: rest =>
      if (id t =? id last) && (count <? limit) then
        rbind (list_remove t hand) (fun hand' =>
          take_matching limit last rest hand' (meld_tiles ++ [t])%list (count + 1))
      else take_matching limit last rest hand meld_tiles count
  end.

(** The inner chi loop: the first tile of the discard's suit with number
    [n] is moved to the meld, then [break]. *)
Fixpoint take_number (n : Z) (last : Tile) (snapshot : list Tile)
         (hand meld_tiles : list Tile) : Res (list Tile * list Tile) :=
  match snapshot with
  | [] => Ok (hand, meld_tiles)
  | t :: rest =>
      if String.eqb (Mahjong.suit t) (Mahjong.suit last) then
        match tile_number Mahjong.name t with
        | None => Raise (ValueError "invalid literal for int()")
        | Some m =>
            if m =? n then
              rbind (list_remove t hand) (fun hand' =>
                Ok (hand', (meld_tiles ++ [t])%list))
            else take_number n last rest hand meld_tiles
        end
      else take_number n last rest hand meld_tiles
  end.

Fixpoint take_numbers (needed : list Z) (last : Tile)
         (hand meld_tiles : list Tile) : Res (list Tile * list Tile) :=
  match needed with
  | [] => Ok (hand, meld_tiles)
  | n :: needed' =>
      rbind (take_number n last hand hand meld_tiles) (fun hm =>
        take_numbers needed' last (fst hm) (snd hm))
  end.

(** The branch on [meld_type]: [None] is the 'Invalid meld type.' reply,
    otherwise the flag [valid] with the hand and the tiles taken. *)
Definition select_meld_tiles (meld_type : string) (hand : list Tile)
           (last : Tile) : Res (option (bool * list Tile * list Tile)) :=
  if String.eqb meld_type "pong" then
    if Mahjong.can_claim_pong hand last then
      rbind (take_matching 2 last hand hand [] 0) (fun hm =>
        Ok (Some (true, fst hm, snd hm)))
    else Ok (Some (false, hand, []))
  else if String.eqb meld_type "chi" then
    match Mahjong.can_claim_chi hand last with
    | (true, Some sequence) =>
        match tile_number Mahjong.name last with
        | None => Raise (ValueError "invalid literal for int()")
        | Some r =>
            rbind (take_numbers (filter (fun n => negb (n =? r)) sequence)
                                last hand [])
                  (fun hm => Ok (Some (true, fst hm, snd hm)))
        end
    | _ => Ok (Some (false, hand, []))
    end
  else if String.eqb meld_type "kong" then
    if Mahjong.can_claim_kong hand last then
      rbind (take_matching 3 last hand hand [] 0) (fun hm =>
        Ok (Some (true, fst hm, snd hm)))
    else Ok (Some (false, hand, []))
  else Ok None.

(** [on_claim_meld], once [rooms.get(room)] has found the room. *)
Definition on_claim_meld (username meld_type : string) : M unit :=
  rd <- get ;;
  match dict_get username (positions rd) with
  | None => emit (error "Player not found.")
  | Some "" => emit (error "Player not found.")
  | Some position =>
      match last_discard (game_state rd) with
      | None => emit (error "No tile available to claim.")
      | Some last =>
          let hand := get_list (Some position) (players_hands (game_state rd)) in
          sel <- lift (select_meld_tiles meld_type hand last) ;;
          match sel with
          | None => emit (error "Invalid meld type.")
          | Some (false, _, _) =>
              emit (error ("Cannot claim " ++ meld_type
                           ++ " with the last discarded tile."))
          | Some (true, hand', meld_tiles) =>
              let gs := game_state rd in
              (* the hand list was mutated in place; it is the dict's entry
                 whenever the claim was valid *)
              let gs := set_hands gs (dict_set position hand' (players_hands gs)) in
              let gs := set_discard_pile gs (pop_last (discard_pile gs)) in
              let meld_info := mkMeld meld_type (last :: meld_tiles) username in
              let gs := set_melds gs
                          (dict_set position
                             (get_list (Some position) (players_melds gs)
                              ++ [meld_info])%list
                             (players_melds gs)) in
              let gs := set_current_turn gs position in
              put (set_game_state rd gs) ;;;
              emit (meld_claimed meld_info) ;;;
              update_hand_counts ;;;
              emit (meld_update (players_melds gs)) ;;;
              (match dict_get username (sids rd) with
               | Some (Some sid) =>
                   if String.eqb sid "" then ret tt
                   else emit (update_hand sid hand')
               | _ => ret tt
               end) ;;;
              rd1 <- get ;;
              ws <- lift (check_win_and_score rd1 username) ;;
              if fst ws then
                new_scores <- settle_scores (Some username) (snd ws) ;;
                emit (game_over (Some username)
                                (ScoresAndWinner (fst new_scores) (snd new_scores))
                                "win")
              else ret tt
          end
      end
  end.

(** [on_draw_tile], once [rooms.get(room)] has found the room.  In the
    empty-deck branch the arguments of the [game_over] emit are built
    before the call: [rd["room"]] is evaluated among them. *)
Definition on_draw_tile (user : string) : M unit :=
  rd <- get ;;
  pos <- lift (dict_index user (positions rd)) ;;
  if negb (String.eqb pos (current_turn (game_state rd))) then
    emit (error "It's not your turn.")
  else
    match remaining_deck (game_state rd) with
    | [] =>
        _ <- settle_scores (Some user) 0 ;;
        rd1 <- get ;;
        _ <- lift (if str_in "room" ROOM_KEYS then Ok tt
                   else Raise (KeyError "room")) ;;
        emit (game_over None (ScoresOnly (scores rd1)) "draw—no tiles left")
    | tile :: deck' =>
        let gs := set_deck (game_state rd) deck' in
        put (set_game_state rd gs) ;;;
        hand <- lift (dict_index pos (players_hands gs)) ;;
        put (set_game_state rd
               (set_hands gs (dict_set pos (hand ++ [tile])%list (players_hands gs)))) ;;;
        (match dict_get user (sids rd) with
         | Some (Some sid) =>
             if String.eqb sid "" then ret tt else emit (tile_drawn sid tile)
         | _ => ret tt
         end) ;;;
        update_hand_counts
    end.

(** [schedule_ai_move]: starting the bot's thread is recorded as an
    event; the thread's body is [handle_ai_turn]. *)
Definition schedule_ai_move : M unit :=
  rd <- get ;;
  let next_pos := current_turn (game_state rd) in
  next_user <- lift (rbind (py_next (fun up => String.eqb (snd up) next_pos)
                                    (positions rd))
                           (fun up => Ok (fst up))) ;;
  if str_in next_user (bots rd) then emit (ai_thread next_user) else ret tt.

Definition any_id (hand : list Tile) (n : Z) : bool :=
  existsb (fun x => id x =? n) hand.

Definition is_suited_id (n : Z) : bool := (0 <=? n) && (n <=? 26).

(** The score [ai_discard_tile] gives to tile [t] of [hand]. *)
Definition discard_score (hand : list Tile) (t : Tile) : Z :=
  let copies := count_id hand t - 1 in
  let s := 0 + copies in
  let s :=
    if is_suited_id (id t) then
      fold_left (fun s neighbor => if any_id hand neighbor then s + 1 else s)
                [id t - 2; id t - 1; id t + 1; id t + 2] s
    else s in
  if (copies =? 0)
     && negb (is_suited_id (id t)
              && existsb (fun x => let d := Z.abs (id x - id t) in
                                   (d =? 1) || (d =? 2)) hand)
  then s - 1 else s.

(** [ai_discard_tile].  [scores] is keyed by tile objects (identity), one
    entry per tile of the hand in hand order. *)
Definition ai_discard_tile (username : string) : M unit :=
  rd <- get ;;
  position <- lift (dict_index username (positions rd)) ;;
  hand <- lift (dict_index position (players_hands (game_state rd))) ;;
  let tile_scores := map (fun t => (t, discard_score hand t)) hand in
  min_entry <- lift (py_min snd tile_scores) ;;
  let min_score := snd min_entry in
  let candidates := map fst (filter (fun ts => snd ts =? min_score) tile_scores) in
  tile_to_discard <- lift (py_max id candidates) ;;
  hand' <- lift (list_remove tile_to_discard hand) ;;
  let gs := game_state rd in
  let gs := set_hands gs (dict_set position hand' (players_hands gs)) in
  let gs := set_discard_pile gs (discard_pile gs ++ [tile_to_discard])%list in
  let gs := set_last_discard gs (Some tile_to_discard) in
  put (set_game_state rd gs) ;;;
  emit (tile_discarded username tile_to_discard) ;;;
  next_pos <- lift (get_next_turn position) ;;
  put (set_game_state rd (set_current_turn gs next_pos)) ;;;
  emit (turn_update next_pos) ;;;
  rd1 <- get ;;
  ws <- lift (check_win_and_score rd1 username) ;;
  (if fst ws then
     new_scores <- settle_scores (Some username) (snd ws) ;;
     emit (game_over (Some (snd new_scores)) (ScoresOnly (fst new_scores)) "win")
   else ret tt) ;;;
  update_hand_counts ;;;
  schedule_ai_move.

(** [handle_ai_turn], the body of a bot's thread (after its pause). *)
Definition handle_ai_turn (bot_username : string) : M unit :=
  rd <- get ;;
  position <- lift (dict_index bot_username (positions rd)) ;;
  meld_claimed <-
    match last_discard (game_state rd) with
    | None => ret false
    | Some last =>
        bot_hand <- lift (dict_index position (players_hands (game_state rd))) ;;
        let can_claim_flag := fst (Mahjong.can_claim_chi bot_hand last) in
        if Mahjong.can_claim_pong bot_hand last then
          on_claim_meld bot_username "pong" ;;; ret true
        else if can_claim_flag then
          on_claim_meld bot_username "chi" ;;; ret true
        else if Mahjong.can_claim_kong bot_hand last then
          on_claim_meld bot_username "kong" ;;; ret true
        else ret false
    end ;;
  rd1 <- get ;;
  match remaining_deck (game_state rd1) with
  | [] =>
      sw <- settle_scores None 0 ;;
      emit (game_over (Some (snd sw)) (ScoresOnly (fst sw)) "draw—no tiles left")
  | drawn :: deck' =>
      (if negb meld_claimed then
         let gs := set_deck (game_state rd1) deck' in
         put (set_game_state rd1 gs) ;;;
         hand <- lift (dict_index position (players_hands gs)) ;;
         put (set_game_state rd1
                (set_hands gs (dict_set position (hand ++ [drawn])%list
                                        (players_hands gs)))) ;;;
         update_hand_counts
       else ret tt) ;;;
      ai_discard_tile bot_username
  end.

(** A Socket.IO handler: look the room up, run the body on it. *)
Definition handler (body : M unit) (rooms : dict Room) (room : string)
  : Res unit * dict Room * list Event :=
  match dict_get room rooms with
  | None => (Ok tt, rooms, [error "Room not found."])
  | Some rd =>
      match body rd with
      | (r, rd', ev) => (r, dict_set room rd' rooms, ev)
      end
  end.

(** [on_discard_tile], once [rooms.get(room)] has found the room. *)
Definition on_discard_tile (user : string) (tile_id : Z) : M unit :=
  rd <- get ;;
  pos <- lift (dict_index user (positions rd)) ;;
  if negb (String.eqb pos (current_turn (game_state rd))) then
    emit (error "It's not your turn.")
  else
    hand <- lift (dict_index pos (players_hands (game_state rd))) ;;
    match find (fun t => id t =? tile_id) hand with
    | None => emit (error "Tile not found in hand.")
    | Some tile =>
        hand' <- lift (list_remove tile hand) ;;
        let gs := game_state rd in
        let gs := set_hands gs (dict_set pos hand' (players_hands gs)) in
        let gs := set_discard_pile gs (discard_pile gs ++ [tile])%list in
        let gs := set_last_discard gs (Some tile) in
        put (set_game_state rd gs) ;;;
        emit (tile_discarded user tile) ;;;
        next_pos <- lift (get_next_turn pos) ;;
        put (set_game_state rd (set_current_turn gs next_pos)) ;;;
        emit (turn_update next_pos) ;;;
        update_hand_counts ;;;
        rd1 <- get ;;
        ws <- lift (check_win_and_score rd1 user) ;;
        if fst ws then
          new_scores <- settle_scores (Some user) (snd ws) ;;
          emit (game_over (Some user)
                          (ScoresAndWinner (fst new_scores) (snd new_scores))
                          "win")
        else schedule_ai_move
    end.

(** What [on_check_meld] sends back to the asking client. *)
Inductive CheckReply : Type :=
| check_error (message : string)
| meld_options (options : list string).

(** [on_check_meld], once [rooms.get(room)] has found the room; it reads
    the room and changes nothing. *)
Definition on_check_meld (rd : Room) (username : string) : CheckReply :=
  match dict_get username (positions rd) with
  | None => check_error "Player not found."
  | Some "" => check_error "Player not found."
  | Some position =>
      match last_discard (game_state rd) with
      | None => meld_options []
      | Some last =>
          let hand := get_list (Some position) (players_hands (game_state rd)) in
          let options := [] in
          let options := if Mahjong.can_claim_pong hand last
                         then (options ++ ["pong"])%list else options in
          let options := if fst (Mahjong.can_claim_chi hand last)
                         then (options ++ ["chi"])%list else options in
          let options := if Mahjong.can_claim_kong hand last
                         then (options ++ ["kong"])%list else options in
          meld_options options
      end
  end.

(** [l.count(x)] on a list of ids. *)
Definition ids_count (x : Z) (l : list Z) : Z :=
  Z.of_nat (List.length (filter (Z.eqb x) l)).

(** [l.remove(x)] on a list of ids. *)
Fixpoint ids_remove (x : Z) (l : list Z) : Res (list Z) :=
  match l with
  | [] => Raise (ValueError "list.remove(x): x not in list")
  | y :: l' => if y =? x then Ok l'
               else rbind (ids_remove x l') (fun r => Ok (y :: r))
  end.

(** [can_form_sets], with the depth the recursion may still reach: [None]
    when it is used up.  Each call passes a list three ids shorter. *)
Fixpoint can_form_sets_at (depth : nat) (tile_ids : list Z)
  : option (Res bool) :=
  match depth with
  | O => None
  | S depth' =>
      match tile_ids with
      | [] => Some (Ok true)
      | first :: _ =>
          let pung :=
            if 3 <=? ids_count first tile_ids then
              match rbind (ids_remove first tile_ids) (fun l1 =>
                    rbind (ids_remove first l1) (ids_remove first)) with
              | Raise e => Some (Raise e)
              | Ok new_ids => can_form_sets_at depth' new_ids
              end
            else Some (Ok false) in
          match pung with
          | Some (Ok false) =>
              if first <=? 26 then
                let second := first + 1 in
                let third := first + 2 in
                if z_in second tile_ids && z_in third tile_ids then
                  match rbind (ids_remove first tile_ids) (fun l1 =>
                        rbind (ids_remove second l1) (ids_remove third)) with
                  | Raise e => Some (Raise e)
                  | Ok new_ids => can_form_sets_at depth' new_ids
                  end
                else Some (Ok false)
              else Some (Ok false)
          | other => other
          end
      end
  end.

Definition can_form_sets (tile_ids : list Z) : option (Res bool) :=
  can_form_sets_at (S (List.length tile_ids)) tile_ids.

End App.

(* ===================================================================== *)
(** ** Floating-point numbers *)
(* ===================================================================== *)

(** Rewards, values and clock readings are Python floats.  The engines
    only add, negate, divide and compare them; they are kept abstract, so
    that every statement below holds for IEEE arithmetic as for any other
    interpretation of the operations. *)
Record FloatOps : Type := mkFloatOps {
  F : Type;
  f_of_int : Z -> F;
  f_inf : F;
  f_add : F -> F -> F;
  f_sub : F -> F -> F;
  f_mul : F -> F -> F;
  f_div : F -> F -> F;
  f_neg : F -> F;
  f_sqrt : F -> F;
  f_log : F -> F;
  f_ltb : F -> F -> bool
}.

(** Integer-valued numbers, for running the engines on concrete inputs. *)
Definition IntFloats : FloatOps :=
  mkFloatOps Z (fun z => z) 1000000 Z.add Z.sub Z.mul Z.div Z.opp
             Z.sqrt Z.log2 Z.ltb.

(** [max(l, key=f)] with float keys: the first element no later key
    exceeds. *)
Fixpoint fmax_from {A} (fl : FloatOps) (f : A -> F fl) (best : A) (l : list A)
  : A :=
  match l with
  | [] => best
  | x :: l' => if f_ltb fl (f best) (f x) then fmax_from fl f x l'
               else fmax_from fl f best l'
  end.

Definition fmax {A} (fl : FloatOps) (f : A -> F fl) (l : list A) : Res A :=
  match l with
  | [] => Raise (ValueError "max() arg is an empty sequence")
  | x :: l' => Ok (fmax_from fl f x l')
  end.

(** [l[n] = x] on a list used as a store of objects. *)
Fixpoint list_set {A} (l : list A) (n : nat) (x : A) : list A :=
  match l, n with
  | [], _ => []
  | _ :: l', O => x :: l'
  | y :: l', S n' => y :: list_set l' n' x
  end.

(* ===================================================================== *)
(** ** src/game_logic/mcts.py *)
(* ===================================================================== *)
Module Mcts.
Section Engine.
Variable fl : FloatOps.
Variables State Action : Type.
(** [==] on actions, used by [list.remove]. *)
Variable Action_eqb : Action -> Action -> bool.

(** The clock and the pseudo-random generator. *)
Variable Env : Type.
Variable time_time : Env -> F fl * Env.
Variable random_next : Env -> nat * Env.

(** The three callbacks of [get_best_action]; [simulate] may draw random
    numbers. *)
Variable get_legal_moves : State -> list Action.
Variable apply_move : State -> Action -> State.
Variable simulate : State -> Env -> F fl * Env.

Record MCTSConfig : Type := mkMCTSConfig {
  num_simulations : Z;
  max_time_per_move : F fl;
  exploration_constant : F fl
}.

(** A node object; [parent] and [children] hold the addresses of other
    nodes in the tree store. *)
Record MCTSNode : Type := mkMCTSNode {
  state : State;
  parent : option nat;
  action : option Action;
  children : list nat;
  visits : Z;
  value : F fl;
  untried_actions : list Action
}.

Definition Tree : Type := list MCTSNode.

(** [MCTSNode(state, parent, action)] *)
Definition new_node (s : State) (p : option nat) (a : option Action)
  : MCTSNode :=
  mkMCTSNode s p a [] 0 (f_of_int fl 0) [].

Definition with_untried (nd : MCTSNode) (u : list Action) : MCTSNode :=
  mkMCTSNode (state nd) (parent nd) (action nd) (children nd) (visits nd)
             (value nd) u.

Definition with_children (nd : MCTSNode) (c : list nat) : MCTSNode :=
  mkMCTSNode (state nd) (parent nd) (action nd) c (visits nd) (value nd)
             (untried_actions nd).

Definition with_stats (nd : MCTSNode) (n : Z) (v : F fl) : MCTSNode :=
  mkMCTSNode (state nd) (parent nd) (action nd) (children nd) n v
             (untried_actions nd).

(** [MCTSNode.ucb1]; a child's key is read through its parent's visit
    count. *)
Definition ucb1 (tree : Tree) (c : F fl) (nd : MCTSNode) : F fl :=
  if visits nd =? 0 then f_inf fl
  else
    let parent_visits := match parent nd with
                         | Some p => match nth_error tree p with
                                     | Some pn => visits pn
                                     | None => 0
                                     end
                         | None => 0
                         end in
    let exploitation := f_div fl (value nd) (f_of_int fl (visits nd)) in
    let exploration :=
      f_mul fl c (f_sqrt fl (f_div fl (f_log fl (f_of_int fl parent_visits))
                                      (f_of_int fl (visits nd)))) in
    f_add fl exploitation exploration.

Definition ucb1_at (tree : Tree) (c : F fl) (n : nat) : F fl :=
  match nth_error tree n with
  | Some nd => ucb1 tree c nd
  | None => f_inf fl
  end.

(** [MCTSNode.best_child] *)
Definition best_child (tree : Tree) (c : F fl) (nd : MCTSNode) : Res nat :=
  fmax fl (ucb1_at tree c) (children nd).

(** [random.choice(seq)] *)
Definition random_choice {A} (l : list A) (env : Env) : Res A * Env :=
  match l with
  | [] => (Raise (IndexError "Cannot choose from an empty sequence"), env)
  | _ =>
      let (i, env') := random_next env in
      match nth_error l (Nat.modulo i (List.length l)) with
      | Some x => (Ok x, env')
      | None => (Raise (IndexError "Cannot choose from an empty sequence"), env')
      end
  end.

(** [list.remove(action)] *)
Fixpoint remove_action (a : Action) (l : list Action) : Res (list Action) :=
  match l with
  | [] => Raise (ValueError "list.remove(x): x not in list")
  | x :: l' => if Action_eqb x a then Ok l'
               else rbind (remove_action a l') (fun r => Ok (x :: r))
  end.

(** [MCTS._select]: the descent ends at a node with untried actions or
    without children; a tree has no path longer than its size, which
    bounds the loop. *)
Fixpoint _select (fuel : nat) (tree : Tree) (c : F fl) (node : nat)
  : Res nat :=
  match nth_error tree node with
  | None => Raise (IndexError "dangling node")
  | Some nd =>
      match untried_actions nd, children nd, fuel with
      | [], _ :: _, S fuel' =>
          rbind (best_child tree c nd) (fun n' => _select fuel' tree c n')
      | _, _, _ => Ok node
      end
  end.

(** [MCTS._expand] *)
Definition _expand (tree : Tree) (node : nat) (env : Env)
  : Res (Tree * nat) * Env :=
  match nth_error tree node with
  | None => (Raise (IndexError "dangling node"), env)
  | Some nd =>
      match random_choice (untried_actions nd) env with
      | (Raise e, env') => (Raise e, env')
      | (Ok a, env') =>
          match remove_action a (untried_actions nd) with
          | Raise e => (Raise e, env')
          | Ok rest =>
              let new_state := apply_move (state nd) a in
              let child := with_untried (new_node new_state (Some node) (Some a))
                                        (get_legal_moves new_state) in
              let child_addr := List.length tree in
              let nd' := with_children (with_untried nd rest)
                                       (children nd ++ [child_addr])%list in
              (Ok ((list_set tree node nd' ++ [child])%list, child_addr), env')
          end
      end
  end.

(** [MCTS._backpropagate]: [while node is not None].  The walk follows
    [parent] links, at most one step per node of the tree. *)
Fixpoint _backpropagate (fuel : nat) (tree : Tree) (node : option nat)
         (reward : F fl) : Tree :=
  match fuel, node with
  | S fuel', Some n =>
      match nth_error tree n with
      | Some nd =>
          let nd' := with_stats nd (visits nd + 1) (f_add fl (value nd) reward) in
          _backpropagate fuel' (list_set tree n nd') (parent nd) reward
      | None => tree
      end
  | _, _ => tree
  end.

(** One pass of the [while] loop of [get_best_action]. *)
Definition iteration (cfg : MCTSConfig) (tree : Tree) (env : Env)
  : Res Tree * Env :=
  match _select (List.length tree) tree (exploration_constant cfg) 0 with
  | Raise e => (Raise e, env)
  | Ok node =>
      let expanded :=
        match nth_error tree node with
        | Some nd =>
            match untried_actions nd with
            | [] => (Ok (tree, node), env)
            | _ :: _ => _expand tree node env
            end
        | None => (Raise (IndexError "dangling node"), env)
        end in
      match expanded with
      | (Raise e, env1) => (Raise e, env1)
      | (Ok (tree1, node1), env1) =>
          match nth_error tree1 node1 with
          | None => (Raise (IndexError "dangling node"), env1)
          | Some nd1 =>
              let (reward, env2) := simulate (state nd1) env1 in
              (Ok (_backpropagate (S (List.length tree1)) tree1 (Some node1) reward),
               env2)
          end
      end
  end.

(** The [while] loop: [simulations < num_simulations and
    time.time() - start_time < max_time_per_move].  The counter grows by
    one per pass, so [num_simulations - simulations] bounds the passes. *)
Fixpoint search_loop (fuel : nat) (cfg : MCTSConfig) (start_time : F fl)
         (simulations : Z) (tree : Tree) (env : Env)
  : Res (Tree * Z) * Env :=
  match fuel with
  | O => (Ok (tree, simulations), env)
  | S fuel' =>
      if simulations <? num_simulations cfg then
        let (now, env1) := time_time env in
        if f_ltb fl (f_sub fl now start_time) (max_time_per_move cfg) then
          match iteration cfg tree env1 with
          | (Raise e, env2) => (Raise e, env2)
          | (Ok tree', env2) =>
              search_loop fuel' cfg start_time (simulations + 1) tree' env2
          end
        else (Ok (tree, simulations), env1)
      else (Ok (tree, simulations), env)
  end.

Record Stats : Type := mkStats {
  simulations : Z;
  time_taken : F fl;
  root_visits : Z;
  best_child_visits : Z;
  best_child_value : F fl
}.

Definition visits_at (tree : Tree) (n : nat) : Z :=
  match nth_error tree n with
  | Some nd => visits nd
  | None => 0
  end.

(** [MCTS.get_best_action] *)
Definition get_best_action (cfg : MCTSConfig) (s : State) (env : Env)
  : Res (option Action * Stats) * Env :=
  let root := with_untried (new_node s None None) (get_legal_moves s) in
  let (start_time, env0) := time_time env in
  match search_loop (Z.to_nat (num_simulations cfg)) cfg start_time 0 [root] env0 with
  | (Raise e, env1) => (Raise e, env1)
  | (Ok (tree, sims), env1) =>
      match nth_error tree 0 with
      | None => (Raise (IndexError "dangling node"), env1)
      | Some root' =>
          match py_max (visits_at tree) (children root') with
          | Raise e => (Raise e, env1)
          | Ok best =>
              match nth_error tree best with
              | None => (Raise (IndexError "dangling node"), env1)
              | Some bc =>
                  let (now, env2) := time_time env1 in
                  (Ok (action bc,
                       mkStats sims (f_sub fl now start_time) (visits root')
                               (visits bc)
                               (if 0 <? visits bc
                                then f_div fl (value bc) (f_of_int fl (visits bc))
                                else f_of_int fl 0)),
                   env2)
              end
          end
      end
  end.

End Engine.
End Mcts.

(* ===================================================================== *)
(** ** Python objects shared by reference *)
(* ===================================================================== *)

(** The search states of the second engine are dicts whose values are
    lists and dicts shared between copies.  Mutable objects live in a heap
    and are named by their address; tiles are immutable. *)
Module PyHeap.

Inductive Val : Type :=
| VNone
| VStr (s : string)
| VTile (t : Tile)
| VRef (l : nat).

(** Heap objects: lists of tiles (hands, piles, the tiles of a meld),
    lists of other values (the melds of a state) and dicts. *)
Inductive Obj : Type :=
| OList (items : list Tile)
| OVals (items : list Val)
| ODict (entries : dict Val).

Definition Heap : Type := list Obj.

Definition alloc (h : Heap) (o : Obj) : Heap * Val :=
  ((h ++ [o])%list, VRef (List.length h)).

Definition not_a_dict : Exn := TypeError "object is not a dict".
Definition not_a_list : Exn := TypeError "object is not a list".

Definition entries_of (h : Heap) (d : Val) : Res (dict Val) :=
  match d with
  | VRef l => match nth_error h l with
              | Some (ODict e) => Ok e
              | _ => Raise not_a_dict
              end
  | _ => Raise not_a_dict
  end.

Definition items_of (h : Heap) (v : Val) : Res (list Tile) :=
  match v with
  | VRef l => match nth_error h l with
              | Some (OList items) => Ok items
              | _ => Raise not_a_list
              end
  | _ => Raise not_a_list
  end.

(** [d[k]] *)
Definition getitem (h : Heap) (d : Val) (k : string) : Res Val :=
  rbind (entries_of h d) (dict_index k).

(** [d.get(k)] *)
Definition get_default (h : Heap) (d : Val) (k : string) : Res Val :=
  rbind (entries_of h d) (fun e =>
    Ok (match dict_get k e with Some v => v | None => VNone end)).

(** [k in d] *)
Definition contains (h : Heap) (d : Val) (k : string) : Res bool :=
  rbind (entries_of h d) (fun e => Ok (str_in k (dict_keys e))).

(** [d[k] = v]: the dict object itself changes. *)
Definition setitem (h : Heap) (d : Val) (k : string) (v : Val) : Res Heap :=
  match d with
  | VRef l => match nth_error h l with
              | Some (ODict e) => Ok (list_set h l (ODict (dict_set k v e)))
              | _ => Raise not_a_dict
              end
  | _ => Raise not_a_dict
  end.

(** Replace the contents of a list object ([append], [pop]). *)
Definition set_items (h : Heap) (v : Val) (items : list Tile) : Res Heap :=
  match v with
  | VRef l => match nth_error h l with
              | Some (OList _) => Ok (list_set h l (OList items))
              | _ => Raise not_a_list
              end
  | _ => Raise not_a_list
  end.

(** [lst.append(x)] *)
Definition append (h : Heap) (v : Val) (x : Tile) : Res Heap :=
  rbind (items_of h v) (fun items => set_items h v (items ++ [x])%list).

(** [d.copy()]: a new dict object with the same values. *)
Definition dict_copy (h : Heap) (d : Val) : Res (Heap * Val) :=
  rbind (entries_of h d) (fun e => Ok (alloc h (ODict e))).

(** The tiles of the list stored under [k] in dict [d]. *)
Definition tiles_at (h : Heap) (d : Val) (k : string) : Res (list Tile) :=
  rbind (getitem h d k) (items_of h).

(** [lst.append(x)] on a list of values. *)
Definition append_val (h : Heap) (v : Val) (x : Val) : Res Heap :=
  match v with
  | VRef l => match nth_error h l with
              | Some (OVals items) =>
                  Ok (list_set h l (OVals (items ++ [x])%list))
              | _ => Raise not_a_list
              end
  | _ => Raise not_a_list
  end.

(** Copy the values of a list one after the other, threading the heap. *)
Fixpoint copy_each (copy : Heap -> Val -> Res (Heap * Val)) (h : Heap)
         (items : list Val) : Res (Heap * list Val) :=
  match items with
  | [] => Ok (h, [])
  | v :: items' =>
      rbind (copy h v) (fun hv =>
        rbind (copy_each copy (fst hv) items') (fun hl =>
          Ok (fst hl, snd hv :: snd hl)))
  end.

Fixpoint copy_entries (copy : Heap -> Val -> Res (Heap * Val)) (h : Heap)
         (entries : dict Val) : Res (Heap * dict Val) :=
  match entries with
  | [] => Ok (h, [])
  | (k, v) :: entries' =>
      rbind (copy h v) (fun hv =>
        rbind (copy_entries copy (fst hv) entries') (fun hl =>
          Ok (fst hl, (k, snd hv) :: snd hl)))
  end.

(** [copy.deepcopy(v)]: every list and dict reachable from [v] is
    rebuilt as a new object; strings, [None] and tiles (new objects that
    compare as the old ones do) are values.  The states copied are trees
    of objects, whose depth [fuel] bounds. *)
Fixpoint deepcopy (fuel : nat) (h : Heap) (v : Val) : Res (Heap * Val) :=
  match v with
  | VRef l =>
      match fuel with
      | O => Raise (TypeError "maximum recursion depth exceeded")
      | S fuel' =>
          match nth_error h l with
          | None => Raise (TypeError "dangling reference")
          | Some (OList items) => Ok (alloc h (OList items))
          | Some (OVals items) =>
              rbind (copy_each (deepcopy fuel') h items) (fun hl =>
                Ok (alloc (fst hl) (OVals (snd hl))))
          | Some (ODict e) =>
              rbind (copy_entries (deepcopy fuel') h e) (fun hl =>
                Ok (alloc (fst hl) (ODict (snd hl))))
          end
      end
  | _ => Ok (h, v)
  end.

End PyHeap.

(* ===================================================================== *)
(** ** src/game_logic/mahjong_mcts.py *)
(* ===================================================================== *)
Module MahjongMcts.
Import PyHeap.

(** A move dict [{'type': ..., 'tile': ...}]. *)
Record Move : Type := mkMove { move_type : string; move_tile : Tile }.

(** Heap-changing code that may raise; the heap reached stays. *)
Definition H (A : Type) : Type := Heap -> Res A * Heap.

Definition ret {A} (a : A) : H A := fun h => (Ok a, h).

Definition bind {A B} (m : H A) (k : A -> H B) : H B :=
  fun h => match m h with
           | (Ok a, h') => k a h'
           | (Raise e, h') => (Raise e, h')
           end.

Definition read {A} (f : Heap -> Res A) : H A := fun h => (f h, h).

Definition write (f : Heap -> Res Heap) : H unit :=
  fun h => match f h with
           | Ok h' => (Ok tt, h')
           | Raise e => (Raise e, h)
           end.

Definition new (f : Heap -> Res (Heap * Val)) : H Val :=
  fun h => match f h with
           | Ok (h', v) => (Ok v, h')
           | Raise e => (Raise e, h)
           end.

Declare Scope heap_scope.
Delimit Scope heap_scope with heap.
Notation "x <- m ;; k" := (bind m (fun x => k))
  (at level 61, m at next level, right associativity) : heap_scope.
Notation "m ;;; k" := (bind m (fun _ => k))
  (at level 61, right associativity) : heap_scope.
Local Open Scope heap_scope.

(** [MahjongMCTS._get_meld_tiles] *)
Definition _get_meld_tiles (hand : list Tile) (move : Move) : list Tile :=
  if String.eqb (move_type move) "pong" then
    firstn 2 (filter (fun t => id t =? id (move_tile move)) hand)
  else if String.eqb (move_type move) "kong" then
    firstn 3 (filter (fun t => id t =? id (move_tile move)) hand)
  else if String.eqb (move_type move) "chi" then
    firstn 2 (filter (fun t => String.eqb (Mahjong.suit t)
                                          (Mahjong.suit (move_tile move)))
                     hand)
  else [].

(** [for tile in meld_tiles: hand.remove(tile)] *)
Fixpoint remove_all (meld_tiles hand : list Tile) : Res (list Tile) :=
  match meld_tiles with
  | [] => Ok hand
  | t :: rest => rbind (App.list_remove t hand) (remove_all rest)
  end.

(** [MahjongMCTS._apply_move].  The test [move['tile'] in hand] compares
    by identity ([Tile] has no [__eq__]); [hand] holds only the tile
    objects made by the [deepcopy] at the top of the call, to which a
    tile that existed before the call does not belong, so the test is
    false and its branch is never taken. *)
Definition _apply_move (fuel : nat) (state : Val) (move : Move) : H Val :=
  new_state <- new (fun h => deepcopy fuel h state) ;;
  hand_ref <- read (fun h => getitem h new_state "hand") ;;
  (if String.eqb (move_type move) "discard" then
     hand <- read (fun h => items_of h hand_ref) ;;
     match find (fun t => id t =? id (move_tile move)) hand with
     | Some tile_to_remove =>
         hand' <- read (fun _ => App.list_remove tile_to_remove hand) ;;
         write (fun h => set_items h hand_ref hand') ;;;
         write (fun h => setitem h new_state "last_discard"
                                 (VTile tile_to_remove))
     | None => ret tt
     end
   else if str_in (move_type move) ["pong"; "chi"; "kong"] then
     hand <- read (fun h => items_of h hand_ref) ;;
     let meld_tiles := _get_meld_tiles hand move in
     hand' <- read (fun _ => remove_all meld_tiles hand) ;;
     write (fun h => set_items h hand_ref hand') ;;;
     present <- read (fun h => contains h new_state "melds") ;;
     (if present then ret tt
      else
        fresh <- new (fun h => Ok (alloc h (OVals []))) ;;
        write (fun h => setitem h new_state "melds" fresh)) ;;;
     melds <- read (fun h => getitem h new_state "melds") ;;
     meld_list <- new (fun h => Ok (alloc h (OList (meld_tiles
                                                   ++ [move_tile move])%list))) ;;
     meld <- new (fun h => Ok (alloc h (ODict [("type", VStr (move_type move));
                                               ("tiles", meld_list)]))) ;;
     write (fun h => append_val h melds meld)
   else ret tt) ;;;
  write (fun h => setitem h new_state "hand" hand_ref) ;;;
  ret new_state.

End MahjongMcts.

(* ===================================================================== *)
(** ** src/MahjongGame-master/game_logic/mcts.py *)
(* ===================================================================== *)
Module MctsMaster.
Import PyHeap.

(** How a call ends: it returns, raises, or is still running when the
    bound put on the random playout is used up.  [try]/[except] only
    intercepts the second. *)
Inductive Outcome (A : Type) : Type :=
| Done (a : A)
| Raised (e : Exn)
| OutOfFuel.
Arguments Done {A} a.
Arguments Raised {A} e.
Arguments OutOfFuel {A}.

(** An action tuple such as [("discard", tile)]. *)
Definition Action : Type := (string * Tile)%type.

Definition Action_eqb (a b : Action) : bool :=
  String.eqb (fst a) (fst b) && Tile_eqb (snd a) (snd b).

Section Engine.
Variable fl : FloatOps.
Variable Rng : Type.
Variable random_next : Rng -> nat * Rng.

Definition f_lit (num den : Z) : F fl :=
  f_div fl (f_of_int fl num) (f_of_int fl den).

(** The fields of an [MCTS] object set by [__init__]. *)
Record MCTS : Type := mkMCTS {
  max_iterations : Z;
  exploration_weight : F fl;
  cache_size : Z
}.

(** What a call can change: the objects of the heap, [self.cache] (an
    [OrderedDict], keyed by the sorted ids of a hand) and the state of
    the random generator. *)
Record World : Type := mkWorld {
  heap : Heap;
  cache : list (list Z * F fl);
  rng : Rng
}.

Definition E (A : Type) : Type := World -> Outcome A * World.

Definition ret {A} (a : A) : E A := fun w => (Done a, w).
Definition raise {A} (e : Exn) : E A := fun w => (Raised e, w).
Definition out_of_fuel {A} : E A := fun w => (OutOfFuel, w).

Definition bind {A B} (m : E A) (k : A -> E B) : E B :=
  fun w =>
    match m w with
    | (Done a, w') => k a w'
    | (Raised e, w') => (Raised e, w')
    | (OutOfFuel, w') => (OutOfFuel, w')
    end.

(** [try: m  except Exception: handler]; what [m] changed stays changed. *)
Definition try_except {A} (m : E A) (handler : Exn -> E A) : E A :=
  fun w =>
    match m w with
    | (Raised e, w') => handler e w'
    | r => r
    end.

Declare Scope eng_scope.
Delimit Scope eng_scope with eng.
Notation "x <- m ;; k" := (bind m (fun x => k))
  (at level 61, m at next level, right associativity) : eng_scope.
Notation "m ;;; k" := (bind m (fun _ => k))
  (at level 61, right associativity) : eng_scope.
Local Open Scope eng_scope.

Definition heap_read {A} (f : Heap -> Res A) : E A :=
  fun w => match f (heap w) with
           | Ok a => (Done a, w)
           | Raise e => (Raised e, w)
           end.

Definition heap_write (f : Heap -> Res Heap) : E unit :=
  fun w => match f (heap w) with
           | Ok h => (Done tt, mkWorld h (cache w) (rng w))
           | Raise e => (Raised e, w)
           end.

Definition heap_new (f : Heap -> Res (Heap * Val)) : E Val :=
  fun w => match f (heap w) with
           | Ok (h, v) => (Done v, mkWorld h (cache w) (rng w))
           | Raise e => (Raised e, w)
           end.

(** [random.choice(seq)] *)
Definition random_choice {A} (l : list A) : E A :=
  fun w =>
    match l with
    | [] => (Raised (IndexError "Cannot choose from an empty sequence"), w)
    | _ =>
        let (i, r) := random_next (rng w) in
        let w' := mkWorld (heap w) (cache w) r in
        match nth_error l (Nat.modulo i (List.length l)) with
        | Some x => (Done x, w')
        | None => (Raised (IndexError "Cannot choose from an empty sequence"), w')
        end
    end.

(** A hand of a search state; the tiles of this engine come from the
    module next to it. *)
Definition current_hand (state : Val) : E (list Tile) :=
  heap_read (fun h => tiles_at h state "current_hand").

(** [MCTS._get_available_actions].  [can_claim_chi] returns a pair, which
    is true as a condition whatever its first component: the chi action
    is offered whenever there is a last discard. *)
Definition _get_available_actions (state : Val) : E (list Action) :=
  try_except
    (hand <- current_hand state ;;
     let actions := map (fun t => ("discard", t)) hand in
     last_discard <- heap_read (fun h => get_default h state "last_discard") ;;
     match last_discard with
     | VNone => ret actions
     | VTile ld =>
         let actions :=
           if MahjongMaster.can_claim_pong hand ld
           then (actions ++ [("pong", ld)])%list else actions in
         let actions :=
           match MahjongMaster.can_claim_chi hand ld with
           | (_, _) => (actions ++ [("chi", ld)])%list
           end in
         let actions :=
           if MahjongMaster.can_claim_kong hand ld
           then (actions ++ [("kong", ld)])%list else actions in
         ret actions
     | _ => raise not_a_list
     end)
    (fun _ => ret []).

(** The key [str(sorted([(t.id, t.suit) for t in hand]))]: the suit is a
    function of the id, so the sorted ids determine it. *)
Fixpoint insert_sorted (x : Z) (l : list Z) : list Z :=
  match l with
  | [] => [x]
  | y :: l' => if x <=? y then x :: l else y :: insert_sorted x l'
  end.

Definition state_key (hand : list Tile) : list Z :=
  fold_right insert_sorted [] (map id hand).

Fixpoint key_eqb (a b : list Z) : bool :=
  match a, b with
  | [], [] => true
  | x :: a', y :: b' => (x =? y) && key_eqb a' b'
  | _, _ => false
  end.

Fixpoint cache_lookup (k : list Z) (c : list (list Z * F fl)) : option (F fl) :=
  match c with
  | [] => None
  | (k', v) :: c' => if key_eqb k k' then Some v else cache_lookup k c'
  end.

Fixpoint cache_store (k : list Z) (v : F fl) (c : list (list Z * F fl))
  : list (list Z * F fl) :=
  match c with
  | [] => [(k, v)]
  | (k', v') :: c' =>
      if key_eqb k k' then (k', v) :: c' else (k', v') :: cache_store k v c'
  end.

(** [MCTS._get_cached_evaluation] *)
Definition _get_cached_evaluation (state : Val) : E (option (F fl)) :=
  hand <- current_hand state ;;
  fun w => (Done (cache_lookup (state_key hand) (cache w)), w).

(** [MCTS._cache_evaluation]: the oldest entry leaves once the size is
    reached; [popitem] on an empty dict raises [KeyError]. *)
Definition _cache_evaluation (self : MCTS) (state : Val) (v : F fl) : E unit :=
  hand <- current_hand state ;;
  fun w =>
    let k := state_key hand in
    if cache_size self <=? Z.of_nat (List.length (cache w)) then
      match cache w with
      | [] => (Raised (KeyError "dictionary is empty"), w)
      | _ :: c' => (Done tt, mkWorld (heap w) (cache_store k v c') (rng w))
      end
    else (Done tt, mkWorld (heap w) (cache_store k v (cache w)) (rng w)).

(** [MCTS._is_terminal_state] *)
Definition _is_terminal_state (state : Val) : E bool :=
  hand <- current_hand state ;;
  ret (Nat.eqb (List.length hand) 0).

Definition neighbours (t : Tile) : list Z :=
  [id t - 2; id t - 1; id t + 1; id t + 2].

Definition has_id (hand : list Tile) (n : Z) : bool :=
  existsb (fun x => id x =? n) hand.

(** The scoring loop of [_evaluate_state]. *)
Definition evaluation_score (hand : list Tile) : F fl :=
  fold_left
    (fun score tile =>
       let copies := count_id hand tile in
       let score := f_add fl score (f_mul fl (f_of_int fl copies) (f_lit 2 10)) in
       if (0 <=? id tile) && (id tile <=? 26) then
         fold_left (fun score neighbor =>
                      if has_id hand neighbor
                      then f_add fl score (f_lit 1 10) else score)
                   (neighbours tile) score
       else score)
    hand (f_of_int fl 0).

(** [max(-1, min(1, x))] *)
Definition clamp (x : F fl) : F fl :=
  let m := if f_ltb fl x (f_of_int fl 1) then x else f_of_int fl 1 in
  if f_ltb fl (f_of_int fl (-1)) m then m else f_of_int fl (-1).

(** [MCTS._evaluate_state]; the cache is consulted before the [try]. *)
Definition _evaluate_state (self : MCTS) (state : Val) : E (F fl) :=
  cached_value <- _get_cached_evaluation state ;;
  match cached_value with
  | Some v => ret v
  | None =>
      try_except
        (hand <- current_hand state ;;
         let final_score :=
           clamp (f_div fl (evaluation_score hand) (f_of_int fl 10)) in
         _cache_evaluation self state final_score ;;;
         ret final_score)
        (fun _ => ret (f_of_int fl 0))
  end.

(** The removal loop of [_apply_action]: pop the first tile with the id
    and suit of the action's tile, if any. *)
Fixpoint pop_first (tile : Tile) (hand : list Tile) : list Tile :=
  match hand with
  | [] => []
  | t :: hand' =>
      if (id t =? id tile)
         && String.eqb (MahjongMaster.suit t) (MahjongMaster.suit tile)
      then hand' else t :: pop_first tile hand'
  end.

(** [MCTS._apply_action].  [state.copy()] is a shallow copy: the new dict
    holds the very list and dict objects of [state]. *)
Definition _apply_action (state : Val) (action : Action) : E Val :=
  try_except
    (new_state <- heap_new (fun h => dict_copy h state) ;;
     let (action_type, tile) := action in
     if String.eqb action_type "discard" then
       hand_ref <- heap_read (fun h => getitem h new_state "current_hand") ;;
       hand <- heap_read (fun h => items_of h hand_ref) ;;
       heap_write (fun h => set_items h hand_ref (pop_first tile hand)) ;;;
       pile <- heap_read (fun h => getitem h new_state "discard_pile") ;;
       heap_write (fun h => append h pile tile) ;;;
       ret new_state
     else if str_in action_type ["pong"; "chi"; "kong"] then
       hand_ref <- heap_read (fun h => getitem h new_state "current_hand") ;;
       hand <- heap_read (fun h => items_of h hand_ref) ;;
       heap_write (fun h => set_items h hand_ref (pop_first tile hand)) ;;;
       melds <- heap_read (fun h => getitem h new_state "melds") ;;
       present <- heap_read (fun h => contains h melds action_type) ;;
       (if present then ret tt
        else
          fresh <- heap_new (fun h => Ok (alloc h (OList []))) ;;
          heap_write (fun h => setitem h melds action_type fresh)) ;;;
       claimed <- heap_read (fun h => getitem h melds action_type) ;;
       heap_write (fun h => append h claimed tile) ;;;
       ret new_state
     else ret new_state)
    (fun _ => ret state).

(** The score [_fallback_heuristic] gives to a tile of the hand. *)
Definition fallback_score (hand : list Tile) (tile : Tile) : Z :=
  let score := 0 + count_id hand tile in
  if (0 <=? id tile) && (id tile <=? 26) then
    fold_left (fun score neighbor =>
                 if has_id hand neighbor then score + 1 else score)
              (neighbours tile) score
  else score.

(** [MCTS._fallback_heuristic]; [scores] is keyed by tile objects, one
    entry per tile of the hand in hand order. *)
Definition _fallback_heuristic (state : Val) : E Action :=
  try_except
    (hand <- current_hand state ;;
     match hand with
     | [] => raise (ValueError "No tiles in hand")
     | first :: _ =>
         let scores := map (fun t => (t, fallback_score hand t)) hand in
         match py_min snd scores with
         | Ok worst => ret ("discard", fst worst)
         | Raise _ => ret ("discard", first)
         end
     end)
    (fun _ =>
       hand <- current_hand state ;;
       match hand with
       | [] => raise (IndexError "list index out of range")
       | first :: _ => ret ("discard", first)
       end).

(** The tree of a search: node objects by address, the root at 0. *)
Definition Node : Type := Mcts.MCTSNode fl Val Action.
Definition Tree : Type := list Node.

(** [MCTSNode.select_child]; [ucb1] is called with its default weight. *)
Definition select_child (tree : Tree) (nd : Node) : Res nat :=
  fmax fl (Mcts.ucb1_at fl Val Action tree (f_lit 141 100))
       (Mcts.children fl Val Action nd).

(** The selection loop of [get_best_action]. *)
Fixpoint selection (fuel : nat) (tree : Tree) (node : nat) : Res nat :=
  match nth_error tree node with
  | None => Raise (IndexError "dangling node")
  | Some nd =>
      match Mcts.untried_actions fl Val Action nd,
            Mcts.children fl Val Action nd, fuel with
      | [], _ :: _, S fuel' =>
          rbind (select_child tree nd) (fun n' => selection fuel' tree n')
      | _, _, _ => Ok node
      end
  end.

(** [MCTSNode.add_child] *)
Definition add_child (tree : Tree) (node : nat) (action : Action)
           (state : Val) : Res (Tree * nat) :=
  match nth_error tree node with
  | None => Raise (IndexError "dangling node")
  | Some nd =>
      let child := Mcts.new_node fl Val Action state (Some node) (Some action) in
      rbind (Mcts.remove_action Action Action_eqb action
                                (Mcts.untried_actions fl Val Action nd))
            (fun rest =>
               let child_addr := List.length tree in
               let nd' := Mcts.with_children fl Val Action
                            (Mcts.with_untried fl Val Action nd rest)
                            (Mcts.children fl Val Action nd ++ [child_addr])%list in
               Ok ((list_set tree node nd' ++ [child])%list, child_addr))
  end.

(** The backpropagation loop of [get_best_action]:
    [node.update(value); node = node.parent; value = -value].  It reads
    and writes the statistics of nodes only, whatever their states and
    actions are. *)
Fixpoint backpropagation {S A : Type} (fuel : nat)
         (tree : list (Mcts.MCTSNode fl S A)) (node : option nat)
         (value : F fl) : list (Mcts.MCTSNode fl S A) :=
  match fuel, node with
  | S fuel', Some n =>
      match nth_error tree n with
      | Some nd =>
          let nd' := Mcts.with_stats fl S A nd
                       (Mcts.visits fl S A nd + 1)
                       (f_add fl (Mcts.value fl S A nd) value) in
          backpropagation fuel' (list_set tree n nd')
                          (Mcts.parent fl S A nd) (f_neg fl value)
      | None => tree
      end
  | _, _ => tree
  end.

(** The [while] loop of [_simulate_random_playout]. *)
Fixpoint playout_loop (self : MCTS) (fuel : nat) (current_state : Val)
  : E Val :=
  match fuel with
  | O => out_of_fuel
  | S fuel' =>
      terminal <- _is_terminal_state current_state ;;
      if terminal then ret current_state
      else
        actions <- _get_available_actions current_state ;;
        match actions with
        | [] => ret current_state
        | _ :: _ =>
            action <- random_choice actions ;;
            next <- _apply_action current_state action ;;
            playout_loop self fuel' next
        end
  end.

(** [MCTS._simulate_random_playout] *)
Definition _simulate_random_playout (self : MCTS) (fuel : nat) (state : Val)
  : E (F fl) :=
  try_except
    (current_state <- heap_new (fun h => dict_copy h state) ;;
     final <- playout_loop self fuel current_state ;;
     _evaluate_state self final)
    (fun _ => ret (f_of_int fl 0)).

Definition lift_res {A} (r : Res A) : E A :=
  fun w => match r with
           | Ok a => (Done a, w)
           | Raise e => (Raised e, w)
           end.

(** One pass of the [for] loop of [get_best_action]. *)
Definition iteration (self : MCTS) (fuel : nat) (tree : Tree) : E Tree :=
  node <- lift_res (selection (List.length tree) tree 0) ;;
  nd <- lift_res (match nth_error tree node with
                  | Some nd => Ok nd
                  | None => Raise (IndexError "dangling node")
                  end) ;;
  expanded <-
    match Mcts.untried_actions fl Val Action nd with
    | [] => ret (tree, node)
    | untried =>
        action <- random_choice untried ;;
        new_state <- _apply_action (Mcts.state fl Val Action nd) action ;;
        lift_res (add_child tree node action new_state)
    end ;;
  nd1 <- lift_res (match nth_error (fst expanded) (snd expanded) with
                   | Some nd1 => Ok nd1
                   | None => Raise (IndexError "dangling node")
                   end) ;;
  value <- _simulate_random_playout self fuel (Mcts.state fl Val Action nd1) ;;
  ret (backpropagation (S (List.length (fst expanded))) (fst expanded)
                       (Some (snd expanded)) value).

Fixpoint iterations (self : MCTS) (fuel : nat) (n : nat) (tree : Tree)
  : E Tree :=
  match n with
  | O => ret tree
  | S n' => tree' <- iteration self fuel tree ;; iterations self fuel n' tree'
  end.

Definition visits_at (tree : Tree) (n : nat) : Z :=
  match nth_error tree n with
  | Some nd => Mcts.visits fl Val Action nd
  | None => 0
  end.

(** [MCTS.get_best_action]; [fuel] bounds each random playout. *)
Definition get_best_action (self : MCTS) (fuel : nat) (state : Val)
  : E Action :=
  hand <- current_hand state ;;
  match hand with
  | [] => raise (ValueError "No tiles in hand")
  | _ :: _ =>
      try_except
        (untried <- _get_available_actions state ;;
         let root := Mcts.with_untried fl Val Action
                       (Mcts.new_node fl Val Action state None None) untried in
         match untried with
         | [] => _fallback_heuristic state
         | _ :: _ =>
             tree <- iterations self fuel (Z.to_nat (max_iterations self)) [root] ;;
             root' <- lift_res (match nth_error tree 0 with
                                | Some r => Ok r
                                | None => Raise (IndexError "dangling node")
                                end) ;;
             match Mcts.children fl Val Action root' with
             | [] => _fallback_heuristic state
             | kids =>
                 best_child <- lift_res (py_max (visits_at tree) kids) ;;
                 match nth_error tree best_child with
                 | Some bc =>
                     match Mcts.action fl Val Action bc with
                     | Some a => ret a
                     | None => raise (TypeError "root has no action")
                     end
                 | None => raise (IndexError "dangling node")
                 end
             end
         end)
        (fun _ => _fallback_heuristic state)
  end.

End Engine.
End MctsMaster.

(* ===================================================================== *)
(** * Vocabulary of the properties *)
(* ===================================================================== *)

Import App.
Import PyHeap.
Local Open Scope app_scope.

(** ** Decks *)

(** Copies of id [n] in a deck. *)
Definition count_tile (n : Z) (deck : list Tile) : nat :=
  List.length (filter (fun t => id t =? n) deck).

(** The ids never decrease along the list. *)
Fixpoint ascending (l : list Z) : bool :=
  match l with
  | a :: ((b :: _) as l') => (a <=? b) && ascending l'
  | _ => true
  end.

(** ** Suits, ranks and chi windows *)

(** The data model's reading of a tile id, against which the string-based
    tests of [can_claim_chi] are compared. *)
Inductive Suit : Type := bamboo | characters | dots | winds | dragons | bonus.

Definition Suit_eqb (a b : Suit) : bool :=
  match a, b with
  | bamboo, bamboo | characters, characters | dots, dots
  | winds, winds | dragons, dragons | bonus, bonus => true
  | _, _ => false
  end.

Definition spec_suit (n : Z) : option Suit :=
  if (0 <=? n) && (n <=? 8) then Some bamboo
  else if (9 <=? n) && (n <=? 17) then Some characters
  else if (18 <=? n) && (n <=? 26) then Some dots
  else if (27 <=? n) && (n <=? 30) then Some winds
  else if (31 <=? n) && (n <=? 33) then Some dragons
  else if (34 <=? n) && (n <=? 41) then Some bonus
  else None.

Definition spec_rank (n : Z) : Z := n mod 9 + 1.

Definition is_suited (s : option Suit) : bool :=
  match s with
  | Some bamboo | Some characters | Some dots => true
  | _ => false
  end.

(** Rank [r] occurs among the hand tiles of the candidate's suit. *)
Definition rank_present (hand : list Tile) (tile : Tile) (r : Z) : bool :=
  existsb (fun t =>
             match spec_suit (id t), spec_suit (id tile) with
             | Some a, Some b => Suit_eqb a b && (spec_rank (id t) =? r)
             | _, _ => false
             end) hand.

(** The three windows in the order below, straddle, above. *)
Definition chi_spec (hand : list Tile) (tile : Tile) : bool * option (list Z) :=
  if is_suited (spec_suit (id tile)) then
    let R := spec_rank (id tile) in
    if rank_present hand tile (R - 2) && rank_present hand tile (R - 1)
    then (true, Some [R - 2; R - 1; R])
    else if rank_present hand tile (R - 1) && rank_present hand tile (R + 1)
    then (true, Some [R - 1; R; R + 1])
    else if rank_present hand tile (R + 1) && rank_present hand tile (R + 2)
    then (true, Some [R; R + 1; R + 2])
    else (false, None)
  else (false, None).

(** ** Melds, scores and settlement *)

Definition kong_count (melds : list Meld) : Z :=
  len (filter (fun m => String.eqb (meld_type m) "kong") melds).

Definition non_kong_count (melds : list Meld) : Z :=
  len (filter (fun m => negb (String.eqb (meld_type m) "kong")) melds).

(** Every meld holds at least one tile (the claimed discard comes first). *)
Definition melds_have_tiles (melds : list Meld) : bool :=
  forallb (fun m => match tiles m with [] => false | _ :: _ => true end) melds.

(** Points of one meld: a pong scores 4 on id 0 or 8 and 2 otherwise, a
    kong 8 or 4, a chi 1 (the id is that of the meld's first tile). *)
Definition meld_points (m : Meld) : Z :=
  let terminal := match tiles m with
                  | t :: _ => (id t =? 0) || (id t =? 8)
                  | [] => false
                  end in
  if String.eqb (meld_type m) "pong" then (if terminal then 4 else 2)
  else if String.eqb (meld_type m) "kong" then (if terminal then 8 else 4)
  else if String.eqb (meld_type m) "chi" then 1
  else 0.

Definition seat_score (melds : list Meld) : Z :=
  fold_right (fun m acc => meld_points m + acc) 0 melds.

(** The meld-derived score of a seat in a room (0 without melds). *)
Definition score_of_seat (rd : Room) (seat : string) : Z :=
  seat_score (get_list (Some seat) (players_melds (game_state rd))).

(** The table settlement starts from: the room's, or 2000 each. *)
Definition starting_scores (rd : Room) : dict Z :=
  match scores rd with
  | [] => fresh_scores (positions rd)
  | s => s
  end.

Definition all_melds_have_tiles (pm : dict (list Meld)) : bool :=
  forallb (fun pms => melds_have_tiles (snd pms)) pm.

Definition seat_occupied (positions : dict string) (seat : string) : bool :=
  existsb (fun up => String.eqb (snd up) seat) positions.

Definition every_user_scored (positions : dict string) (s : dict Z) : bool :=
  forallb (fun up => str_in (fst up) (dict_keys s)) positions.

(** What [settle_scores] needs of a room to return: dict keys are unique,
    some seat has melds, every meld has a tile, every seat with melds is
    taken by a player, and a non-empty score table covers the players. *)
Definition settle_ready (rd : Room) : bool :=
  dict_wf (positions rd)
  && dict_wf (players_melds (game_state rd))
  && negb (Nat.eqb (List.length (players_melds (game_state rd))) 0)
  && all_melds_have_tiles (players_melds (game_state rd))
  && forallb (seat_occupied (positions rd))
             (dict_keys (players_melds (game_state rd)))
  && match scores rd with
     | [] => true
     | s => every_user_scored (positions rd) s
     end.

Definition scored (pm : dict (list Meld)) : dict Z :=
  map (fun pms => (fst pms, seat_score (snd pms))) pm.

(** What each other player pays the winner: the winner's meld score,
    doubled when the winner sits east. *)
Definition payment (winner_seat : string) (winner_score : Z) : Z :=
  if String.eqb winner_seat "east" then 2 * winner_score else winner_score.

(** Players of [L] other than the winner. *)
Definition others (winner : string) (L : dict string) : Z :=
  len (filter (fun up => negb (String.eqb (fst up) winner)) L).

Definition max_empty : Exn := ValueError "max() arg is an empty sequence".

(** ** Concrete rooms *)
Module Scenario.

Definition tiles_of (ids : list Z) : list Tile := map mkTile ids.

(** One human at north and three bots, as [on_start_game] seats them. *)
Definition players : dict string :=
  [("alice", "north"); ("AI_Player_1", "east");
   ("AI_Player_2", "south"); ("AI_Player_3", "west")].

Definition player_sids : dict (option string) :=
  [("alice", Some "sid-alice"); ("AI_Player_1", None);
   ("AI_Player_2", None); ("AI_Player_3", None)].

Definition table_2000 : dict Z :=
  [("alice", 2000); ("AI_Player_1", 2000);
   ("AI_Player_2", 2000); ("AI_Player_3", 2000)].

Definition room_of (gs : GameState) : Room :=
  mkRoom ["alice"] ["AI_Player_1"; "AI_Player_2"; "AI_Player_3"]
         players player_sids true gs table_2000.

Definition pong_5 : Meld :=
  mkMeld "pong" (tiles_of [5; 5; 5]) "AI_Player_1".

(** Late in a game: east has claimed a pong of id 5 and the wall is
    exhausted. *)
Definition late_hands : dict (list Tile) :=
  [("north", tiles_of [0; 1; 2; 3; 9; 10; 11; 12; 18; 19; 20; 27; 28]);
   ("east", tiles_of [6; 7; 8; 14; 15; 16; 22; 23; 24; 31]);
   ("south", tiles_of [0; 1; 2; 4; 9; 10; 13; 17; 21; 25; 26; 29; 30]);
   ("west", tiles_of [3; 4; 6; 7; 11; 12; 13; 17; 21; 25; 32; 32; 33])].

Definition late_game (turn : string) (melds : dict (list Meld)) : GameState :=
  mkGameState late_hands [] (tiles_of [30; 29; 33]) turn melds
              (Some (mkTile 33)).

Definition wall_empty_north : Room := room_of (late_game "north" [("east", [pong_5])]).
Definition wall_empty_east : Room := room_of (late_game "east" [("east", [pong_5])]).
Definition wall_empty_no_melds : Room := room_of (late_game "north" []).

Definition after_settlement : dict Z :=
  [("alice", 1996); ("AI_Player_1", 2012);
   ("AI_Player_2", 1996); ("AI_Player_3", 1996)].

(** North completes a hand: four pongs and a pair of id 7. *)
Definition north_melds : list Meld :=
  [mkMeld "pong" (tiles_of [0; 0; 0]) "alice";
   mkMeld "pong" (tiles_of [9; 9; 9]) "alice";
   mkMeld "pong" (tiles_of [20; 20; 20]) "alice";
   mkMeld "pong" (tiles_of [31; 31; 31]) "alice"].

Definition winning_room : Room :=
  room_of (mkGameState
             [("north", tiles_of [7; 7]);
              ("east", tiles_of [6; 7; 8; 14; 15; 16; 22; 23; 24; 31; 1; 2; 3]);
              ("south", tiles_of [0; 1; 2; 4; 9; 10; 13; 17; 21; 25; 26; 29; 30]);
              ("west", tiles_of [3; 4; 6; 8; 11; 12; 13; 17; 21; 25; 32; 32; 33])]
             (tiles_of [18; 19; 22])
             (tiles_of [30; 29])
             "north"
             [("north", north_melds)]
             (Some (mkTile 31))).

(** The claim window of the spec's scenario: north has just discarded a
    tile of id 5 and east holds two of them. *)
Definition east_hand : list Tile :=
  tiles_of [5; 5; 6; 7; 8; 14; 15; 16; 22; 23; 24; 31; 1].

Definition pong_window : Room :=
  room_of (mkGameState
             [("north", tiles_of [0; 1; 2; 3; 9; 10; 11; 12; 18; 19; 20; 27; 28]);
              ("east", east_hand);
              ("south", tiles_of [0; 1; 2; 4; 9; 10; 13; 17; 21; 25; 26; 29; 30]);
              ("west", tiles_of [3; 4; 6; 7; 11; 12; 13; 17; 21; 25; 32; 32; 33])]
             (tiles_of [18; 19; 22; 26; 27])
             (tiles_of [30; 5])
             "east"
             []
             (Some (mkTile 5))).

End Scenario.

(** Settlement sends nothing: every event of a handler that settles comes
    from the handler itself. *)
Definition silent {A} (m : M A) : Prop := forall rd, snd (m rd) = [].

(** Tile [t] is of the candidate's suit and has rank [n]. *)
Definition chi_match (last : Tile) (n : Z) (t : Tile) : bool :=
  match spec_suit (id t), spec_suit (id last) with
  | Some a, Some b => Suit_eqb a b && (spec_rank (id t) =? n)
  | _, _ => false
  end.

(** The number of tiles a claim takes from the hand. *)
Definition claim_size (meld_type : string) : Z :=
  if String.eqb meld_type "kong" then 3 else 2.

(** The hand supports the requested meld on the pending discard. *)
Definition claim_supported (meld_type : string) (hand : list Tile)
           (last : Tile) : bool :=
  if String.eqb meld_type "pong" then Mahjong.can_claim_pong hand last
  else if String.eqb meld_type "chi" then fst (Mahjong.can_claim_chi hand last)
  else if String.eqb meld_type "kong" then Mahjong.can_claim_kong hand last
  else false.

(** Everything a handler does after the claim leaves [game_state] alone. *)
Definition keeps_game {A} (m : M A) : Prop :=
  forall rd, game_state (snd (fst (m rd))) = game_state rd.

(** Small trees and search states to run the engines on. *)
Module SearchScenario.
Import PyHeap.

(** A root and its only child, neither visited yet. *)
Definition two_nodes : list (Mcts.MCTSNode IntFloats unit unit) :=
  [Mcts.mkMCTSNode IntFloats unit unit tt None None [1%nat] 0 0 [];
   Mcts.mkMCTSNode IntFloats unit unit tt (Some 0%nat) (Some tt) [] 0 0 []].

(** A search state of the second engine: the dict at address 0 with its
    hand (1), discard pile (2) and melds (3). *)
Definition state_entries : dict Val :=
  [("current_hand", VRef 1); ("discard_pile", VRef 2);
   ("melds", VRef 3); ("last_discard", VNone)].

Definition heap_of (hand pile : list Tile) : Heap :=
  [ODict state_entries; OList hand; OList pile; ODict []].

Definition world_of (hand pile : list Tile)
  : MctsMaster.World IntFloats unit :=
  MctsMaster.mkWorld IntFloats unit (heap_of hand pile) [] tt.

Definition bamboo_1_2 : list Tile := [mkTile 0; mkTile 1].

End SearchScenario.

(** The objects that existed at the start (addresses below [n]) are
    still what they were in [h0]. *)
Definition kept (n : nat) (h0 h : Heap) : Prop :=
  (n <= List.length h)%nat
  /\ forall l, (l < n)%nat -> nth_error h l = nth_error h0 l.

(** A value that does not name an object older than [n]. *)
Definition fresh (n : nat) (v : Val) : Prop :=
  match v with
  | VRef r => (n <= r)%nat
  | _ => True
  end.

(** The copy at [ns] is a dict of fresh values over kept objects. *)
Definition copy_inv (n : nat) (h0 : Heap) (ns : nat) (h : Heap) : Prop :=
  kept n h0 h
  /\ (n <= ns)%nat
  /\ exists e, nth_error h ns = Some (ODict e)
               /\ forall k v, dict_get k e = Some v -> fresh n v.

(** What a copy function must do for [deepcopy] to be one. *)
Definition good_copy (copy : Heap -> Val -> Res (Heap * Val)) : Prop :=
  forall h v h' v',
    copy h v = Ok (h', v') ->
    kept (List.length h) h h' /\ (forall r, v = VRef r -> fresh (List.length h) v')
    /\ (forall r, v' = VRef r -> exists r0, v = VRef r0).

(** Heap code that maintains an invariant whether it returns or raises,
    and whose results satisfy [Q]. *)
Definition maintains {A} (I : Heap -> Prop) (m : MahjongMcts.H A)
           (Q : A -> Prop) : Prop :=
  forall h, I h -> I (snd (m h)) /\ forall a, fst (m h) = Ok a -> Q a.

(** ** Search trees *)

(** The node [d] levels above node [n]. *)
Fixpoint ancestor {fl : FloatOps} {State Action : Type}
         (tree : list (Mcts.MCTSNode fl State Action)) (d : nat) (n : nat)
  : option nat :=
  match d with
  | O => Some n
  | S d' => match nth_error tree n with
            | Some nd => match Mcts.parent fl State Action nd with
                         | Some p => ancestor tree d' p
                         | None => None
                         end
            | None => None
            end
  end.

(** A node visited once more, with [r] added to its value. *)
Definition bump {fl : FloatOps} {State Action : Type}
           (nd : Mcts.MCTSNode fl State Action) (r : F fl)
  : Mcts.MCTSNode fl State Action :=
  Mcts.with_stats fl State Action nd
    (Mcts.visits fl State Action nd + 1)
    (f_add fl (Mcts.value fl State Action nd) r).

(** Every child was created after its parent. *)
Definition parents_first {fl : FloatOps} {State Action : Type}
           (tree : list (Mcts.MCTSNode fl State Action)) : bool :=
  forallb (fun ind => match Mcts.parent fl State Action (snd ind) with
                      | Some p => (p <? fst ind)%nat
                      | None => true
                      end)
          (combine (seq 0 (List.length tree)) tree).

(** Node 0 is the root and the only node without a parent. *)
Definition rooted {fl : FloatOps} {State Action : Type}
           (tree : list (Mcts.MCTSNode fl State Action)) : bool :=
  match tree with
  | [] => false
  | r :: rest =>
      match Mcts.parent fl State Action r with
      | None => forallb (fun nd => match Mcts.parent fl State Action nd with
                                   | Some _ => true
                                   | None => false
                                   end) rest
      | Some _ => false
      end
  end.

(** Both backpropagation loops climb the [parent] links; they differ in
    what they do to the reward between two levels. *)
Fixpoint climb {fl : FloatOps} {State Action : Type}
         (next : F fl -> F fl) (fuel : nat)
         (tree : list (Mcts.MCTSNode fl State Action))
         (node : option nat) (r : F fl)
  : list (Mcts.MCTSNode fl State Action) :=
  match fuel, node with
  | S fuel', Some n =>
      match nth_error tree n with
      | Some nd => climb next fuel' (list_set tree n (bump nd r))
                         (Mcts.parent fl State Action nd) (next r)
      | None => tree
      end
  | _, _ => tree
  end.

Definition pf {fl : FloatOps} {State Action : Type}
           (tree : list (Mcts.MCTSNode fl State Action)) : Prop :=
  forall n nd p, nth_error tree n = Some nd ->
                 Mcts.parent fl State Action nd = Some p -> (p < n)%nat.

(** A tree that is a lone root with nothing to try. *)
Definition lone_root {fl : FloatOps} {State Action : Type}
           (tree : list (Mcts.MCTSNode fl State Action)) : Prop :=
  exists nd, tree = [nd]
             /\ Mcts.untried_actions fl State Action nd = []
             /\ Mcts.children fl State Action nd = []
             /\ Mcts.parent fl State Action nd = None.

(** [m] run [n] times in a row. *)
Fixpoint times (n : nat) (m : M unit) : M unit :=
  match n with
  | O => ret tt
  | S n' => m ;;; times n' m
  end.

(** A handler that leaves a part [f] of the room as it found it. *)
Definition keeps {X A : Type} (f : Room -> X) (m : M A) : Prop :=
  forall rd, f (snd (fst (m rd))) = f rd.

(** A part of the room that does not depend on the score table. *)
Definition beside_scores {X : Type} (f : Room -> X) : Prop :=
  forall rd s, f (set_scores rd s) = f rd.

(** The room but for its score table. *)
Definition table (rd : Room) : Room := set_scores rd [].

(** Every event a handler sends satisfies [P]. *)
Definition sends {A : Type} (P : Event -> Prop) (m : M A) : Prop :=
  forall rd, Forall P (snd (m rd)).

(** An event that announces no meld other than one of type [meld_type]. *)
Definition claims_only (meld_type : string) (e : Event) : Prop :=
  match e with
  | meld_claimed m => App.meld_type m = meld_type
  | _ => True
  end.

(** An event that announces no meld other than a pong or a chi. *)
Definition pong_or_chi (e : Event) : Prop :=
  match e with
  | meld_claimed m => App.meld_type m = "pong" \/ App.meld_type m = "chi"
  | _ => True
  end.

(** Three equal ids, or three consecutive ids starting at most at 26. *)
Definition set_of_three (g : list Z) : Prop :=
  exists a, g = [a; a; a] \/ (a <= 26 /\ g = [a; a + 1; a + 2]).

(** The ids can be split into sets of three. *)
Definition splits_into_sets (tile_ids : list Z) : Prop :=
  exists groups, Permutation tile_ids (List.concat groups)
                 /\ Forall set_of_three groups.

(** More rooms to run the handlers on. *)
Module Play.

(** East is to move and holds three tiles of id 6. *)
Definition triplet_hand : list Tile :=
  Scenario.tiles_of [6; 6; 6; 7; 8; 14; 15; 16; 22; 23; 24; 31; 1; 2].

Definition east_triplet : Room :=
  Scenario.room_of
    (mkGameState
       [("north", Scenario.tiles_of [0; 1; 2; 3; 9; 10; 11; 12; 18; 19; 20; 27; 28]);
        ("east", triplet_hand);
        ("south", Scenario.tiles_of [0; 1; 2; 4; 9; 10; 13; 17; 21; 25; 26; 29; 30]);
        ("west", Scenario.tiles_of [3; 4; 5; 7; 11; 12; 13; 17; 21; 25; 32; 32; 33])]
       (Scenario.tiles_of [18; 19; 22; 26; 27])
       (Scenario.tiles_of [30])
       "east"
       []
       None).

End Play.

(** The tiles at positions [offset], [offset + 4], ... of a deck: what a
    seat receives when four seats are served in turn. *)
Definition every_fourth (deck : list Tile) (offset count : nat) : list Tile :=
  flat_map (fun k => match nth_error deck (4 * k + offset) with
                     | Some t => [t]
                     | None => []
                     end)
           (seq 0 count).

(** ** Search states of the second engine *)

(** A list object lives at address [a]. *)
Definition list_at (h : Heap) (a : nat) : Prop :=
  exists items, nth_error h a = Some (OList items).

(** The keys [_apply_action] writes in a melds dict. *)
Definition meld_keys : list string := ["pong"; "chi"; "kong"].

(** The objects of a search state: a hand list at [hr], another list at
    [pr] for the discard pile, and at [mr] a melds dict whose entries for
    the three meld types, where present, are lists other than the hand. *)
Definition master_heap (hr pr mr : nat) (h : Heap) : Prop :=
  list_at h hr /\ list_at h pr /\ hr <> pr
  /\ exists me, nth_error h mr = Some (ODict me)
                /\ forall k, In k meld_keys ->
                             match dict_get k me with
                             | None => True
                             | Some v => exists r, v = VRef r /\ r <> hr
                                                   /\ list_at h r
                             end.

(** [state] is a dict over those objects whose last discard, if any, is a
    tile. *)
Definition master_state (hr pr mr : nat) (h : Heap) (state : Val) : Prop :=
  exists e, entries_of h state = Ok e
            /\ dict_get "current_hand" e = Some (VRef hr)
            /\ dict_get "discard_pile" e = Some (VRef pr)
            /\ dict_get "melds" e = Some (VRef mr)
            /\ match dict_get "last_discard" e with
               | None | Some VNone | Some (VTile _) => True
               | Some _ => False
               end.

(** What running the engine may do to a heap: objects keep their
    address and their kind, and a dict keeps its entries but for meld
    types it did not have. *)
Definition grows (h h' : Heap) : Prop :=
  forall a,
    match nth_error h a with
    | Some (OList _) => list_at h' a
    | Some (ODict e) =>
        exists e', nth_error h' a = Some (ODict e')
                   /\ forall k, (~ In k meld_keys \/ dict_get k e <> None) ->
                                dict_get k e' = dict_get k e
    | Some (OVals v) => nth_error h' a = Some (OVals v)
    | None => True
    end.

(** What [_evaluate_state] returns for a state whose hand is empty, with
    cache [c]: the value remembered for the empty hand or, without one,
    the score of no tile (0 when storing it fails on an empty cache of
    size 0). *)
Definition empty_hand_value (fl : FloatOps) (self : MctsMaster.MCTS fl)
           (c : list (list Z * F fl)) : F fl :=
  match MctsMaster.cache_lookup fl [] c with
  | Some v => v
  | None =>
      let score := MctsMaster.clamp fl
                     (f_div fl (f_of_int fl 0) (f_of_int fl 10)) in
      match c with
      | [] => if MctsMaster.cache_size fl self <=? 0 then f_of_int fl 0
              else score
      | _ :: _ => score
      end
  end.

(** More search states to run the second engine on. *)
Module Searches.

(** An engine with its default settings. *)
Definition engine : MctsMaster.MCTS IntFloats :=
  MctsMaster.mkMCTS IntFloats 1000 141 1000.

(** A generator that always draws 0: [random.choice] takes the first
    element. *)
Definition first_choice (r : unit) : nat * unit := (0%nat, r).

(** Two states over hands that hold the same tiles in different orders,
    the first with a last discard that no tile of its hand is near. *)
Definition two_states (ld : Tile) : Heap :=
  [ODict [("current_hand", VRef 1); ("discard_pile", VRef 2);
          ("melds", VRef 3); ("last_discard", VTile ld)];
   OList [mkTile 0; mkTile 1]; OList []; ODict [];
   ODict [("current_hand", VRef 5); ("discard_pile", VRef 2);
          ("melds", VRef 3)];
   OList [mkTile 1; mkTile 0]].

Definition two_worlds (ld : Tile) : MctsMaster.World IntFloats unit :=
  MctsMaster.mkWorld IntFloats unit (two_states ld) [] tt.

End Searches.

(* ===================================================================== *)
(** * Properties *)
(* ===================================================================== *)

(** ** Tile catalogue and deck construction *)



Lemma range_In (n : nat) : forall lo x,
  In x (Mahjong.range lo n) <-> lo <= x < lo + Z.of_nat n.
Proof.
  induction n as [|n IH]; intros lo x; simpl Mahjong.range.
  - simpl. lia.
  - simpl In. rewrite IH. lia.
Qed.

(** The deck of src/game_logic/mahjong.py is the 144-tile deck. *)
Lemma create_deck_main_144 :
  List.length Mahjong.create_deck = 144%nat
  /\ (forall n, 0 <= n <= 33 -> count_tile n Mahjong.create_deck = 4%nat)
  /\ (forall n, 34 <= n <= 41 -> count_tile n Mahjong.create_deck = 1%nat)
  /\ ascending (map id Mahjong.create_deck) = true.
Proof.
  split; [reflexivity|].
  split; [|split; [|vm_compute; reflexivity]].
  - intros n Hn.
    assert (H : In n (Mahjong.range 0 34)) by (apply range_In; lia).
    revert H. clear Hn.
    assert (F : forallb (fun k => Nat.eqb (count_tile k Mahjong.create_deck) 4)
                        (Mahjong.range 0 34) = true) by (vm_compute; reflexivity).
    rewrite forallb_forall in F. intros H. apply F in H.
    now apply Nat.eqb_eq.
  - intros n Hn.
    assert (H : In n (Mahjong.range 34 8)) by (apply range_In; lia).
    assert (F : forallb (fun k => Nat.eqb (count_tile k Mahjong.create_deck) 1)
                        (Mahjong.range 34 8) = true) by (vm_compute; reflexivity).
    rewrite forallb_forall in F. apply F in H.
    now apply Nat.eqb_eq.
Qed.

(** C6. The deck built by [create_deck] of
    src/MahjongGame-master/game_logic/mahjong.py has 27 tiles, one of each
    id 0-26 and none of the ids 27-41, where its docstring (and the claim)
    promise 144 tiles with four copies of ids 0-33 and one of ids 34-41. *)
Theorem create_deck_master_27 :
  List.length MahjongMaster.create_deck = 27%nat
  /\ count_tile 0 MahjongMaster.create_deck = 1%nat
  /\ count_tile 33 MahjongMaster.create_deck = 0%nat
  /\ count_tile 34 MahjongMaster.create_deck = 0%nat
  /\ List.length MahjongMaster.create_deck <> 144%nat.
Proof. vm_compute. repeat split; discriminate. Qed.

(** ** Chi eligibility *)








Lemma get_suit_cases (n : Z) :
  (0 <= n <= 8 /\ Mahjong.get_suit n = "bamboo" /\ spec_suit n = Some bamboo)
  \/ (9 <= n <= 17 /\ Mahjong.get_suit n = "characters"
      /\ spec_suit n = Some characters)
  \/ (18 <= n <= 26 /\ Mahjong.get_suit n = "dots" /\ spec_suit n = Some dots)
  \/ (27 <= n <= 30 /\ Mahjong.get_suit n = "winds" /\ spec_suit n = Some winds)
  \/ (31 <= n <= 33 /\ Mahjong.get_suit n = "dragons"
      /\ spec_suit n = Some dragons)
  \/ (34 <= n <= 41 /\ Mahjong.get_suit n = "bonus" /\ spec_suit n = Some bonus)
  \/ ((n < 0 \/ 41 < n) /\ Mahjong.get_suit n = "unknown" /\ spec_suit n = None).
Proof.
  unfold Mahjong.get_suit, spec_suit.
  repeat match goal with
         | |- context [?a <=? ?b] =>
             destruct (Z.leb_spec a b); simpl andb; cbv iota
         end;
    try (left; repeat split; (lia || reflexivity));
    try (right; left; repeat split; (lia || reflexivity));
    try (right; right; left; repeat split; (lia || reflexivity));
    try (right; right; right; left; repeat split; (lia || reflexivity));
    try (right; right; right; right; left; repeat split; (lia || reflexivity));
    try (right; right; right; right; right; left; repeat split;
         (lia || reflexivity));
    try (right; right; right; right; right; right; repeat split;
         (lia || reflexivity)).
Qed.

(** For the suited ids the number parsed from the name is the rank. *)
Lemma main_tile_number (t : Tile) :
  0 <= id t <= 26 -> tile_number Mahjong.name t = Some (spec_rank (id t)).
Proof.
  intros H. destruct t as [n]. simpl in *.
  assert (I : In n (Mahjong.range 0 27)) by (apply range_In; lia).
  assert (F : forallb (fun k =>
                match tile_number Mahjong.name (mkTile k) with
                | Some r => r =? spec_rank k
                | None => false
                end) (Mahjong.range 0 27) = true) by (vm_compute; reflexivity).
  rewrite forallb_forall in F. apply F in I.
  destruct (tile_number Mahjong.name (mkTile n)); [|discriminate].
  apply Z.eqb_eq in I. now subst.
Qed.

Lemma main_suited (t : Tile) :
  suited Mahjong.suit t = is_suited (spec_suit (id t)).
Proof.
  unfold suited, Mahjong.suit.
  destruct (get_suit_cases (id t))
    as [H|[H|[H|[H|[H|[H|H]]]]]]; destruct H as (_ & -> & ->); reflexivity.
Qed.

Lemma main_hand_numbers (hand : list Tile) (tile : Tile) (r : Z) :
  is_suited (spec_suit (id tile)) = true ->
  z_in r (hand_numbers Mahjong.suit Mahjong.name hand tile)
  = rank_present hand tile r.
Proof.
  intros Hs. induction hand as [|t hand IH]; [reflexivity|].
  simpl hand_numbers. unfold rank_present. simpl existsb.
  fold (rank_present hand tile r). rewrite <- IH. clear IH.
  unfold Mahjong.suit.
  destruct (get_suit_cases (id tile))
    as [H|[H|[H|[H|[H|[H|H]]]]]]; destruct H as (Ht & Et & St);
    rewrite St in Hs; try discriminate Hs; rewrite Et, St;
    destruct (get_suit_cases (id t))
      as [K|[K|[K|[K|[K|[K|K]]]]]]; destruct K as (Kt & Ek & Sk);
    rewrite Ek, Sk; simpl String.eqb; cbv iota; simpl Suit_eqb;
    try reflexivity;
    rewrite main_tile_number by lia; unfold z_in; simpl existsb;
    rewrite (Z.eqb_sym r); reflexivity.
Qed.

(** On the tiles of src/game_logic/mahjong.py, [can_claim_chi] is the
    eligibility test of the data model: only suited candidates qualify,
    the windows are tried in the order below, straddle, above, and the
    first one present is the single sequence returned. *)
Lemma can_claim_chi_main_spec (hand : list Tile) (tile : Tile) :
  Mahjong.can_claim_chi hand tile = chi_spec hand tile.
Proof.
  unfold Mahjong.can_claim_chi, can_claim_chi, chi_spec.
  rewrite main_suited.
  destruct (is_suited (spec_suit (id tile))) eqn:Hs; simpl negb; cbv iota;
    [|reflexivity].
  assert (Hr : 0 <= id tile <= 26).
  { destruct (get_suit_cases (id tile))
      as [H|[H|[H|[H|[H|[H|H]]]]]]; destruct H as (Ht & _ & St);
      rewrite St in Hs; try discriminate Hs; lia. }
  rewrite main_tile_number by exact Hr.
  unfold chi_sequences.
  rewrite !main_hand_numbers by exact Hs.
  set (R := spec_rank (id tile)).
  destruct (rank_present hand tile (R - 2) && rank_present hand tile (R - 1));
    [reflexivity|].
  destruct (rank_present hand tile (R - 1) && rank_present hand tile (R + 1));
    [reflexivity|].
  destruct (rank_present hand tile (R + 1) && rank_present hand tile (R + 2));
    reflexivity.
Qed.

(** Winds, dragons and bonus tiles never qualify in that module, and a
    reported sequence is three consecutive ranks containing the rank of the
    candidate. *)
Lemma can_claim_chi_main_shape (hand : list Tile) (tile : Tile) :
  (is_suited (spec_suit (id tile)) = false ->
   Mahjong.can_claim_chi hand tile = (false, None))
  /\ (forall s, Mahjong.can_claim_chi hand tile = (true, Some s) ->
      exists a, s = [a; a + 1; a + 2]
                /\ a <= spec_rank (id tile) <= a + 2).
Proof.
  rewrite can_claim_chi_main_spec. unfold chi_spec. split.
  - intros ->. reflexivity.
  - intros s.
    destruct (is_suited (spec_suit (id tile))); [|discriminate].
    cbv zeta. set (R := spec_rank (id tile)).
    destruct (_ && _).
    { intros E. injection E as <-. exists (R - 2).
      replace (R - 2 + 1) with (R - 1) by lia.
      replace (R - 2 + 2) with R by lia. split; [reflexivity | lia]. }
    destruct (_ && _).
    { intros E. injection E as <-. exists (R - 1).
      replace (R - 1 + 1) with R by lia.
      replace (R - 1 + 2) with (R + 1) by lia. split; [reflexivity | lia]. }
    destruct (_ && _); [|discriminate].
    intros E. injection E as <-. exists R. split; [reflexivity | lia].
Qed.

(** In the other copy every tile object is suited, whatever its id. *)
Lemma master_every_tile_suited (t : Tile) :
  suited MahjongMaster.suit t = true.
Proof.
  unfold suited, MahjongMaster.suit.
  destruct (id t <? 9); [reflexivity|].
  destruct (id t <? 18); reflexivity.
Qed.

(** C5. With the tiles of src/MahjongGame-master/game_logic/mahjong.py a
    wind qualifies for chi: id 30 is "north" in that module's own
    [TILE_NAMES], [Tile.__init__] makes it "dots 4", and with the winds 28
    and 29 in hand [can_claim_chi] reports the sequence 2-3-4.  The tiles
    of src/game_logic/mahjong.py reject the same claim. *)
Theorem can_claim_chi_master_accepts_wind :
  Mahjong.table_get 30 MahjongMaster.TILE_NAMES "Unknown" = "north"
  /\ MahjongMaster.suit (mkTile 30) = "dots"
  /\ MahjongMaster.name (mkTile 30) = "dots 4"
  /\ MahjongMaster.can_claim_chi [mkTile 28; mkTile 29] (mkTile 30)
     = (true, Some [2; 3; 4])
  /\ Mahjong.can_claim_chi [mkTile 28; mkTile 29] (mkTile 30) = (false, None).
Proof. vm_compute. repeat split; reflexivity. Qed.

(** ** Win detection *)




Lemma meld_total_counts (melds : list Meld) : forall total,
  meld_total melds total
  = total + 3 * non_kong_count melds + 4 * kong_count melds.
Proof.
  unfold non_kong_count, kong_count, len.
  induction melds as [|m melds IH]; intros total; cbn [meld_total filter].
  - cbn [List.length]. lia.
  - destruct (String.eqb (meld_type m) "kong"); cbn [negb];
      rewrite IH; cbn [List.length]; rewrite ?Nat2Z.inj_succ; lia.
Qed.

Lemma compute_score_meld_ok (m : Meld) :
  tiles m <> [] -> exists p, compute_score_meld m = Ok p.
Proof.
  intros H. unfold compute_score_meld, first_tile_id.
  destruct (tiles m) as [|t ts]; [contradiction|].
  destruct (String.eqb (meld_type m) "pong"); [simpl; eauto|].
  destruct (String.eqb (meld_type m) "kong"); simpl; eauto.
Qed.

Lemma sum_melds_ok (f : Meld -> Res Z) (melds : list Meld) :
  (forall m, In m melds -> exists p, f m = Ok p) ->
  forall acc, exists total, sum_melds f melds acc = Ok total.
Proof.
  induction melds as [|m melds IH]; intros H acc; simpl.
  - eauto.
  - destruct (H m (or_introl eq_refl)) as [p ->]. simpl.
    apply IH. intros m' Hm'. apply H. now right.
Qed.

Lemma melds_have_tiles_In (melds : list Meld) (m : Meld) :
  melds_have_tiles melds = true -> In m melds -> tiles m <> [].
Proof.
  unfold melds_have_tiles. rewrite forallb_forall. intros H Hm.
  specialize (H m Hm). destruct (tiles m); [discriminate|discriminate].
Qed.

Lemma compute_score_ok (hand : list Tile) (melds : list Meld) (sd : bool) :
  melds_have_tiles melds = true ->
  exists score, compute_score hand melds sd = Ok score.
Proof.
  intros H. unfold compute_score.
  destruct (sum_melds_ok compute_score_meld melds) with (acc := 0)
    as [total ->].
  - intros m Hm. apply compute_score_meld_ok.
    eapply melds_have_tiles_In; eauto.
  - simpl. destruct sd; eauto.
Qed.

(** C1. For every room and player, with [hand] and [melds] those of the
    player's seat, [check_win_and_score] returns, and its flag is true
    exactly when hand size + 3 per non-kong meld + 4 per kong meld is 14
    and the hand is two tiles of equal id. *)
Theorem check_win_iff_pair_and_14 (rd : Room) (username : string) :
  let position := dict_get username (positions rd) in
  let melds := get_list position (players_melds (game_state rd)) in
  let hand := get_list position (players_hands (game_state rd)) in
  melds_have_tiles melds = true ->
  exists win score,
    check_win_and_score rd username = Ok (win, score)
    /\ (win = true <->
        len hand + 3 * non_kong_count melds + 4 * kong_count melds = 14
        /\ exists a b, hand = [a; b] /\ id a = id b).
Proof.
  intros position melds hand Hwf.
  unfold check_win_and_score.
  fold position. fold melds. fold hand.
  rewrite meld_total_counts.
  set (total := len hand + 3 * non_kong_count melds + 4 * kong_count melds).
  destruct (Z.eqb_spec total 14) as [Ht|Ht]; simpl andb.
  - destruct (Z.eqb_spec (len hand) 2) as [Hl|Hl].
    + destruct hand as [|a [|b [|c hand']]]; try (cbv in Hl; discriminate Hl).
      * destruct (Z.eqb_spec (id a) (id b)) as [Hab|Hab].
        -- destruct (compute_score_ok [a; b] melds true Hwf) as [score ->].
           simpl. exists true, score. split; [reflexivity|].
           split; [intros _; split; [exact Ht|eauto] | reflexivity].
        -- exists false, 0. split; [reflexivity|].
           split; [discriminate|].
           intros (_ & a' & b' & E & Hid). injection E as <- <-.
           exfalso. now apply Hab.
      * exfalso. unfold len in Hl. simpl List.length in Hl. lia.
    + exists false, 0. split; [reflexivity|].
      split; [discriminate|].
      intros (_ & a & b & E & _). rewrite E in Hl. exfalso. now apply Hl.
  - exists false, 0. split; [reflexivity|].
    split; [discriminate|]. intros (E & _). contradiction.
Qed.

(** ** Dicts *)

Lemma dict_get_set_same {V} (k : string) (v : V) (d : dict V) :
  dict_get k (dict_set k v d) = Some v.
Proof.
  induction d as [|[k' v'] d IH]; simpl.
  - now rewrite String.eqb_refl.
  - destruct (String.eqb k k') eqn:E; simpl; rewrite E; auto.
Qed.

Lemma dict_get_set_other {V} (k k' : string) (v : V) (d : dict V) :
  k <> k' -> dict_get k' (dict_set k v d) = dict_get k' d.
Proof.
  intros Hne. induction d as [|[a v'] d IH]; simpl.
  - destruct (String.eqb_spec k' k); [congruence|reflexivity].
  - destruct (String.eqb_spec k a) as [->|Hka]; simpl.
    + destruct (String.eqb_spec k' a); [congruence|reflexivity].
    + destruct (String.eqb_spec k' a); [reflexivity|exact IH].
Qed.

Lemma str_in_In (k : string) (l : list string) :
  str_in k l = true <-> In k l.
Proof.
  induction l as [|x l IH]; simpl.
  - split; [discriminate|contradiction].
  - rewrite orb_true_iff, IH. destruct (String.eqb_spec k x); split; intros H.
    + now left.
    + now left.
    + destruct H as [H|H]; [discriminate|now right].
    + destruct H as [H|H]; [congruence|now right].
Qed.

Lemma dict_get_keys {V} (k : string) (d : dict V) :
  str_in k (dict_keys d) = true <-> dict_get k d <> None.
Proof.
  induction d as [|[a v] d IH]; simpl.
  - split; [discriminate|congruence].
  - destruct (String.eqb k a); simpl; [split; [discriminate|reflexivity]|exact IH].
Qed.

Lemma dict_set_fresh {V} (k : string) (v : V) (d : dict V) :
  str_in k (dict_keys d) = false -> dict_set k v d = (d ++ [(k, v)])%list.
Proof.
  induction d as [|[a v'] d IH]; simpl; [reflexivity|].
  destruct (String.eqb k a); simpl; [discriminate|].
  intros H. now rewrite IH.
Qed.

(** ** Settlement *)









Lemma meld_points_nonneg (m : Meld) : 0 <= meld_points m.
Proof.
  unfold meld_points.
  repeat match goal with |- context [if ?b then _ else _] => destruct b end; lia.
Qed.

Lemma seat_score_nonneg (melds : list Meld) : 0 <= seat_score melds.
Proof.
  induction melds as [|m melds IH]; simpl; [lia|].
  pose proof (meld_points_nonneg m). lia.
Qed.

Lemma settle_meld_points (m : Meld) :
  tiles m <> [] -> settle_meld m = Ok (meld_points m).
Proof.
  intros H. unfold settle_meld, meld_points, first_tile_id, terminal_id.
  destruct (tiles m) as [|t ts]; [contradiction|].
  destruct (String.eqb (meld_type m) "pong"); [reflexivity|].
  destruct (String.eqb (meld_type m) "kong"); [reflexivity|].
  destruct (String.eqb (meld_type m) "chi"); reflexivity.
Qed.

Lemma sum_melds_settle (melds : list Meld) :
  melds_have_tiles melds = true ->
  forall acc, sum_melds settle_meld melds acc = Ok (acc + seat_score melds).
Proof.
  induction melds as [|m melds IH]; intros H acc; simpl.
  - f_equal. lia.
  - simpl in H. apply andb_true_iff in H as [Hm H].
    rewrite settle_meld_points by (destruct (tiles m); [discriminate|discriminate]).
    simpl. rewrite IH by exact H. f_equal. lia.
Qed.


Lemma dict_keys_app {V} (a b : dict V) :
  dict_keys (a ++ b)%list = (dict_keys a ++ dict_keys b)%list.
Proof. unfold dict_keys. apply map_app. Qed.

Lemma str_in_app (k : string) (a b : list string) :
  str_in k (a ++ b)%list = str_in k a || str_in k b.
Proof.
  induction a as [|x a IH]; simpl; [reflexivity|].
  rewrite IH. now rewrite orb_assoc.
Qed.

Lemma player_scores_loop_scored (items : dict (list Meld)) :
  all_melds_have_tiles items = true ->
  dict_wf items = true ->
  forall acc,
    (forall k, str_in k (dict_keys items) = true ->
               str_in k (dict_keys acc) = false) ->
    player_scores_loop items acc = Ok (acc ++ scored items)%list.
Proof.
  unfold dict_wf.
  induction items as [|[p ms] items IH]; intros Ht Hwf acc Hdis; simpl.
  - now rewrite app_nil_r.
  - simpl in Ht. apply andb_true_iff in Ht as [Hms Ht].
    simpl in Hwf. apply andb_true_iff in Hwf as [Hp Hwf].
    apply negb_true_iff in Hp.
    rewrite sum_melds_settle by exact Hms. simpl.
    rewrite dict_set_fresh.
    + rewrite IH; auto.
      * now rewrite <- app_assoc.
      * intros k Hk. rewrite dict_keys_app, str_in_app. simpl.
        rewrite Hdis by (simpl; rewrite Hk; apply orb_true_r).
        destruct (String.eqb_spec k p) as [->|]; [congruence|reflexivity].
    + apply Hdis. simpl. now rewrite String.eqb_refl.
Qed.

Lemma dict_get_scored (pm : dict (list Meld)) (k : string) :
  dict_get k (scored pm) = option_map seat_score (dict_get k pm).
Proof.
  induction pm as [|[p ms] pm IH]; simpl; [reflexivity|].
  destruct (String.eqb k p); [reflexivity|exact IH].
Qed.

Lemma max_from_spec {A} (f : A -> Z) (l : list A) : forall best,
  In (max_from f best l) (best :: l)
  /\ forall x, In x (best :: l) -> f x <= f (max_from f best l).
Proof.
  induction l as [|y l IH]; intros best; simpl.
  - split; [now left|]. intros x [<-|[]]. lia.
  - destruct (Z.ltb_spec (f best) (f y)) as [Hlt|Hge].
    + destruct (IH y) as [Hin Hmax]. split.
      * right. exact Hin.
      * intros x [<-|Hx].
        -- specialize (Hmax y (or_introl eq_refl)). lia.
        -- apply Hmax. exact Hx.
    + destruct (IH best) as [Hin Hmax]. split.
      * destruct Hin as [<-|Hin]; [now left|right; now right].
      * intros x [<-|[<-|Hx]].
        -- apply Hmax. now left.
        -- specialize (Hmax best (or_introl eq_refl)). lia.
        -- apply Hmax. now right.
Qed.

Lemma set_scores_same (rd : Room) : set_scores rd (scores rd) = rd.
Proof. destruct rd; reflexivity. Qed.

Lemma add_score_run (rd : Room) (u : string) (v delta : Z) :
  dict_get u (scores rd) = Some v ->
  add_score u delta rd
  = (Ok tt, set_scores rd (dict_set u (v + delta) (scores rd)), []).
Proof.
  intros H. unfold add_score, bind, get, lift, put, dict_index.
  rewrite H. reflexivity.
Qed.

Lemma fresh_scores_get (P : dict string) (u : string) :
  dict_get u (fresh_scores P)
  = if str_in u (dict_keys P) then Some 2000 else None.
Proof.
  unfold fresh_scores.
  change (@None Z) with (dict_get u (@nil (string * Z))).
  generalize (@nil (string * Z)) as acc.
  induction (dict_keys P) as [|k ks IH]; intros acc; simpl; [reflexivity|].
  rewrite IH. destruct (str_in u ks); [now rewrite orb_true_r|].
  rewrite orb_false_r.
  destruct (String.eqb_spec u k) as [->|Hne].
  - apply dict_get_set_same.
  - apply dict_get_set_other. congruence.
Qed.

Lemma dict_get_In {V} (P : dict V) (u : string) (p : V) :
  dict_wf P = true -> In (u, p) P -> dict_get u P = Some p.
Proof.
  unfold dict_wf.
  induction P as [|[a v] P IH]; simpl; intros Hwf Hin; [contradiction|].
  apply andb_true_iff in Hwf as [Ha Hwf]. apply negb_true_iff in Ha.
  destruct Hin as [E|Hin].
  - injection E as -> ->. now rewrite String.eqb_refl.
  - destruct (String.eqb_spec u a) as [->|Hne]; [|now apply IH].
    exfalso. assert (Hk : str_in a (dict_keys P) = true).
    { apply str_in_In. unfold dict_keys. apply in_map_iff.
      exists (a, p). split; [reflexivity|exact Hin]. }
    congruence.
Qed.


Lemma others_cons_winner (winner p : string) (L : dict string) :
  others winner ((winner, p) :: L) = others winner L.
Proof. unfold others. simpl. now rewrite String.eqb_refl. Qed.

Lemma others_cons_other (winner u p : string) (L : dict string) :
  u <> winner -> others winner ((u, p) :: L) = others winner L + 1.
Proof.
  intros H. unfold others, len. simpl.
  destruct (String.eqb_spec u winner); [contradiction|].
  cbn [negb List.length]. lia.
Qed.

Lemma others_count (winner : string) (L : dict string) :
  str_nodup (dict_keys L) = true ->
  others winner L
  = if str_in winner (dict_keys L) then len L - 1 else len L.
Proof.
  induction L as [|[u p] L IH]; intros Hnd; [reflexivity|].
  simpl in Hnd. apply andb_true_iff in Hnd as [Hu Hnd].
  apply negb_true_iff in Hu. simpl str_in.
  destruct (String.eqb_spec winner u) as [<-|Hne].
  - rewrite others_cons_winner, IH by exact Hnd. rewrite Hu.
    unfold len. cbn [List.length orb]. lia.
  - rewrite others_cons_other, IH by congruence. simpl orb.
    destruct (str_in winner (dict_keys L)); unfold len;
      cbn [List.length]; lia.
Qed.

Section Transfers.
Variable rd : Room.
Variables winner winner_seat : string.
Variable winner_score : Z.

Local Abbreviation pay := (payment winner_seat winner_score).

Lemma pay_winner_self (st : Room) :
  pay_winner winner winner_seat winner_score winner st = (Ok tt, st, []).
Proof. unfold pay_winner. now rewrite String.eqb_refl. Qed.

Lemma pay_winner_run (s : dict Z) (loser : string) (w0 v : Z) :
  loser <> winner ->
  dict_get winner s = Some w0 ->
  dict_get loser s = Some v ->
  pay_winner winner winner_seat winner_score loser (set_scores rd s)
  = (Ok tt,
     set_scores rd (dict_set loser (v - pay) (dict_set winner (w0 + pay) s)),
     []).
Proof.
  intros Hne Hw Hl. unfold pay_winner, payment.
  destruct (String.eqb_spec loser winner) as [|_]; [contradiction|].
  cbn [negb].
  destruct (String.eqb winner_seat "east"); unfold bind; cbv beta;
    rewrite (add_score_run (set_scores rd s) winner w0) by exact Hw;
    simpl scores;
    (erewrite add_score_run
      by (simpl scores; rewrite dict_get_set_other by congruence; exact Hl));
    simpl; repeat f_equal; lia.
Qed.

Lemma inner_loop (L : dict string) :
  str_nodup (dict_keys L) = true ->
  forall s w0,
    dict_get winner s = Some w0 ->
    (forall u, str_in u (dict_keys L) = true -> dict_get u s <> None) ->
    exists s',
      for_each L (fun lp => pay_winner winner winner_seat winner_score (fst lp))
               (set_scores rd s)
      = (Ok tt, set_scores rd s', [])
      /\ dict_get winner s' = Some (w0 + pay * others winner L)
      /\ forall u, u <> winner ->
           dict_get u s'
           = if str_in u (dict_keys L)
             then option_map (fun v => v - pay) (dict_get u s)
             else dict_get u s.
Proof.
  induction L as [|[u p] L IH]; intros Hnd s w0 Hw Hall.
  - exists s. split; [reflexivity|]. split.
    + rewrite Hw. f_equal. unfold others, len. simpl. lia.
    + intros u _. reflexivity.
  - simpl in Hnd. apply andb_true_iff in Hnd as [Hu Hnd].
    apply negb_true_iff in Hu.
    cbn [for_each fst]. unfold bind at 1.
    destruct (String.eqb_spec u winner) as [->|Hne].
    + rewrite pay_winner_self.
      destruct (IH Hnd s w0 Hw) as (s' & Hrun & Hws & Hoth).
      { intros u' Hu'. apply Hall. simpl. rewrite Hu'. apply orb_true_r. }
      exists s'. rewrite Hrun. split; [reflexivity|]. split.
      * rewrite others_cons_winner. exact Hws.
      * intros u' Hu'. rewrite Hoth by exact Hu'. simpl.
        destruct (String.eqb_spec u' winner); [contradiction|reflexivity].
    + destruct (dict_get u s) as [v|] eqn:Hv.
      2:{ exfalso. apply (Hall u); [|exact Hv]. simpl.
          now rewrite String.eqb_refl. }
      rewrite (pay_winner_run s u w0 v Hne Hw Hv).
      set (s2 := dict_set u (v - pay) (dict_set winner (w0 + pay) s)).
      assert (Hw2 : dict_get winner s2 = Some (w0 + pay)).
      { unfold s2. rewrite dict_get_set_other by exact Hne.
        apply dict_get_set_same. }
      destruct (IH Hnd s2 (w0 + pay) Hw2) as (s' & Hrun & Hws & Hoth).
      { intros u' Hu'. unfold s2.
        destruct (String.eqb_spec u u') as [<-|Hne'].
        - rewrite dict_get_set_same. discriminate.
        - rewrite dict_get_set_other by exact Hne'.
          destruct (String.eqb_spec winner u') as [<-|Hne''].
          + rewrite dict_get_set_same. discriminate.
          + rewrite dict_get_set_other by exact Hne''.
            apply Hall. simpl. rewrite Hu'. apply orb_true_r. }
      exists s'. rewrite Hrun. split; [reflexivity|]. split.
      * rewrite Hws, others_cons_other by exact Hne. f_equal. lia.
      * intros u' Hu'. rewrite Hoth by exact Hu'. simpl.
        destruct (String.eqb_spec u' u) as [->|Hne'].
        -- rewrite Hu. simpl. unfold s2. rewrite dict_get_set_same.
           now rewrite Hv.
        -- simpl. unfold s2.
           rewrite dict_get_set_other by congruence.
           rewrite dict_get_set_other by congruence. reflexivity.
Qed.

Lemma outer_loop_skip (inner : M unit) (L : dict string) (st : Room) :
  str_in winner (dict_keys L) = false ->
  for_each L (fun up => if String.eqb (fst up) winner then inner else ret tt) st
  = (Ok tt, st, []).
Proof.
  induction L as [|[u p] L IH]; intros H; [reflexivity|].
  simpl in H. apply orb_false_iff in H as [Hu H].
  cbn [for_each fst]. unfold bind.
  rewrite String.eqb_sym in Hu. rewrite Hu. simpl.
  now rewrite IH.
Qed.

Lemma outer_loop_once (inner : M unit) (L : dict string) (st st' : Room) :
  str_nodup (dict_keys L) = true ->
  str_in winner (dict_keys L) = true ->
  inner st = (Ok tt, st', []) ->
  for_each L (fun up => if String.eqb (fst up) winner then inner else ret tt) st
  = (Ok tt, st', []).
Proof.
  induction L as [|[u p] L IH]; intros Hnd Hin Hrun; [discriminate|].
  simpl in Hnd. apply andb_true_iff in Hnd as [Hu Hnd].
  apply negb_true_iff in Hu.
  cbn [for_each fst]. unfold bind.
  destruct (String.eqb_spec u winner) as [->|Hne].
  - rewrite Hrun. now rewrite outer_loop_skip.
  - simpl. simpl in Hin.
    destruct (String.eqb_spec winner u) as [E|_]; [congruence|].
    simpl in Hin. now rewrite IH.
Qed.
End Transfers.

Lemma bind_ok {A B} (m : M A) (k : A -> M B) (rd rd' : Room) (a : A) :
  m rd = (Ok a, rd', []) -> bind m k rd = k a rd'.
Proof.
  intros H. unfold bind. rewrite H.
  destruct (k a rd') as [[r rd''] ev']. reflexivity.
Qed.

Lemma bind_raise {A B} (m : M A) (k : A -> M B) (rd rd' : Room) (e : Exn)
      (ev : list Event) :
  m rd = (Raise e, rd', ev) -> bind m k rd = (Raise e, rd', ev).
Proof. intros H. unfold bind. now rewrite H. Qed.

Lemma settle_init_run (rd : Room) :
  (match scores rd with
   | [] => put (set_scores rd (fresh_scores (positions rd)))
   | _ => ret tt
   end) rd
  = (Ok tt, set_scores rd (starting_scores rd), []).
Proof.
  unfold starting_scores. destruct (scores rd) eqn:E; [reflexivity|].
  unfold ret. rewrite <- E. now rewrite set_scores_same.
Qed.

Lemma starting_scores_cover (rd : Room) (u : string) :
  settle_ready rd = true ->
  str_in u (dict_keys (positions rd)) = true ->
  dict_get u (starting_scores rd) <> None.
Proof.
  unfold settle_ready, starting_scores. intros H Hu.
  apply andb_true_iff in H as [_ H].
  destruct (scores rd) as [|e s] eqn:E.
  - rewrite fresh_scores_get, Hu. discriminate.
  - apply dict_get_keys. unfold every_user_scored in H.
    rewrite forallb_forall in H.
    apply str_in_In in Hu. unfold dict_keys in Hu.
    apply in_map_iff in Hu as ([u' p] & <- & Hin).
    apply (H _ Hin).
Qed.

Lemma dict_get_some_In {V} (d : dict V) (k : string) :
  str_in k (dict_keys d) = true -> exists v, dict_get k d = Some v.
Proof.
  intros H. apply dict_get_keys in H.
  destruct (dict_get k d) as [v|]; [eauto|contradiction].
Qed.

Lemma scored_keys (pm : dict (list Meld)) : dict_keys (scored pm) = dict_keys pm.
Proof. unfold dict_keys, scored. rewrite map_map. reflexivity. Qed.

(** C3. When a room is ready for settlement, [settle_scores] returns a
    score table and a winner such that: the winner's seat has the highest
    meld-derived score of all seats; the result does not depend on the
    triggering player or score passed in; every other player's balance
    drops by the winner's score, twice that when the winner sits east, and
    the winner's balance rises by the same amount per other player. *)
Theorem settle_scores_highest_meld_score
        (rd : Room) (trigger : option string) (win_score : Z) :
  settle_ready rd = true ->
  exists winner winner_seat final,
    settle_scores trigger win_score rd
    = (Ok (final, winner), set_scores rd final, [])
    /\ dict_get winner (positions rd) = Some winner_seat
    /\ (forall seat, score_of_seat rd seat <= score_of_seat rd winner_seat)
    /\ (forall trigger' win_score',
          settle_scores trigger' win_score' rd
          = settle_scores trigger win_score rd)
    /\ let pay := payment winner_seat (score_of_seat rd winner_seat) in
       (forall u, str_in u (dict_keys (positions rd)) = true -> u <> winner ->
          exists v, dict_get u (starting_scores rd) = Some v
                    /\ dict_get u final = Some (v - pay))
       /\ (exists v, dict_get winner (starting_scores rd) = Some v
                     /\ dict_get winner final
                        = Some (v + pay * (len (positions rd) - 1))).
Proof.
  intros Hready. pose proof Hready as Hr. unfold settle_ready in Hr.
  repeat (apply andb_true_iff in Hr as [Hr ?]).
  rename H into Hsc, H0 into Hocc, H1 into Htiles, H2 into Hne, H3 into HwfM.
  rename Hr into HwfP.
  set (items := players_melds (game_state rd)) in *.
  set (P := positions rd) in *.
  assert (Hps : player_scores_loop items [] = Ok (scored items)).
  { rewrite player_scores_loop_scored; auto. }
  destruct items as [|[p0 ms0] items'] eqn:Eitems; [discriminate Hne|].
  rewrite <- Eitems in *.
  set (f := fun k : string =>
              match dict_get k (scored items) with Some v => v | None => 0 end).
  assert (Hkeys : dict_keys (scored items) = p0 :: dict_keys items').
  { rewrite scored_keys, Eitems. reflexivity. }
  set (wp := max_from f p0 (dict_keys items')).
  destruct (max_from_spec f (dict_keys items') p0) as [Hwin Hmax].
  fold wp in Hwin, Hmax.
  assert (Hwk : str_in wp (dict_keys items) = true).
  { apply str_in_In. rewrite Eitems. exact Hwin. }
  destruct (dict_get_some_In items wp Hwk) as [msw Hmsw].
  assert (Hfw : f wp = score_of_seat rd wp).
  { unfold f, score_of_seat. rewrite dict_get_scored. simpl get_list.
    fold items. now rewrite Hmsw. }
  assert (Hidx : dict_index wp (scored items) = Ok (score_of_seat rd wp)).
  { unfold dict_index. rewrite <- Hfw. unfold f.
    rewrite dict_get_scored, Hmsw. reflexivity. }
  (* the player at the winning seat *)
  rewrite forallb_forall in Hocc.
  assert (Hseat : seat_occupied P wp = true).
  { apply Hocc. apply str_in_In. exact Hwk. }
  unfold seat_occupied in Hseat.
  destruct (find (fun up => String.eqb (snd up) wp) P) as [[winner ws]|] eqn:Hfind.
  2:{ exfalso. apply existsb_exists in Hseat as (x & Hx & Hxs).
      pose proof (find_none _ _ Hfind x Hx) as Hn. simpl in Hn. congruence. }
  pose proof Hfind as Hfind0.
  apply find_some in Hfind as [HinP Hws]. simpl in Hws.
  apply String.eqb_eq in Hws. subst ws.
  assert (HwP : dict_get winner P = Some wp) by (apply dict_get_In; auto).
  assert (HwK : str_in winner (dict_keys P) = true).
  { apply dict_get_keys. rewrite HwP. discriminate. }
  (* the transfers *)
  destruct (dict_get winner (starting_scores rd)) as [w0|] eqn:Hw0.
  2:{ exfalso. now apply (starting_scores_cover rd winner Hready HwK). }
  destruct (inner_loop rd winner wp (score_of_seat rd wp) P HwfP
                       (starting_scores rd) w0 Hw0)
    as (final & Hrun & Hfw' & Hoth).
  { intros u Hu. now apply starting_scores_cover. }
  exists winner, wp, final.
  assert (Hsettle : forall t w,
             settle_scores t w rd
             = (Ok (final, winner), set_scores rd final, [])).
  { intros t w. unfold settle_scores.
    rewrite (bind_ok get _ rd rd rd) by reflexivity.
    rewrite (bind_ok _ _ _ _ _ (settle_init_run rd)).
    fold items.
    rewrite (bind_ok (lift (player_scores_loop items [])) _ _
                     (set_scores rd (starting_scores rd)) (scored items))
      by (unfold lift; now rewrite Hps).
    rewrite (bind_ok (lift (py_max _ _)) _ _
                     (set_scores rd (starting_scores rd)) wp)
      by (unfold lift; rewrite Hkeys; reflexivity).
    rewrite (bind_ok (lift (dict_index wp _)) _ _
                     (set_scores rd (starting_scores rd)) (score_of_seat rd wp))
      by (unfold lift; now rewrite Hidx).
    fold P.
    assert (Hnext : py_next (fun up : string * string => String.eqb (snd up) wp) P
                    = Ok (winner, wp)).
    { unfold py_next. now rewrite Hfind0. }
    rewrite (bind_ok (lift _) _ _
                     (set_scores rd (starting_scores rd)) winner)
      by (unfold lift; rewrite Hnext; reflexivity).
    rewrite (bind_ok _ _ _ (set_scores rd final) tt)
      by (apply outer_loop_once; auto).
    reflexivity. }
  split; [apply Hsettle|].
  split; [exact HwP|].
  split.
  { intros seat. unfold score_of_seat at 1. simpl get_list. fold items.
    destruct (dict_get seat items) as [ms|] eqn:Hms.
    - rewrite <- Hfw.
      assert (Hk : In seat (p0 :: dict_keys items')).
      { change (p0 :: dict_keys items') with (dict_keys ((p0, ms0) :: items')).
        rewrite <- Eitems. apply str_in_In, dict_get_keys. rewrite Hms.
        discriminate. }
      specialize (Hmax seat Hk). unfold f in Hmax at 1.
      rewrite dict_get_scored, Hms in Hmax. exact Hmax.
    - rewrite <- Hfw. unfold f. rewrite dict_get_scored, Hmsw. simpl.
      apply seat_score_nonneg. }
  split; [intros t w; now rewrite !Hsettle|].
  cbv zeta. split.
  - intros u Hu Hne'.
    destruct (dict_get u (starting_scores rd)) as [v|] eqn:Hv.
    2:{ exfalso. now apply (starting_scores_cover rd u Hready Hu). }
    exists v. split; [reflexivity|].
    rewrite Hoth by exact Hne'. fold P in Hu. rewrite Hu, Hv. reflexivity.
  - exists w0. split; [exact Hw0|].
    rewrite Hfw'. rewrite others_count by exact HwfP. now rewrite HwK.
Qed.

(** ** The empty-deck draw *)


Lemma settle_scores_no_melds (rd : Room) (trigger : option string) (ws : Z) :
  players_melds (game_state rd) = [] ->
  settle_scores trigger ws rd
  = (Raise max_empty, set_scores rd (starting_scores rd), []).
Proof.
  intros H. unfold settle_scores.
  rewrite (bind_ok get _ rd rd rd) by reflexivity.
  rewrite (bind_ok _ _ _ _ _ (settle_init_run rd)).
  rewrite H.
  rewrite (bind_ok (lift (player_scores_loop [] [])) _ _
                   (set_scores rd (starting_scores rd)) ([] : dict Z))
    by reflexivity.
  reflexivity.
Qed.

(** C10. With no meld recorded for any seat, [settle_scores] raises the
    [ValueError] of [max] over an empty collection instead of returning a
    score table, and both empty-deck draw paths ([on_draw_tile] for the
    player to move, [handle_ai_turn] for a bot with nothing to claim) run
    into exactly that failure, sending no event. *)
Theorem settle_scores_fails_without_melds (rd : Room) :
  players_melds (game_state rd) = [] ->
  (forall trigger ws,
     settle_scores trigger ws rd
     = (Raise max_empty, set_scores rd (starting_scores rd), []))
  /\ (forall user,
        dict_get user (positions rd) = Some (current_turn (game_state rd)) ->
        remaining_deck (game_state rd) = [] ->
        on_draw_tile user rd
        = (Raise max_empty, set_scores rd (starting_scores rd), []))
  /\ (forall bot seat,
        dict_get bot (positions rd) = Some seat ->
        remaining_deck (game_state rd) = [] ->
        last_discard (game_state rd) = None ->
        handle_ai_turn bot rd
        = (Raise max_empty, set_scores rd (starting_scores rd), [])).
Proof.
  intros Hm. split; [|split].
  - intros. now apply settle_scores_no_melds.
  - intros user Hpos Hdeck. unfold on_draw_tile.
    rewrite (bind_ok get _ rd rd rd) by reflexivity.
    rewrite (bind_ok (lift _) _ rd rd (current_turn (game_state rd)))
      by (unfold lift, dict_index; now rewrite Hpos).
    rewrite String.eqb_refl. cbn [negb]. rewrite Hdeck.
    apply bind_raise. now apply settle_scores_no_melds.
  - intros bot seat Hpos Hdeck Hld. unfold handle_ai_turn.
    rewrite (bind_ok get _ rd rd rd) by reflexivity.
    rewrite (bind_ok (lift _) _ rd rd seat)
      by (unfold lift, dict_index; now rewrite Hpos).
    rewrite Hld.
    rewrite (bind_ok (ret false) _ rd rd false) by reflexivity.
    rewrite (bind_ok get _ rd rd rd) by reflexivity.
    rewrite Hdeck.
    apply bind_raise. now apply settle_scores_no_melds.
Qed.


Lemma check_win_iff_pair_and_14_witness :
  melds_have_tiles Scenario.north_melds = true
  /\ exists score,
       check_win_and_score Scenario.winning_room "alice" = Ok (true, score).
Proof.
  split; [reflexivity|].
  destruct (check_win_iff_pair_and_14 Scenario.winning_room "alice" eq_refl)
    as (win & score & Hrun & Hiff).
  exists score. rewrite Hrun. f_equal. f_equal. apply Hiff.
  split; [reflexivity|].
  exists (mkTile 7), (mkTile 7). split; reflexivity.
Defined.

Lemma settle_scores_highest_meld_score_witness :
  settle_ready Scenario.wall_empty_north = true
  /\ exists winner final,
       settle_scores None 0 Scenario.wall_empty_north
       = (Ok (final, winner), set_scores Scenario.wall_empty_north final, [])
       /\ dict_get winner Scenario.players = Some "east".
Proof.
  split; [reflexivity|].
  destruct (settle_scores_highest_meld_score
              Scenario.wall_empty_north None 0 eq_refl)
    as (winner & seat & final & Hrun & Hseat & Hmax & _).
  exists winner, final. split; [exact Hrun|].
  change (positions Scenario.wall_empty_north) with Scenario.players in Hseat.
  rewrite Hseat. f_equal.
  (* east is the only seat with a positive score *)
  specialize (Hmax "east").
  destruct (String.eqb_spec seat "east") as [->|Hne]; [reflexivity|].
  exfalso.
  assert (Hz : score_of_seat Scenario.wall_empty_north seat = 0).
  { unfold score_of_seat. simpl.
    destruct (String.eqb_spec seat "east"); [contradiction|reflexivity]. }
  rewrite Hz in Hmax. vm_compute in Hmax. now apply Hmax.
Defined.

Lemma settle_scores_fails_without_melds_witness :
  players_melds (game_state Scenario.wall_empty_no_melds) = []
  /\ on_draw_tile "alice" Scenario.wall_empty_no_melds
     = (Raise max_empty, Scenario.wall_empty_no_melds, []).
Proof.
  split; [reflexivity|].
  destruct (settle_scores_fails_without_melds
              Scenario.wall_empty_no_melds eq_refl) as (_ & Hdraw & _).
  exact (Hdraw "alice" eq_refl eq_refl).
Defined.


Lemma silent_bind {A B} (m : M A) (k : A -> M B) :
  silent m -> (forall a, silent (k a)) -> silent (bind m k).
Proof.
  intros Hm Hk rd. unfold bind. specialize (Hm rd).
  destruct (m rd) as [[[a|e] rd'] ev]; simpl in Hm; subst ev.
  - specialize (Hk a rd'). destruct (k a rd') as [[r rd''] ev'].
    simpl in *. now subst.
  - reflexivity.
Qed.

Lemma silent_for_each {A} (l : list A) (body : A -> M unit) :
  (forall x, silent (body x)) -> silent (for_each l body).
Proof.
  intros H. induction l as [|x l IH]; [intros rd; reflexivity|].
  simpl. apply silent_bind; auto.
Qed.

Lemma silent_add_score (u : string) (d : Z) : silent (add_score u d).
Proof.
  unfold add_score. apply silent_bind; [intros rd; reflexivity|].
  intros rd0. apply silent_bind; intros; intros rd; reflexivity.
Qed.

Lemma silent_settle_scores (t : option string) (w : Z) :
  silent (settle_scores t w).
Proof.
  unfold settle_scores.
  repeat (apply silent_bind; [|intros ?]);
    try (intros rd; reflexivity).
  - destruct (scores a); intros rd; reflexivity.
  - apply silent_for_each. intros up.
    destruct (String.eqb (fst up) _); [|intros rd; reflexivity].
    apply silent_for_each. intros lp. unfold pay_winner.
    destruct (negb _); [|intros rd; reflexivity].
    destruct (String.eqb _ _); apply silent_bind; intros;
      apply silent_add_score.
Qed.

(** Whatever the room, a draw attempt on an empty deck by the player to
    move raises, and no [game_over] (nor any other event) is sent. *)
Lemma on_draw_tile_empty_deck_raises (rd : Room) (user : string) :
  dict_get user (positions rd) = Some (current_turn (game_state rd)) ->
  remaining_deck (game_state rd) = [] ->
  exists e rd', on_draw_tile user rd = (Raise e, rd', []).
Proof.
  intros Hpos Hdeck. unfold on_draw_tile.
  rewrite (bind_ok get _ rd rd rd) by reflexivity.
  rewrite (bind_ok (lift _) _ rd rd (current_turn (game_state rd)))
    by (unfold lift, dict_index; now rewrite Hpos).
  rewrite String.eqb_refl. cbn [negb]. rewrite Hdeck.
  unfold bind at 1.
  pose proof (silent_settle_scores (Some user) 0 rd) as Hs.
  destruct (settle_scores (Some user) 0 rd) as [[[a|e] rd'] ev];
    simpl in Hs; subst ev.
  - exists (KeyError "room"), rd'. reflexivity.
  - exists e, rd'. reflexivity.
Qed.

(** C4. On an empty deck neither draw path ends the game as a draw with no
    winner and an untouched score table.  With east holding a pong,
    [on_draw_tile] by the player to move settles (moving 4 points from each
    other player to east), then raises [KeyError] on [rd["room"]] and sends
    no [game_over]; without melds it raises from [settle_scores]; and
    [handle_ai_turn] sends a [game_over] that names a winner, with the
    settled table. *)
Theorem empty_deck_draw_is_not_a_clean_draw :
  on_draw_tile "alice" Scenario.wall_empty_north
  = (Raise (KeyError "room"),
     set_scores Scenario.wall_empty_north Scenario.after_settlement, [])
  /\ on_draw_tile "alice" Scenario.wall_empty_no_melds
     = (Raise max_empty, Scenario.wall_empty_no_melds, [])
  /\ handle_ai_turn "AI_Player_1" Scenario.wall_empty_east
     = (Ok tt,
        set_scores Scenario.wall_empty_east Scenario.after_settlement,
        [game_over (Some "AI_Player_1")
                   (ScoresOnly Scenario.after_settlement)
                   "draw—no tiles left"]).
Proof. vm_compute. repeat split; reflexivity. Qed.

(** ** Claim application *)

Lemma count_id_nil (x : Tile) : count_id [] x = 0.
Proof. reflexivity. Qed.

Lemma count_id_cons (t : Tile) (l : list Tile) (x : Tile) :
  count_id (t :: l) x = (if id t =? id x then 1 else 0) + count_id l x.
Proof.
  unfold count_id. simpl. destruct (id t =? id x);
    cbn [List.length]; rewrite ?Nat2Z.inj_succ; lia.
Qed.

Lemma count_id_app (a b : list Tile) (x : Tile) :
  count_id (a ++ b) x = count_id a x + count_id b x.
Proof.
  induction a as [|t a IH]; [reflexivity|].
  rewrite <- app_comm_cons, !count_id_cons, IH. lia.
Qed.

Lemma count_id_nonneg (l : list Tile) (x : Tile) : 0 <= count_id l x.
Proof. unfold count_id. lia. Qed.

Lemma len_cons {A} (a : A) (l : list A) : len (a :: l) = 1 + len l.
Proof. unfold len. cbn [List.length]. lia. Qed.

Lemma len_app {A} (a b : list A) : len (a ++ b) = len a + len b.
Proof. unfold len. rewrite length_app. lia. Qed.

Lemma len_nonneg {A} (l : list A) : 0 <= len l.
Proof. unfold len. lia. Qed.

(** Removing a tile that no tile of the prefix equals. *)
Lemma list_remove_skip (pre rest : list Tile) (t : Tile) :
  forallb (fun x => negb (id x =? id t)) pre = true ->
  list_remove t (pre ++ t :: rest) = Ok (pre ++ rest)%list.
Proof.
  induction pre as [|x pre IH]; simpl; intros H.
  - unfold Tile_eqb. now rewrite Z.eqb_refl.
  - apply andb_true_iff in H as [Hx H]. apply negb_true_iff in Hx.
    unfold Tile_eqb. rewrite Hx. now rewrite IH.
Qed.

Lemma list_remove_In (t : Tile) (hand : list Tile) :
  existsb (fun x => id x =? id t) hand = true ->
  exists hand',
    list_remove t hand = Ok hand'
    /\ len hand' = len hand - 1
    /\ forall x, count_id hand' x
                 = count_id hand x - (if id t =? id x then 1 else 0).
Proof.
  induction hand as [|y hand IH]; cbn [existsb list_remove]; [discriminate|].
  unfold Tile_eqb. destruct (Z.eqb_spec (id y) (id t)) as [E|Hne]; cbn [orb].
  - intros _. exists hand. split; [reflexivity|]. split.
    + rewrite len_cons. lia.
    + intros x. rewrite count_id_cons, E. lia.
  - intros H. destruct (IH H) as (hand' & -> & Hl & Hc). cbn [rbind].
    exists (y :: hand'). split; [reflexivity|]. split.
    + rewrite !len_cons. lia.
    + intros x. rewrite !count_id_cons, Hc. lia.
Qed.

(** The pong and kong loops take [min(limit - count, matches)] tiles, all
    with the discard's id, and never raise. *)
Lemma take_matching_inv (limit : Z) (last : Tile) (snapshot : list Tile) :
  forall pre meld count,
    (count < limit -> forallb (fun x => negb (id x =? id last)) pre = true) ->
    0 <= count <= limit ->
    exists hand' meld',
      take_matching limit last snapshot (pre ++ snapshot) meld count
      = Ok (hand', meld')
      /\ let k := Z.min (limit - count) (count_id snapshot last) in
         len hand' = len (pre ++ snapshot) - k
         /\ len meld' = len meld + k
         /\ forall x, count_id hand' x
                      = count_id (pre ++ snapshot) x
                        - (if id last =? id x then k else 0).
Proof.
  induction snapshot as [|t rest IH]; intros pre meld count Hpre Hc.
  - exists (pre ++ [])%list, meld. split; [reflexivity|].
    rewrite count_id_nil. cbv zeta.
    replace (Z.min (limit - count) 0) with 0 by lia.
    repeat split; try lia. intros x. destruct (id last =? id x); lia.
  - cbn [take_matching].
    destruct ((id t =? id last) && (count <? limit)) eqn:Hcond.
    + apply andb_true_iff in Hcond as [Ht Hlt].
      apply Z.eqb_eq in Ht. apply Z.ltb_lt in Hlt.
      rewrite list_remove_skip.
      2:{ rewrite Ht. now apply Hpre. }
      cbn [rbind].
      destruct (IH pre (meld ++ [t])%list (count + 1)) as (h' & m' & Hrun & Hk).
      { intros _. now apply Hpre. }
      { lia. }
      exists h', m'. split; [exact Hrun|].
      cbv zeta in *. destruct Hk as (Hl & Hm & Hx).
      rewrite count_id_cons, Ht, Z.eqb_refl.
      pose proof (count_id_nonneg rest last) as Hnn.
      replace (Z.min (limit - count) (1 + count_id rest last))
        with (1 + Z.min (limit - (count + 1)) (count_id rest last)) by lia.
      split; [|split].
      * rewrite Hl, !len_app, len_cons. lia.
      * rewrite Hm, len_app, len_cons. unfold len at 2. cbn [List.length]. lia.
      * intros x. rewrite Hx, !count_id_app, count_id_cons, Ht.
        destruct (id last =? id x); lia.
    + replace (pre ++ t :: rest)%list with ((pre ++ [t]) ++ rest)%list
        by (now rewrite <- app_assoc).
      destruct (IH (pre ++ [t])%list meld count) as (h' & m' & Hrun & Hk).
      { intros Hlt. rewrite forallb_app, (Hpre Hlt). simpl.
        apply Z.ltb_lt in Hlt. rewrite Hlt, andb_true_r in Hcond.
        now rewrite Hcond. }
      { lia. }
      exists h', m'. split; [exact Hrun|].
      cbv zeta in *. destruct Hk as (Hl & Hm & Hx).
      rewrite count_id_cons.
      pose proof (count_id_nonneg rest last) as Hnn.
      assert (Hmin : Z.min (limit - count)
                           ((if id t =? id last then 1 else 0) + count_id rest last)
                     = Z.min (limit - count) (count_id rest last)).
      { destruct (id t =? id last); [|reflexivity].
        simpl in Hcond. apply Z.ltb_ge in Hcond. lia. }
      rewrite Hmin. repeat split; assumption.
Qed.

Lemma take_matching_claim (limit : Z) (last : Tile) (hand : list Tile) :
  0 <= limit <= count_id hand last ->
  exists hand' taken,
    take_matching limit last hand hand [] 0 = Ok (hand', taken)
    /\ len hand' = len hand - limit
    /\ len taken = limit
    /\ forall x, count_id hand' x
                 = count_id hand x - (if id last =? id x then limit else 0).
Proof.
  intros H.
  destruct (take_matching_inv limit last hand [] [] 0)
    as (h' & m' & Hrun & Hk); [reflexivity|lia|].
  exists h', m'. simpl app in *. split; [exact Hrun|].
  cbv zeta in Hk. rewrite Z.sub_0_r in Hk.
  replace (Z.min limit (count_id hand last)) with limit in Hk by lia.
  destruct Hk as (Hl & Hm & Hx). repeat split; assumption.
Qed.


Lemma rank_present_chi_match (hand : list Tile) (last : Tile) (n : Z) :
  rank_present hand last n = existsb (chi_match last n) hand.
Proof. reflexivity. Qed.

Lemma main_tile_match (t last : Tile) (n : Z) :
  is_suited (spec_suit (id last)) = true ->
  if String.eqb (Mahjong.suit t) (Mahjong.suit last)
  then tile_number Mahjong.name t = Some (spec_rank (id t))
       /\ chi_match last n t = (spec_rank (id t) =? n)
  else chi_match last n t = false.
Proof.
  intros Hs. unfold Mahjong.suit, chi_match.
  destruct (get_suit_cases (id last))
    as [H|[H|[H|[H|[H|[H|H]]]]]]; destruct H as (Ht & Et & St);
    rewrite St in Hs; try discriminate Hs; rewrite Et, St;
    destruct (get_suit_cases (id t))
      as [K|[K|[K|[K|[K|[K|K]]]]]]; destruct K as (Kt & Ek & Sk);
    rewrite Ek, Sk; simpl String.eqb; cbv iota; simpl Suit_eqb;
    try reflexivity;
    (split; [apply main_tile_number; lia | reflexivity]).
Qed.

Lemma take_number_find (n : Z) (last : Tile) :
  is_suited (spec_suit (id last)) = true ->
  forall snapshot hand meld,
    take_number n last snapshot hand meld
    = match find (chi_match last n) snapshot with
      | Some t => rbind (list_remove t hand)
                        (fun hand' => Ok (hand', (meld ++ [t])%list))
      | None => Ok (hand, meld)
      end.
Proof.
  intros Hs. induction snapshot as [|t rest IH]; intros hand meld;
    [reflexivity|].
  cbn [take_number find].
  pose proof (main_tile_match t last n Hs) as Hm.
  destruct (String.eqb (Mahjong.suit t) (Mahjong.suit last)).
  - destruct Hm as [-> ->]. destruct (spec_rank (id t) =? n); [reflexivity|].
    apply IH.
  - rewrite Hm. apply IH.
Qed.

Lemma tile_eq (a b : Tile) : id a = id b -> a = b.
Proof. destruct a, b; simpl; intros ->; reflexivity. Qed.

Lemma In_count_id (l : list Tile) (x : Tile) : In x l <-> 0 < count_id l x.
Proof.
  induction l as [|t l IH]; [rewrite count_id_nil; simpl; lia|].
  rewrite count_id_cons. pose proof (count_id_nonneg l x). simpl In.
  destruct (Z.eqb_spec (id t) (id x)) as [E|Hne].
  - split; [lia|]. intros _. left. now apply tile_eq.
  - rewrite IH. split; [|intros; right; lia].
    intros [E|H']; [subst; contradiction|lia].
Qed.

Lemma In_existsb_id (l : list Tile) (t : Tile) :
  In t l -> existsb (fun x => id x =? id t) l = true.
Proof.
  intros H. apply existsb_exists. exists t. split; [exact H|apply Z.eqb_refl].
Qed.

Lemma find_existsb {A} (p : A -> bool) (l : list A) :
  existsb p l = true -> exists x, find p l = Some x /\ In x l /\ p x = true.
Proof.
  intros H. destruct (find p l) as [x|] eqn:E.
  - apply find_some in E as [Hin Hp]. eauto.
  - apply existsb_exists in H as (x & Hin & Hp).
    pose proof (find_none _ _ E x Hin). congruence.
Qed.

Lemma chi_match_rank (last t : Tile) (n : Z) :
  chi_match last n t = true -> spec_rank (id t) = n.
Proof.
  unfold chi_match. destruct (spec_suit (id t)); [|discriminate].
  destruct (spec_suit (id last)); [|discriminate].
  intros H. apply andb_true_iff in H as [_ H]. now apply Z.eqb_eq.
Qed.

(** One pass of the chi loop takes exactly one tile when the rank is
    present, and leaves the tiles of every other rank in the hand. *)
Lemma take_number_present (n : Z) (last : Tile) (hand meld : list Tile) :
  is_suited (spec_suit (id last)) = true ->
  rank_present hand last n = true ->
  exists hand' t,
    take_number n last hand hand meld = Ok (hand', (meld ++ [t])%list)
    /\ len hand' = len hand - 1
    /\ (forall x, count_id hand' x <= count_id hand x)
    /\ (forall m, m <> n -> rank_present hand last m = true ->
                  rank_present hand' last m = true).
Proof.
  intros Hs Hp. rewrite take_number_find by exact Hs.
  rewrite rank_present_chi_match in Hp.
  destruct (find_existsb _ _ Hp) as (t & -> & Hin & Ht).
  destruct (list_remove_In t hand (In_existsb_id _ _ Hin))
    as (hand' & -> & Hl & Hc).
  exists hand', t. split; [reflexivity|]. split; [exact Hl|]. split.
  - intros x. rewrite Hc. destruct (id t =? id x); lia.
  - intros m Hm Hpm. rewrite rank_present_chi_match in *.
    apply existsb_exists in Hpm as (u & Hu & Hum).
    apply existsb_exists. exists u. split; [|exact Hum].
    apply In_count_id. rewrite Hc.
    destruct (Z.eqb_spec (id t) (id u)) as [E|_].
    + exfalso. apply chi_match_rank in Ht, Hum. rewrite E in Ht. congruence.
    + apply In_count_id in Hu. lia.
Qed.

Lemma take_numbers_pair (a b : Z) (last : Tile) (hand : list Tile) :
  is_suited (spec_suit (id last)) = true ->
  a <> b ->
  rank_present hand last a = true ->
  rank_present hand last b = true ->
  exists hand' taken,
    take_numbers [a; b] last hand [] = Ok (hand', taken)
    /\ len hand' = len hand - 2
    /\ len taken = 2
    /\ forall x, count_id hand' x <= count_id hand x.
Proof.
  intros Hs Hab Ha Hb. cbn [take_numbers].
  destruct (take_number_present a last hand [] Hs Ha)
    as (h1 & ta & -> & Hl1 & Hc1 & Hk1).
  cbn [rbind fst snd].
  destruct (take_number_present b last h1 ([] ++ [ta])%list Hs)
    as (h2 & tb & -> & Hl2 & Hc2 & _).
  { apply Hk1; [congruence|exact Hb]. }
  cbn [rbind fst snd]. exists h2, [ta; tb]. split; [reflexivity|].
  split; [lia|]. split; [reflexivity|].
  intros x. specialize (Hc1 x). specialize (Hc2 x). lia.
Qed.



Lemma select_meld_tiles_supported (meld_type : string) (hand : list Tile)
      (last : Tile) :
  claim_supported meld_type hand last = true ->
  exists hand' taken,
    select_meld_tiles meld_type hand last = Ok (Some (true, hand', taken))
    /\ len hand' = len hand - claim_size meld_type
    /\ len taken = claim_size meld_type
    /\ forall x, count_id hand' x <= count_id hand x.
Proof.
  unfold claim_supported, select_meld_tiles, claim_size.
  destruct (String.eqb_spec meld_type "pong") as [->|Hp].
  { intros H. rewrite H. unfold Mahjong.can_claim_pong, can_claim_pong in H.
    apply Z.leb_le in H.
    destruct (take_matching_claim 2 last hand) as (h & tk & -> & Hl & Ht & Hc);
      [lia|].
    exists h, tk. simpl. repeat split; try assumption.
    intros x. rewrite Hc. destruct (id last =? id x); lia. }
  destruct (String.eqb_spec meld_type "chi") as [->|Hchi].
  { rewrite can_claim_chi_main_spec. unfold chi_spec.
    destruct (is_suited (spec_suit (id last))) eqn:Hs; [|discriminate].
    assert (Hr : 0 <= id last <= 26).
    { destruct (get_suit_cases (id last))
        as [H|[H|[H|[H|[H|[H|H]]]]]]; destruct H as (Ht & _ & St);
        rewrite St in Hs; try discriminate Hs; lia. }
    rewrite main_tile_number by exact Hr.
    cbv zeta. set (R := spec_rank (id last)).
    destruct (rank_present hand last (R - 2) && rank_present hand last (R - 1))
      eqn:E1.
    { intros _. apply andb_true_iff in E1 as [Ha Hb].
      destruct (take_numbers_pair (R - 2) (R - 1) last hand Hs) as
        (h & tk & Hrun & Hl & Ht & Hx); [lia|exact Ha|exact Hb|].
      cbn [filter].
      destruct (Z.eqb_spec (R - 2) R); [lia|].
      destruct (Z.eqb_spec (R - 1) R); [lia|].
      rewrite Z.eqb_refl. cbn [negb]. rewrite Hrun. simpl.
      exists h, tk. repeat split; assumption. }
    destruct (rank_present hand last (R - 1) && rank_present hand last (R + 1))
      eqn:E2.
    { intros _. apply andb_true_iff in E2 as [Ha Hb].
      destruct (take_numbers_pair (R - 1) (R + 1) last hand Hs) as
        (h & tk & Hrun & Hl & Ht & Hx); [lia|exact Ha|exact Hb|].
      cbn [filter].
      destruct (Z.eqb_spec (R - 1) R); [lia|].
      destruct (Z.eqb_spec (R + 1) R); [lia|].
      rewrite Z.eqb_refl. cbn [negb]. rewrite Hrun. simpl.
      exists h, tk. repeat split; assumption. }
    destruct (rank_present hand last (R + 1) && rank_present hand last (R + 2))
      eqn:E3; [|discriminate].
    intros _. apply andb_true_iff in E3 as [Ha Hb].
    destruct (take_numbers_pair (R + 1) (R + 2) last hand Hs) as
      (h & tk & Hrun & Hl & Ht & Hx); [lia|exact Ha|exact Hb|].
    cbn [filter].
    destruct (Z.eqb_spec (R + 1) R); [lia|].
    destruct (Z.eqb_spec (R + 2) R); [lia|].
    rewrite Z.eqb_refl. cbn [negb]. rewrite Hrun. simpl.
    exists h, tk. repeat split; assumption. }
  destruct (String.eqb_spec meld_type "kong") as [->|Hk]; [|discriminate].
  intros H. rewrite H. unfold Mahjong.can_claim_kong, can_claim_kong in H.
  apply Z.leb_le in H.
  destruct (take_matching_claim 3 last hand) as (h & tk & -> & Hl & Ht & Hc);
    [lia|].
  exists h, tk. simpl. repeat split; try assumption.
  intros x. rewrite Hc. destruct (id last =? id x); lia.
Qed.


Lemma keeps_bind {A B} (m : M A) (k : A -> M B) :
  keeps_game m -> (forall a, keeps_game (k a)) -> keeps_game (bind m k).
Proof.
  intros Hm Hk rd. unfold bind. specialize (Hm rd).
  destruct (m rd) as [[[a|e] rd'] ev]; simpl in Hm.
  - specialize (Hk a rd'). destruct (k a rd') as [[r rd''] ev'].
    simpl in *. congruence.
  - exact Hm.
Qed.

Lemma keeps_for_each {A} (l : list A) (body : A -> M unit) :
  (forall x, keeps_game (body x)) -> keeps_game (for_each l body).
Proof.
  intros H. induction l as [|x l IH]; [intros rd; reflexivity|].
  simpl. apply keeps_bind; auto.
Qed.

Lemma keeps_add_score (u : string) (d : Z) : keeps_game (add_score u d).
Proof.
  intros rd. unfold add_score, bind, get, lift, put.
  destruct (dict_index u (scores rd)); reflexivity.
Qed.

Lemma keeps_settle_scores (t : option string) (w : Z) :
  keeps_game (settle_scores t w).
Proof.
  intros rd. unfold settle_scores.
  rewrite (bind_ok get _ rd rd rd) by reflexivity.
  rewrite (bind_ok _ _ _ _ _ (settle_init_run rd)).
  match goal with
  | |- game_state (snd (fst (?m ?st))) = _ =>
      assert (K : keeps_game m); [|exact (K st)]
  end.
  repeat (apply keeps_bind; [intros rd'; reflexivity|]; intros ?).
  apply keeps_bind.
  - apply keeps_for_each. intros up.
    destruct (String.eqb (fst up) _); [|intros rd'; reflexivity].
    apply keeps_for_each. intros lp. unfold pay_winner.
    destruct (negb _); [|intros rd'; reflexivity].
    destruct (String.eqb _ _); apply keeps_bind; intros;
      apply keeps_add_score.
  - intros _. apply keeps_bind; intros; intros rd'; reflexivity.
Qed.

Lemma keeps_after_claim (rd0 : Room) (username : string) (m : Meld)
      (pm : dict (list Meld)) (hand' : list Tile) :
  keeps_game
    (emit (meld_claimed m) ;;;
     update_hand_counts ;;;
     emit (meld_update pm) ;;;
     (match dict_get username (sids rd0) with
      | Some (Some sid) =>
          if String.eqb sid "" then ret tt else emit (update_hand sid hand')
      | _ => ret tt
      end) ;;;
     rd1 <- get ;;
     ws <- lift (check_win_and_score rd1 username) ;;
     if fst ws then
       new_scores <- settle_scores (Some username) (snd ws) ;;
       emit (game_over (Some username)
                       (ScoresAndWinner (fst new_scores) (snd new_scores))
                       "win")
     else ret tt).
Proof.
  apply keeps_bind; [intros rd; reflexivity|]. intros _.
  apply keeps_bind.
  { unfold update_hand_counts. apply keeps_bind; intros; intros rd; reflexivity. }
  intros _.
  apply keeps_bind; [intros rd; reflexivity|]. intros _.
  apply keeps_bind.
  { destruct (dict_get username (sids rd0)) as [[sid|]|];
      try (intros rd; reflexivity).
    destruct (String.eqb sid ""); intros rd; reflexivity. }
  intros _.
  apply keeps_bind; [intros rd; reflexivity|]. intros rd1.
  apply keeps_bind; [intros rd; reflexivity|]. intros ws.
  destruct (fst ws); [|intros rd; reflexivity].
  apply keeps_bind; [apply keeps_settle_scores|].
  intros ns rd. reflexivity.
Qed.

(** C2 (amended).  A claim the hand supports takes exactly 2 tiles from the
    claimer's hand for pong and chi and 3 for kong, adds no tile to that
    hand, drops the last entry of the discard pile, records the meld with
    the discard first and gives the turn to the claimer; the last-discard
    slot still holds the claimed tile afterwards. *)
Theorem on_claim_meld_takes_tiles_keeps_slot
        (rd : Room) (username meld_type position : string)
        (last : Tile) (hand : list Tile) :
  dict_get username (positions rd) = Some position ->
  position <> "" ->
  last_discard (game_state rd) = Some last ->
  dict_get position (players_hands (game_state rd)) = Some hand ->
  claim_supported meld_type hand last = true ->
  let gs' := game_state (snd (fst (on_claim_meld username meld_type rd))) in
  exists hand' taken,
    dict_get position (players_hands gs') = Some hand'
    /\ len hand' = len hand - claim_size meld_type
    /\ (forall x, count_id hand' x <= count_id hand x)
    /\ discard_pile gs' = removelast (discard_pile (game_state rd))
    /\ get_list (Some position) (players_melds gs')
       = (get_list (Some position) (players_melds (game_state rd))
          ++ [mkMeld meld_type (last :: taken) username])%list
    /\ len taken = claim_size meld_type
    /\ current_turn gs' = position
    /\ last_discard gs' = Some last.
Proof.
  intros Hpos Hne Hld Hhand Hsup gs'.
  destruct (select_meld_tiles_supported meld_type hand last Hsup)
    as (hand' & taken & Hsel & Hl & Ht & Hc).
  exists hand', taken.
  assert (Hgs : gs' =
    set_current_turn
      (set_melds
         (set_discard_pile
            (set_hands (game_state rd)
               (dict_set position hand' (players_hands (game_state rd))))
            (pop_last (discard_pile (game_state rd))))
         (dict_set position
            (get_list (Some position) (players_melds (game_state rd))
             ++ [mkMeld meld_type (last :: taken) username])%list
            (players_melds (game_state rd))))
      position).
  { unfold gs', on_claim_meld.
    rewrite (bind_ok get _ rd rd rd) by reflexivity.
    rewrite Hpos.
    destruct position as [|c position']; [contradiction|].
    rewrite Hld.
    assert (Hg : get_list (Some (String c position'))
                          (players_hands (game_state rd)) = hand).
    { unfold get_list. now rewrite Hhand. }
    rewrite Hg.
    rewrite (bind_ok (lift _) _ rd rd (Some (true, hand', taken)))
      by (unfold lift; now rewrite Hsel).
    cbv zeta.
    erewrite (bind_ok (put _)) by reflexivity.
    rewrite keeps_after_claim. reflexivity. }
  rewrite Hgs. cbn [players_hands discard_pile players_melds current_turn
                    last_discard set_current_turn set_melds set_discard_pile
                    set_hands get_list].
  rewrite !dict_get_set_same.
  repeat split; try assumption; reflexivity.
Qed.

Lemma on_claim_meld_takes_tiles_keeps_slot_witness :
  claim_supported "pong" Scenario.east_hand (mkTile 5) = true
  /\ exists hand',
       dict_get "east"
         (players_hands
            (game_state (snd (fst (on_claim_meld "AI_Player_1" "pong"
                                                 Scenario.pong_window)))))
       = Some hand'
       /\ len hand' = 11.
Proof.
  split; [reflexivity|].
  destruct (on_claim_meld_takes_tiles_keeps_slot
              Scenario.pong_window "AI_Player_1" "pong" "east" (mkTile 5)
              Scenario.east_hand eq_refl ltac:(discriminate) eq_refl eq_refl
              eq_refl)
    as (hand' & taken & Hh & Hl & _).
  exists hand'. split; [exact Hh|exact Hl].
Defined.

(** C2 as stated fails: after east's pong on the discarded 5 the claim
    has succeeded, the tile has left the discard pile, and the
    last-discard slot still holds it. *)
Lemma claim_leaves_last_discard_set :
  let out := on_claim_meld "AI_Player_1" "pong" Scenario.pong_window in
  last_discard (game_state Scenario.pong_window) = Some (mkTile 5)
  /\ claim_supported "pong" Scenario.east_hand (mkTile 5) = true
  /\ fst (fst out) = Ok tt
  /\ discard_pile (game_state (snd (fst out))) = [mkTile 30]
  /\ last_discard (game_state (snd (fst out))) = Some (mkTile 5)
  /\ last_discard (game_state (snd (fst out))) <> None.
Proof. vm_compute. repeat split; try reflexivity. discriminate. Qed.

(** ** Backpropagation *)

Lemma list_set_length {A} (l : list A) (n : nat) (x : A) :
  List.length (list_set l n x) = List.length l.
Proof.
  revert n. induction l as [|y l IH]; intros [|n]; simpl; auto.
Qed.

Lemma list_set_same {A} (l : list A) (n : nat) (x : A) :
  (n < List.length l)%nat -> nth_error (list_set l n x) n = Some x.
Proof.
  revert n. induction l as [|y l IH]; intros [|n]; simpl; intros H;
    try lia; auto. apply IH. lia.
Qed.

Lemma list_set_other {A} (l : list A) (n m : nat) (x : A) :
  m <> n -> nth_error (list_set l n x) m = nth_error l m.
Proof.
  revert n m. induction l as [|y l IH]; intros [|n] [|m] H; simpl; auto;
    try contradiction; try (apply IH; congruence).
Qed.

Section Walk.
Variable fl : FloatOps.
Variables State Action : Type.

Local Abbreviation Node := (Mcts.MCTSNode fl State Action).
Local Abbreviation parent := (Mcts.parent fl State Action).
Local Abbreviation visits := (Mcts.visits fl State Action).
Local Abbreviation value := (Mcts.value fl State Action).

Lemma _backpropagate_climb (fuel : nat) :
  forall (tree : list Node) node r,
    Mcts._backpropagate fl State Action fuel tree node r
    = climb (fun x => x) fuel tree node r.
Proof.
  induction fuel as [|fuel IH]; intros tree [n|] r; simpl; auto.
  destruct (nth_error tree n); auto.
Qed.

Lemma backpropagation_climb (fuel : nat) :
  forall (tree : list Node) node r,
    MctsMaster.backpropagation fl fuel tree node r
    = climb (f_neg fl) fuel tree node r.
Proof.
  induction fuel as [|fuel IH]; intros tree [n|] r; simpl; auto.
  destruct (nth_error tree n); auto.
Qed.

Lemma combine_seq_In (tree : list Node) : forall lo n nd,
  nth_error tree n = Some nd ->
  In ((lo + n)%nat, nd) (combine (seq lo (List.length tree)) tree).
Proof.
  induction tree as [|x tree IH]; intros lo [|n] nd H; simpl in *;
    try discriminate.
  - injection H as <-. left. f_equal. lia.
  - right. replace (lo + S n)%nat with (S lo + n)%nat by lia. now apply IH.
Qed.

Lemma parents_first_pf (tree : list Node) :
  parents_first tree = true -> pf tree.
Proof.
  unfold parents_first. rewrite forallb_forall. intros H n nd p Hn Hp.
  specialize (H _ (combine_seq_In tree 0 n nd Hn)). simpl in H.
  rewrite Hp in H. now apply Nat.ltb_lt in H.
Qed.

Lemma pf_bump (tree : list Node) (n : nat) (nd : Node) (r : F fl) :
  pf tree -> nth_error tree n = Some nd -> pf (list_set tree n (bump nd r)).
Proof.
  intros H Hn m ndm p Hm Hp.
  destruct (Nat.eq_dec m n) as [->|Hne].
  - rewrite list_set_same in Hm
      by (apply nth_error_Some; rewrite Hn; discriminate).
    injection Hm as <-. simpl in Hp. eapply H; eauto.
  - rewrite list_set_other in Hm by exact Hne. eapply H; eauto.
Qed.

Lemma ancestor_bump (tree : list Node) (n : nat) (nd : Node) (r : F fl) :
  nth_error tree n = Some nd ->
  forall d k, ancestor (list_set tree n (bump nd r)) d k = ancestor tree d k.
Proof.
  intros Hn. induction d as [|d IH]; intros k; simpl; [reflexivity|].
  destruct (Nat.eq_dec k n) as [->|Hne].
  - rewrite list_set_same
      by (apply nth_error_Some; rewrite Hn; discriminate).
    rewrite Hn. simpl. destruct (parent nd); auto.
  - rewrite list_set_other by exact Hne.
    destruct (nth_error tree k) as [ndk|]; auto.
    destruct (parent ndk); auto.
Qed.

Lemma ancestor_le (tree : list Node) :
  pf tree -> forall d n m, ancestor tree d n = Some m -> (m <= n)%nat.
Proof.
  intros H. induction d as [|d IH]; intros n m; simpl.
  - intros E. injection E as <-. lia.
  - destruct (nth_error tree n) as [nd|] eqn:Hn; [|discriminate].
    destruct (parent nd) as [p|] eqn:Hp; [|discriminate].
    intros E. apply IH in E. specialize (H n nd p Hn Hp). lia.
Qed.

Lemma climb_none (next : F fl -> F fl) (fuel : nat) (tree : list Node)
      (r : F fl) :
  climb next fuel tree None r = tree.
Proof. destruct fuel; reflexivity. Qed.

Lemma climb_spec (next : F fl -> F fl) (fuel : nat) :
  forall (tree : list Node) start r,
    pf tree -> (start < fuel)%nat -> (start < List.length tree)%nat ->
    let tree' := climb next fuel tree (Some start) r in
    (forall d m nd,
        ancestor tree d start = Some m -> nth_error tree m = Some nd ->
        nth_error tree' m = Some (bump nd (Nat.iter d next r)))
    /\ (forall m, (forall d, ancestor tree d start <> Some m) ->
                  nth_error tree' m = nth_error tree m).
Proof.
  induction fuel as [|fuel IH]; intros tree start r Hpf Hfuel Hlen; [lia|].
  cbn [climb].
  destruct (nth_error tree start) as [nd|] eqn:Hs.
  2:{ apply nth_error_None in Hs. lia. }
  set (tree1 := list_set tree start (bump nd r)).
  assert (Hpf1 : pf tree1) by (now apply pf_bump).
  assert (Hs1 : nth_error tree1 start = Some (bump nd r))
    by (now apply list_set_same).
  destruct (parent nd) as [p|] eqn:Hp.
  - assert (Hlt : (p < start)%nat) by (eapply Hpf; eauto).
    destruct (IH tree1 p (next r) Hpf1) as [IHa IHb]; [lia| |].
    { unfold tree1. rewrite list_set_length. lia. }
    cbv zeta. split.
    + intros [|d] m ndm Ha Hm.
      * simpl in Ha. injection Ha as <-. rewrite Hs in Hm.
        injection Hm as <-. rewrite IHb; [exact Hs1|].
        intros d Hd. unfold tree1 in Hd. rewrite ancestor_bump in Hd by exact Hs.
        apply (ancestor_le tree Hpf) in Hd. lia.
      * simpl in Ha. rewrite Hs, Hp in Ha.
        assert (Hle : (m <= p)%nat) by (apply (ancestor_le tree Hpf d p m Ha)).
        rewrite Nat.iter_succ_r. apply IHa.
        -- unfold tree1. now rewrite ancestor_bump.
        -- unfold tree1. rewrite list_set_other by lia. exact Hm.
    + intros m Hnot.
      assert (Hne : m <> start).
      { intros ->. now apply (Hnot 0%nat). }
      rewrite IHb.
      * unfold tree1. now apply list_set_other.
      * intros d Hd. apply (Hnot (S d)). simpl. rewrite Hs, Hp.
        unfold tree1 in Hd. now rewrite ancestor_bump in Hd.
  - rewrite climb_none. cbv zeta. split.
    + intros [|d] m ndm Ha Hm.
      * simpl in Ha. injection Ha as <-. rewrite Hs in Hm.
        injection Hm as <-. exact Hs1.
      * simpl in Ha. rewrite Hs, Hp in Ha. discriminate.
    + intros m Hnot.
      assert (Hne : m <> start).
      { intros ->. now apply (Hnot 0%nat). }
      unfold tree1. now apply list_set_other.
Qed.

Lemma rooted_parent (tree : list Node) (n : nat) (nd : Node) :
  rooted tree = true -> nth_error tree n = Some nd -> n <> 0%nat ->
  exists p, parent nd = Some p.
Proof.
  unfold rooted. destruct tree as [|r rest]; [discriminate|].
  destruct (parent r); [discriminate|].
  rewrite forallb_forall. intros H Hn Hne.
  destruct n as [|n]; [contradiction|]. simpl in Hn.
  apply nth_error_In in Hn. specialize (H nd Hn).
  destruct (parent nd) as [p|]; [eauto|discriminate].
Qed.

Lemma walk_reaches_root (tree : list Node) :
  pf tree -> rooted tree = true ->
  forall n, (n < List.length tree)%nat ->
            exists d, ancestor tree d n = Some 0%nat.
Proof.
  intros Hpf Hr n. induction n as [n IH] using lt_wf_ind. intros Hn.
  destruct n as [|n]; [exists 0%nat; reflexivity|].
  destruct (nth_error tree (S n)) as [nd|] eqn:E.
  2:{ apply nth_error_None in E. lia. }
  destruct (rooted_parent tree (S n) nd Hr E) as [p Hp]; [lia|].
  assert (Hlt : (p < S n)%nat) by (eapply Hpf; eauto).
  destruct (IH p Hlt) as [d Hd]; [lia|].
  exists (S d). cbn [ancestor]. now rewrite E, Hp.
Qed.

Lemma iter_id (d : nat) (r : F fl) : Nat.iter d (fun x => x) r = r.
Proof. induction d; simpl; auto. Qed.

End Walk.


(** C8 (amended).  In a search tree (children created after their parents,
    node 0 the only node without parent) the walk from any node reaches the
    root; both engines add one visit to every node of that walk and to no
    other.  The engine of src/game_logic/mcts.py adds the reward itself to
    the value of each of them; the engine of MahjongGame-master adds the
    reward negated once per level climbed. *)
Theorem backpropagation_walks_to_root
        (fl : FloatOps) (State Action : Type)
        (tree : list (Mcts.MCTSNode fl State Action))
        (start : nat) (reward : F fl) :
  parents_first tree = true ->
  rooted tree = true ->
  (start < List.length tree)%nat ->
  (exists d, ancestor tree d start = Some 0%nat)
  /\ (let tree' := Mcts._backpropagate fl State Action
                     (S (List.length tree)) tree (Some start) reward in
      (forall d m nd,
          ancestor tree d start = Some m ->
          nth_error tree m = Some nd ->
          nth_error tree' m = Some (bump nd reward))
      /\ (forall m, (forall d, ancestor tree d start <> Some m) ->
                    nth_error tree' m = nth_error tree m))
  /\ (let tree' := MctsMaster.backpropagation fl
                     (S (List.length tree)) tree (Some start) reward in
      (forall d m nd,
          ancestor tree d start = Some m ->
          nth_error tree m = Some nd ->
          nth_error tree' m
          = Some (bump nd (Nat.iter d (f_neg fl) reward)))
      /\ (forall m, (forall d, ancestor tree d start <> Some m) ->
                    nth_error tree' m = nth_error tree m)).
Proof.
  intros Hpf Hr Hlt. apply parents_first_pf in Hpf.
  split; [now apply walk_reaches_root|]. split.
  - rewrite _backpropagate_climb.
    destruct (climb_spec fl State Action (fun x => x) (S (List.length tree))
                         tree start reward Hpf) as [Ha Hb]; [lia|exact Hlt|].
    split; [|exact Hb].
    intros d m nd Hd Hm. rewrite (Ha d m nd Hd Hm). now rewrite iter_id.
  - rewrite backpropagation_climb.
    apply climb_spec; [exact Hpf|lia|exact Hlt].
Qed.

Lemma backpropagation_walks_to_root_witness :
  parents_first SearchScenario.two_nodes = true
  /\ option_map (Mcts.value IntFloats unit unit)
       (nth_error (MctsMaster.backpropagation IntFloats 3
                     SearchScenario.two_nodes (Some 1%nat) 1) 0)
     = Some (-1).
Proof.
  split; [reflexivity|].
  destruct (backpropagation_walks_to_root IntFloats unit unit
              SearchScenario.two_nodes 1%nat 1 eq_refl eq_refl ltac:(simpl; lia))
    as (_ & _ & Hmaster & _).
  cbv zeta in Hmaster.
  simpl List.length in Hmaster.
  rewrite (Hmaster 1%nat 0%nat _ eq_refl eq_refl). reflexivity.
Defined.

(** C8 as stated fails for the engine of src/game_logic/mcts.py: a reward
    1 found at the child reaches the root as +1, where negation at each
    level asks for -1. *)
Lemma generic_backpropagate_does_not_negate :
  let tree' := Mcts._backpropagate IntFloats unit unit 3
                 SearchScenario.two_nodes (Some 1%nat) 1 in
  option_map (Mcts.value IntFloats unit unit) (nth_error tree' 1) = Some 1
  /\ option_map (Mcts.value IntFloats unit unit) (nth_error tree' 0) = Some 1
  /\ option_map (Mcts.value IntFloats unit unit) (nth_error tree' 0)
     <> Some (f_add IntFloats 0 (f_neg IntFloats 1)).
Proof. vm_compute. repeat split; try reflexivity. discriminate. Qed.

(** ** Search failure *)

(** C7. With a budget of zero simulations [get_best_action] of
    src/game_logic/mcts.py, whatever the state and the callbacks, reaches
    [max] over the empty list of the root's children and raises
    [ValueError] to its caller; this engine has no fallback. *)
Theorem generic_engine_raises_on_zero_budget
        (fl : FloatOps) (State Action Env : Type)
        (time_time : Env -> F fl * Env)
        (random_next : Env -> nat * Env)
        (Action_eqb : Action -> Action -> bool)
        (get_legal_moves : State -> list Action)
        (apply_move : State -> Action -> State)
        (simulate : State -> Env -> F fl * Env)
        (max_time c : F fl) (s : State) (env : Env) :
  fst (Mcts.get_best_action fl State Action Action_eqb Env time_time
         random_next get_legal_moves apply_move simulate
         (Mcts.mkMCTSConfig fl 0 max_time c) s env)
  = Raise (ValueError "max() arg is an empty sequence").
Proof.
  unfold Mcts.get_best_action.
  destruct (time_time env) as [start env0]. reflexivity.
Qed.

(** ** Purity of move application *)

(** Whatever the hand and the pile, a discard applied by the second engine
    returns a new dict (address 4) and rewrites the hand and pile objects
    of the state it was given. *)
Lemma master_apply_action_discard (hand pile : list Tile) (tile : Tile) :
  MctsMaster._apply_action IntFloats unit (VRef 0) ("discard", tile)
    (SearchScenario.world_of hand pile)
  = (MctsMaster.Done (VRef 4),
     MctsMaster.mkWorld IntFloats unit
       [ODict SearchScenario.state_entries;
        OList (MctsMaster.pop_first tile hand);
        OList (pile ++ [tile])%list;
        ODict [];
        ODict SearchScenario.state_entries]
       [] tt).
Proof. reflexivity. Qed.

(** C9. [_apply_action] of src/MahjongGame-master/game_logic/mcts.py
    changes the state it is given: after discarding the tile of id 0 from
    the hand [0; 1], the input state (address 0) has hand [1] and discard
    pile [0]; after a pong on it, its melds dict has a "pong" entry.  The
    returned dict is new, the lists and the melds dict are the input's. *)
Theorem master_apply_action_mutates_input :
  let w0 := SearchScenario.world_of SearchScenario.bamboo_1_2 [] in
  let discard := MctsMaster._apply_action IntFloats unit (VRef 0)
                   ("discard", mkTile 0) w0 in
  let pong := MctsMaster._apply_action IntFloats unit (VRef 0)
                ("pong", mkTile 0) w0 in
  tiles_at (MctsMaster.heap IntFloats unit w0) (VRef 0) "current_hand"
  = Ok [mkTile 0; mkTile 1]
  /\ tiles_at (MctsMaster.heap IntFloats unit w0) (VRef 0) "discard_pile" = Ok []
  /\ rbind (getitem (MctsMaster.heap IntFloats unit w0) (VRef 0) "melds")
           (entries_of (MctsMaster.heap IntFloats unit w0)) = Ok []
  /\ fst discard = MctsMaster.Done (VRef 4)
  /\ tiles_at (MctsMaster.heap IntFloats unit (snd discard)) (VRef 0)
              "current_hand" = Ok [mkTile 1]
  /\ tiles_at (MctsMaster.heap IntFloats unit (snd discard)) (VRef 0)
              "discard_pile" = Ok [mkTile 0]
  /\ fst pong = MctsMaster.Done (VRef 4)
  /\ tiles_at (MctsMaster.heap IntFloats unit (snd pong)) (VRef 0)
              "current_hand" = Ok [mkTile 1]
  /\ rbind (getitem (MctsMaster.heap IntFloats unit (snd pong)) (VRef 0) "melds")
           (entries_of (MctsMaster.heap IntFloats unit (snd pong)))
     = Ok [("pong", VRef 5)].
Proof. vm_compute. repeat split; reflexivity. Qed.

(** ** The fallback of the second engine *)

Lemma min_from_In {A} (f : A -> Z) (l : list A) : forall best,
  In (min_from f best l) (best :: l).
Proof.
  induction l as [|x l IH]; intros best; simpl; [now left|].
  destruct (f x <? f best).
  - right. apply IH.
  - destruct (IH best) as [H|H]; [now left|right; now right].
Qed.

(** On a non-empty hand the heuristic returns a discard of a tile of the
    hand and changes nothing. *)
Lemma fallback_heuristic_discards (fl : FloatOps) (Rng : Type)
      (state : Val) (w : MctsMaster.World fl Rng) (hand : list Tile) :
  tiles_at (MctsMaster.heap fl Rng w) state "current_hand" = Ok hand ->
  hand <> [] ->
  exists t, MctsMaster._fallback_heuristic fl Rng state w
            = (MctsMaster.Done ("discard", t), w)
            /\ In t hand.
Proof.
  intros Hh Hne.
  unfold MctsMaster._fallback_heuristic, MctsMaster.try_except,
    MctsMaster.bind, MctsMaster.current_hand, MctsMaster.heap_read.
  rewrite Hh. destruct hand as [|first rest]; [contradiction|].
  cbn [map py_min].
  eexists. split; [reflexivity|].
  set (scores := map (fun t => (t, MctsMaster.fallback_score (first :: rest) t)) rest).
  pose proof (min_from_In snd scores
                (first, MctsMaster.fallback_score (first :: rest) first)) as Hin.
  set (m := min_from snd _ scores) in *.
  destruct Hin as [E|Hin].
  - rewrite <- E. now left.
  - right. unfold scores in Hin. apply in_map_iff in Hin as (t & E & Ht).
    rewrite <- E. exact Ht.
Qed.

(** With no iteration allowed, [get_best_action] of the second engine
    returns the heuristic's discard on every state with a non-empty hand,
    and leaves the state, the cache and the generator as they were. *)
Lemma master_zero_budget_falls_back (fl : FloatOps) (Rng : Type)
      (random_next : Rng -> nat * Rng)
      (self : MctsMaster.MCTS fl) (fuel : nat)
      (state : Val) (w : MctsMaster.World fl Rng) (hand : list Tile) :
  MctsMaster.max_iterations fl self <= 0 ->
  tiles_at (MctsMaster.heap fl Rng w) state "current_hand" = Ok hand ->
  hand <> [] ->
  exists t, MctsMaster.get_best_action fl Rng random_next self fuel state w
            = (MctsMaster.Done ("discard", t), w)
            /\ In t hand.
Proof.
  intros Hz Hh Hne.
  destruct (fallback_heuristic_discards fl Rng state w hand Hh Hne)
    as (t & Hfb & Hin).
  exists t. split; [|exact Hin].
  unfold MctsMaster.get_best_action.
  unfold MctsMaster.bind at 1. unfold MctsMaster.current_hand at 1.
  unfold MctsMaster.heap_read at 1. rewrite Hh.
  destruct hand as [|first rest]; [contradiction|].
  unfold MctsMaster.try_except at 1. unfold MctsMaster.bind at 1.
  replace (Z.to_nat (MctsMaster.max_iterations fl self)) with 0%nat by lia.
  destruct (MctsMaster._get_available_actions fl Rng state w)
    as [[untried| |] w1] eqn:Ea.
  - assert (Hw : w1 = w).
    { revert Ea. unfold MctsMaster._get_available_actions,
        MctsMaster.try_except, MctsMaster.bind, MctsMaster.current_hand,
        MctsMaster.heap_read. rewrite Hh.
      destruct (get_default (MctsMaster.heap fl Rng w) state "last_discard")
        as [[| | |]|]; cbn; intros E; inversion E; reflexivity. }
    subst w1. destruct untried as [|a untried].
    + rewrite Hfb. reflexivity.
    + cbn [MctsMaster.iterations]. unfold MctsMaster.bind at 1.
      unfold MctsMaster.ret at 1. unfold MctsMaster.bind at 1.
      cbn. rewrite Hfb. reflexivity.
  - exfalso. revert Ea. unfold MctsMaster._get_available_actions,
      MctsMaster.try_except, MctsMaster.bind, MctsMaster.current_hand,
      MctsMaster.heap_read. rewrite Hh.
    destruct (get_default (MctsMaster.heap fl Rng w) state "last_discard")
      as [[| | |]|]; cbn; discriminate.
  - exfalso. revert Ea. unfold MctsMaster._get_available_actions,
      MctsMaster.try_except, MctsMaster.bind, MctsMaster.current_hand,
      MctsMaster.heap_read. rewrite Hh.
    destruct (get_default (MctsMaster.heap fl Rng w) state "last_discard")
      as [[| | |]|]; cbn; discriminate.
Qed.

(** ** Move application on a deep copy *)




Lemma kept_refl (h : Heap) : kept (List.length h) h h.
Proof. split; auto. Qed.

Lemma kept_alloc (n : nat) (h0 h : Heap) (o : Obj) :
  kept n h0 h -> kept n h0 (h ++ [o])%list.
Proof.
  intros [Hl Hk]. split.
  - rewrite length_app. lia.
  - intros l Hlt. rewrite nth_error_app1 by lia. now apply Hk.
Qed.

Lemma kept_list_set (n : nat) (h0 h : Heap) (r : nat) (o : Obj) :
  kept n h0 h -> (n <= r)%nat -> kept n h0 (list_set h r o).
Proof.
  intros [Hl Hk] Hr. split.
  - now rewrite list_set_length.
  - intros l Hlt. rewrite list_set_other by lia. now apply Hk.
Qed.

Lemma kept_trans (n : nat) (h0 h h' : Heap) :
  kept n h0 h -> kept (List.length h) h h' -> kept n h0 h'.
Proof.
  intros [Hl Hk] [Hl' Hk']. split; [lia|].
  intros l Hlt. rewrite Hk' by lia. now apply Hk.
Qed.


Lemma copy_each_good (copy : Heap -> Val -> Res (Heap * Val)) :
  good_copy copy ->
  forall items h h' items',
    copy_each copy h items = Ok (h', items') -> kept (List.length h) h h'.
Proof.
  intros Hc. induction items as [|v items IH]; intros h h' items'; simpl.
  - intros E. injection E as <- <-. apply kept_refl.
  - destruct (copy h v) as [[h1 v1]|] eqn:E1; [|discriminate]. simpl.
    destruct (copy_each copy h1 items) as [[h2 l2]|] eqn:E2; [|discriminate].
    simpl. intros E. injection E as <- <-.
    destruct (Hc _ _ _ _ E1) as [K1 _].
    eapply kept_trans; [exact K1|]. eapply IH; eauto.
Qed.

Lemma copy_entries_good (copy : Heap -> Val -> Res (Heap * Val)) :
  good_copy copy ->
  forall e h h' e',
    copy_entries copy h e = Ok (h', e') ->
    kept (List.length h) h h'
    /\ forall k v, dict_get k e' = Some v -> fresh (List.length h) v.
Proof.
  intros Hc. induction e as [|[k0 v0] e IH]; intros h h' e'; simpl.
  - intros E. injection E as <- <-. split; [apply kept_refl|].
    intros k v. discriminate.
  - destruct (copy h v0) as [[h1 v1]|] eqn:E1; [|discriminate]. simpl.
    destruct (copy_entries copy h1 e) as [[h2 e2]|] eqn:E2; [|discriminate].
    simpl. intros E. injection E as <- <-.
    destruct (Hc _ _ _ _ E1) as (K1 & F1 & R1).
    destruct (IH _ _ _ E2) as [K2 F2].
    split; [eapply kept_trans; eauto|].
    intros k v. simpl. destruct (String.eqb k k0).
    + intros E. injection E as <-. destruct v1 as [| | |r]; simpl; auto.
      destruct (R1 r eq_refl) as [r0 ->]. exact (F1 r0 eq_refl).
    + intros E. apply F2 in E. destruct v as [| | |r]; simpl in *; auto.
      destruct K1 as [K1 _]. lia.
Qed.

Lemma deepcopy_good (fuel : nat) : good_copy (deepcopy fuel).
Proof.
  induction fuel as [|fuel IH]; intros h v h' v'.
  - destruct v; simpl; try discriminate;
      intros E; injection E as <- <-;
      (split; [apply kept_refl|split; intros; [discriminate|discriminate]]).
  - destruct v as [| | |l]; simpl;
      try (intros E; injection E as <- <-;
           split; [apply kept_refl|split; intros; discriminate]).
    destruct (nth_error h l) as [[items|items|e]|]; [| | |discriminate].
    + intros E. injection E as <- <-. split; [|split].
      * apply kept_alloc, kept_refl.
      * intros r _. simpl. lia.
      * intros r _. eauto.
    + destruct (copy_each (deepcopy fuel) h items) as [[h1 l1]|] eqn:E1;
        [|discriminate].
      simpl. intros E. injection E as <- <-.
      pose proof (copy_each_good _ IH _ _ _ _ E1) as K. split; [|split].
      * now apply kept_alloc.
      * intros r _. simpl. destruct K. lia.
      * intros r _. eauto.
    + destruct (copy_entries (deepcopy fuel) h e) as [[h1 e1]|] eqn:E1;
        [|discriminate].
      simpl. intros E. injection E as <- <-.
      destruct (copy_entries_good _ IH _ _ _ _ E1) as [K _]. split; [|split].
      * now apply kept_alloc.
      * intros r _. simpl. destruct K. lia.
      * intros r _. eauto.
Qed.

(** A successful deep copy that is a dict satisfies the invariant. *)
Lemma deepcopy_dict_inv (fuel : nat) (h h' : Heap) (v v' : Val) (e : dict Val) :
  deepcopy fuel h v = Ok (h', v') ->
  entries_of h' v' = Ok e ->
  exists ns, v' = VRef ns /\ copy_inv (List.length h) h ns h'.
Proof.
  intros Hd He.
  destruct (deepcopy_good fuel _ _ _ _ Hd) as (K & Fv & Rv).
  destruct v' as [| | |ns]; try discriminate He.
  exists ns. split; [reflexivity|].
  destruct (Rv ns eq_refl) as [l ->].
  specialize (Fv l eq_refl). simpl in Fv.
  split; [exact K|]. split; [exact Fv|].
  destruct fuel as [|fuel]; [discriminate Hd|]. simpl in Hd.
  destruct (nth_error h l) as [[items|items|e0]|]; [| | |discriminate].
  - injection Hd as <- <-.
    simpl in He. rewrite nth_error_app2 in He by lia.
    rewrite Nat.sub_diag in He. discriminate.
  - destruct (copy_each (deepcopy fuel) h items) as [[h1 l1]|]; [|discriminate].
    simpl in Hd. injection Hd as <- <-.
    simpl in He. rewrite nth_error_app2 in He by lia.
    rewrite Nat.sub_diag in He. discriminate.
  - destruct (copy_entries (deepcopy fuel) h e0) as [[h1 e1]|] eqn:E1;
      [|discriminate].
    simpl in Hd. injection Hd as <- <-.
    destruct (copy_entries_good _ (deepcopy_good fuel) _ _ _ _ E1) as [_ F].
    exists e1. split; [|exact F].
    rewrite nth_error_app2 by lia. now rewrite Nat.sub_diag.
Qed.


Lemma maintains_bind {A B} (I : Heap -> Prop) (m : MahjongMcts.H A)
      (k : A -> MahjongMcts.H B) (Q : A -> Prop) (R : B -> Prop) :
  maintains I m Q -> (forall a, Q a -> maintains I (k a) R) ->
  maintains I (MahjongMcts.bind m k) R.
Proof.
  intros Hm Hk h Hi. unfold MahjongMcts.bind.
  destruct (Hm h Hi) as [Hi' Hq].
  destruct (m h) as [[a|e] h']; simpl in *.
  - apply Hk; auto.
  - split; [exact Hi'|discriminate].
Qed.

Lemma maintains_ret {A} (I : Heap -> Prop) (a : A) (Q : A -> Prop) :
  Q a -> maintains I (MahjongMcts.ret a) Q.
Proof.
  intros Hq h Hi. split; [exact Hi|]. simpl. intros a' E. now injection E as <-.
Qed.

Lemma maintains_read {A} (I : Heap -> Prop) (f : Heap -> Res A)
      (Q : A -> Prop) :
  (forall h a, I h -> f h = Ok a -> Q a) -> maintains I (MahjongMcts.read f) Q.
Proof. intros H h Hi. split; [exact Hi|]. simpl. intros a E. eauto. Qed.

Lemma maintains_write (I : Heap -> Prop) (f : Heap -> Res Heap) :
  (forall h h', I h -> f h = Ok h' -> I h') ->
  maintains I (MahjongMcts.write f) (fun _ => True).
Proof.
  intros H h Hi. unfold MahjongMcts.write.
  destruct (f h) as [h'|e] eqn:E; simpl; split; eauto.
Qed.

Lemma maintains_new (I : Heap -> Prop) (f : Heap -> Res (Heap * Val))
      (Q : Val -> Prop) :
  (forall h h' v, I h -> f h = Ok (h', v) -> I h' /\ Q v) ->
  maintains I (MahjongMcts.new f) Q.
Proof.
  intros H h Hi. unfold MahjongMcts.new.
  destruct (f h) as [[h' v]|e] eqn:E; simpl.
  - destruct (H h h' v Hi E) as [Hi' Hq]. split; [exact Hi'|].
    intros a Ea. now injection Ea as <-.
  - split; [exact Hi|discriminate].
Qed.

Section CopyInvariant.
Variable n : nat.
Variable h0 : Heap.
Variable ns : nat.

Lemma inv_getitem (h : Heap) (k : string) (v : Val) :
  copy_inv n h0 ns h -> getitem h (VRef ns) k = Ok v -> fresh n v.
Proof.
  intros (_ & _ & e & He & Hf). unfold getitem, entries_of, dict_index.
  rewrite He. simpl. destruct (dict_get k e) as [x|] eqn:E; [|discriminate].
  intros E'. injection E' as <-. eauto.
Qed.

Lemma inv_set_items (h h' : Heap) (ref : Val) (items : list Tile) :
  copy_inv n h0 ns h -> fresh n ref -> set_items h ref items = Ok h' ->
  copy_inv n h0 ns h'.
Proof.
  intros (K & Hns & e & He & Hf) Hr. unfold set_items.
  destruct ref as [| | |r]; try discriminate.
  destruct (nth_error h r) as [[old|old|old]|] eqn:Er; try discriminate.
  intros E. injection E as <-. simpl in Hr.
  split; [now apply kept_list_set|]. split; [exact Hns|].
  exists e. split; [|exact Hf].
  rewrite list_set_other; [exact He|]. intros ->. congruence.
Qed.

Lemma inv_append_val (h h' : Heap) (ref x : Val) :
  copy_inv n h0 ns h -> fresh n ref -> append_val h ref x = Ok h' ->
  copy_inv n h0 ns h'.
Proof.
  intros (K & Hns & e & He & Hf) Hr. unfold append_val.
  destruct ref as [| | |r]; try discriminate.
  destruct (nth_error h r) as [[old|old|old]|] eqn:Er; try discriminate.
  intros E. injection E as <-. simpl in Hr.
  split; [now apply kept_list_set|]. split; [exact Hns|].
  exists e. split; [|exact Hf].
  rewrite list_set_other; [exact He|]. intros ->. congruence.
Qed.

Lemma inv_setitem (h h' : Heap) (k : string) (v : Val) :
  copy_inv n h0 ns h -> fresh n v -> setitem h (VRef ns) k v = Ok h' ->
  copy_inv n h0 ns h'.
Proof.
  intros (K & Hns & e & He & Hf) Hv. unfold setitem. rewrite He.
  intros E. injection E as <-.
  split; [now apply kept_list_set|]. split; [exact Hns|].
  exists (dict_set k v e). split.
  - apply list_set_same. apply nth_error_Some. rewrite He. discriminate.
  - intros k' x. destruct (String.eqb_spec k k') as [<-|Hne].
    + rewrite dict_get_set_same. intros E. now injection E as <-.
    + rewrite dict_get_set_other by exact Hne. apply Hf.
Qed.

Lemma inv_alloc (h : Heap) (o : Obj) :
  copy_inv n h0 ns h ->
  copy_inv n h0 ns (h ++ [o])%list /\ fresh n (VRef (List.length h)).
Proof.
  intros (K & Hns & e & He & Hf). split.
  - split; [now apply kept_alloc|]. split; [exact Hns|].
    exists e. split; [|exact Hf].
    rewrite nth_error_app1; [exact He|].
    apply nth_error_Some. rewrite He. discriminate.
  - simpl. destruct K. lia.
Qed.

(** What [_apply_move] does once the copy is made keeps the invariant. *)
Lemma after_copy_maintains (move : MahjongMcts.Move) :
  maintains (copy_inv n h0 ns)
    (MahjongMcts.bind
       (MahjongMcts.read (fun h => getitem h (VRef ns) "hand"))
       (fun hand_ref =>
          MahjongMcts.bind
            (if String.eqb (MahjongMcts.move_type move) "discard" then
               MahjongMcts.bind
                 (MahjongMcts.read (fun h => items_of h hand_ref))
                 (fun hand =>
                    match find (fun t => id t =? id (MahjongMcts.move_tile move))
                               hand with
                    | Some tile_to_remove =>
                        MahjongMcts.bind
                          (MahjongMcts.read
                             (fun _ => App.list_remove tile_to_remove hand))
                          (fun hand' =>
                             MahjongMcts.bind
                               (MahjongMcts.write
                                  (fun h => set_items h hand_ref hand'))
                               (fun _ =>
                                  MahjongMcts.write
                                    (fun h => setitem h (VRef ns) "last_discard"
                                                      (VTile tile_to_remove))))
                    | None => MahjongMcts.ret tt
                    end)
             else if str_in (MahjongMcts.move_type move) ["pong"; "chi"; "kong"]
             then
               MahjongMcts.bind
                 (MahjongMcts.read (fun h => items_of h hand_ref))
                 (fun hand =>
                    let meld_tiles := MahjongMcts._get_meld_tiles hand move in
                    MahjongMcts.bind
                      (MahjongMcts.read
                         (fun _ => MahjongMcts.remove_all meld_tiles hand))
                      (fun hand' =>
                         MahjongMcts.bind
                           (MahjongMcts.write
                              (fun h => set_items h hand_ref hand'))
                           (fun _ =>
                              MahjongMcts.bind
                                (MahjongMcts.read
                                   (fun h => contains h (VRef ns) "melds"))
                                (fun present =>
                                   MahjongMcts.bind
                                     (if present then MahjongMcts.ret tt
                                      else
                                        MahjongMcts.bind
                                          (MahjongMcts.new
                                             (fun h => Ok (alloc h (OVals []))))
                                          (fun fresh_list =>
                                             MahjongMcts.write
                                               (fun h => setitem h (VRef ns)
                                                                 "melds" fresh_list)))
                                     (fun _ =>
                                        MahjongMcts.bind
                                          (MahjongMcts.read
                                             (fun h => getitem h (VRef ns) "melds"))
                                          (fun melds =>
                                             MahjongMcts.bind
                                               (MahjongMcts.new
                                                  (fun h =>
                                                     Ok (alloc h
                                                           (OList
                                                              (meld_tiles
                                                               ++ [MahjongMcts.move_tile move])%list))))
                                               (fun meld_list =>
                                                  MahjongMcts.bind
                                                    (MahjongMcts.new
                                                       (fun h =>
                                                          Ok (alloc h
                                                                (ODict
                                                                   [("type", VStr (MahjongMcts.move_type move));
                                                                    ("tiles", meld_list)]))))
                                                    (fun meld =>
                                                       MahjongMcts.write
                                                         (fun h => append_val h melds meld)))))))))
             else MahjongMcts.ret tt)
            (fun _ =>
               MahjongMcts.bind
                 (MahjongMcts.write
                    (fun h => setitem h (VRef ns) "hand" hand_ref))
                 (fun _ => MahjongMcts.ret (VRef ns)))))
    (fun _ => True).
Proof.
  apply (maintains_bind _ _ _ (fresh n)).
  { apply maintains_read. intros h a Hi E. eapply inv_getitem; eauto. }
  intros hand_ref Hhand.
  apply (maintains_bind _ _ _ (fun _ => True)).
  2:{ intros _ _. apply (maintains_bind _ _ _ (fun _ => True)).
      - apply maintains_write. intros h h' Hi E. eapply inv_setitem; eauto.
      - intros _ _. now apply maintains_ret. }
  destruct (String.eqb (MahjongMcts.move_type move) "discard").
  { apply (maintains_bind _ _ _ (fun _ => True)).
    { apply maintains_read. auto. }
    intros hand _. destruct (find _ hand) as [t|]; [|now apply maintains_ret].
    apply (maintains_bind _ _ _ (fun _ => True)).
    { apply maintains_read. auto. }
    intros hand' _. apply (maintains_bind _ _ _ (fun _ => True)).
    { apply maintains_write. intros h h' Hi E. eapply inv_set_items; eauto. }
    intros _ _. apply maintains_write. intros h h' Hi E.
    exact (inv_setitem h h' "last_discard" (VTile t) Hi I E). }
  destruct (str_in (MahjongMcts.move_type move) ["pong"; "chi"; "kong"]);
    [|now apply maintains_ret].
  apply (maintains_bind _ _ _ (fun _ => True)).
  { apply maintains_read. auto. }
  intros hand _. cbv zeta.
  apply (maintains_bind _ _ _ (fun _ => True)).
  { apply maintains_read. auto. }
  intros hand' _. apply (maintains_bind _ _ _ (fun _ => True)).
  { apply maintains_write. intros h h' Hi E. eapply inv_set_items; eauto. }
  intros _ _. apply (maintains_bind _ _ _ (fun _ => True)).
  { apply maintains_read. auto. }
  intros present _. apply (maintains_bind _ _ _ (fun _ => True)).
  { destruct present; [now apply maintains_ret|].
    apply (maintains_bind _ _ _ (fresh n)).
    - apply maintains_new. intros h h' v Hi E. injection E as <- <-.
      now apply inv_alloc.
    - intros v Hv. apply maintains_write. intros h h' Hi E.
      eapply inv_setitem; eauto. }
  intros _ _. apply (maintains_bind _ _ _ (fresh n)).
  { apply maintains_read. intros h a Hi E. eapply inv_getitem; eauto. }
  intros melds Hmelds. apply (maintains_bind _ _ _ (fresh n)).
  { apply maintains_new. intros h h' v Hi E. injection E as <- <-.
    now apply inv_alloc. }
  intros meld_list _. apply (maintains_bind _ _ _ (fresh n)).
  { apply maintains_new. intros h h' v Hi E. injection E as <- <-.
    now apply inv_alloc. }
  intros meld _. apply maintains_write. intros h h' Hi E.
  eapply inv_append_val; eauto.
Qed.
End CopyInvariant.

(** [_apply_move] of src/game_logic/mahjong_mcts.py leaves every object
    that existed before the call as it was: the input state, its hand, its
    melds and all they refer to are unchanged, whether the call returns or
    raises. *)
Lemma main_apply_move_keeps_input
      (fuel : nat) (state : Val) (move : MahjongMcts.Move) (h : Heap) :
  forall l, (l < List.length h)%nat ->
            nth_error (snd (MahjongMcts._apply_move fuel state move h)) l
            = nth_error h l.
Proof.
  assert (K : kept (List.length h) h
                   (snd (MahjongMcts._apply_move fuel state move h))).
  { unfold MahjongMcts._apply_move.
    unfold MahjongMcts.bind at 1. unfold MahjongMcts.new at 1.
    destruct (deepcopy fuel h state) as [[h1 v1]|e] eqn:Ed;
      [|apply kept_refl].
    destruct (entries_of h1 v1) as [e1|e1] eqn:Ee.
    - destruct (deepcopy_dict_inv fuel h h1 state v1 e1 Ed Ee)
        as (ns & -> & Hinv).
      exact (proj1 (proj1 (after_copy_maintains (List.length h) h ns move
                                                h1 Hinv))).
    - destruct (deepcopy_good fuel _ _ _ _ Ed) as [K1 _].
      unfold MahjongMcts.bind at 1. unfold MahjongMcts.read at 1.
      unfold getitem. rewrite Ee. exact K1. }
  exact (proj2 K).
Qed.

(** The discard that changes the second engine's input leaves this one's
    alone and gives the copy the shortened hand. *)
Example main_apply_move_discard :
  let h0 := [ODict [("hand", VRef 1); ("last_discard", VNone);
                    ("remaining_deck", VRef 2); ("position", VStr "east");
                    ("melds", VRef 3)];
             OList [mkTile 0; mkTile 1]; OList [mkTile 5]; OVals []] in
  let out := MahjongMcts._apply_move 4 (VRef 0)
               (MahjongMcts.mkMove "discard" (mkTile 0)) h0 in
  fst out = Ok (VRef 7)
  /\ tiles_at (snd out) (VRef 0) "hand" = Ok [mkTile 0; mkTile 1]
  /\ tiles_at (snd out) (VRef 7) "hand" = Ok [mkTile 1]
  /\ getitem (snd out) (VRef 7) "last_discard" = Ok (VTile (mkTile 0)).
Proof. vm_compute. repeat split; reflexivity. Qed.

(** ** A root without legal moves *)

Section NoMoves.
Variable fl : FloatOps.
Variables State Action Env : Type.
Variable Action_eqb : Action -> Action -> bool.
Variable time_time : Env -> F fl * Env.
Variable random_next : Env -> nat * Env.
Variable get_legal_moves : State -> list Action.
Variable apply_move : State -> Action -> State.
Variable simulate : State -> Env -> F fl * Env.

Lemma iteration_lone_root (cfg : Mcts.MCTSConfig fl) tree env :
  lone_root tree ->
  exists tree' env',
    Mcts.iteration fl State Action Action_eqb Env random_next
                   get_legal_moves apply_move simulate cfg tree env
    = (Ok tree', env')
    /\ lone_root tree'.
Proof.
  intros (nd & -> & Hu & Hc & Hp). unfold Mcts.iteration.
  simpl. rewrite Hu, Hc. simpl. rewrite Hu.
  cbn [Mcts._backpropagate nth_error list_set List.length].
  rewrite Hp.
  destruct (simulate (Mcts.state fl State Action nd) env) as [reward env2].
  eexists _, env2. split; [reflexivity|].
  eexists. split; [reflexivity|]. simpl. auto.
Qed.

Lemma search_loop_lone_root (cfg : Mcts.MCTSConfig fl) (start : F fl)
      (fuel : nat) :
  forall sims tree env,
    lone_root tree ->
    exists tree' n env',
      Mcts.search_loop fl State Action Action_eqb Env time_time random_next
                       get_legal_moves apply_move simulate
                       fuel cfg start sims tree env
      = (Ok (tree', n), env')
      /\ lone_root tree'.
Proof.
  induction fuel as [|fuel IH]; intros sims tree env Hl; simpl.
  - eauto.
  - destruct (sims <? Mcts.num_simulations fl cfg); [|eauto].
    destruct (time_time env) as [now env1].
    destruct (f_ltb fl (f_sub fl now start) (Mcts.max_time_per_move fl cfg));
      [|eauto].
    destruct (iteration_lone_root cfg tree env1 Hl) as (t' & e' & -> & Hl').
    apply IH. exact Hl'.
Qed.

(** Whatever the budget, a state without legal moves makes
    [get_best_action] of src/game_logic/mcts.py raise. *)
Lemma generic_engine_raises_without_moves
      (cfg : Mcts.MCTSConfig fl) (s : State) (env : Env) :
  get_legal_moves s = [] ->
  fst (Mcts.get_best_action fl State Action Action_eqb Env time_time
         random_next get_legal_moves apply_move simulate cfg s env)
  = Raise (ValueError "max() arg is an empty sequence").
Proof.
  intros Hm. unfold Mcts.get_best_action. rewrite Hm.
  destruct (time_time env) as [start env0].
  destruct (search_loop_lone_root cfg start
              (Z.to_nat (Mcts.num_simulations fl cfg)) 0
              [Mcts.with_untried fl State Action
                 (Mcts.new_node fl State Action s None None) []] env0)
    as (tree' & n & env' & -> & (nd & -> & Hu & Hc & Hp)).
  { eexists. split; [reflexivity|]. simpl. auto. }
  simpl. rewrite Hc. reflexivity.
Qed.
End NoMoves.


Lemma run_bind {A B} (m : M A) (k : A -> M B) (rd rd1 : Room) (a : A)
      (ev1 : list Event) :
  m rd = (Ok a, rd1, ev1) ->
  bind m k rd = (fst (fst (k a rd1)), snd (fst (k a rd1)),
                 (ev1 ++ snd (k a rd1))%list).
Proof.
  intros H. unfold bind. rewrite H.
  destruct (k a rd1) as [[r rd2] ev2]. reflexivity.
Qed.

Lemma on_draw_tile_run (rd : Room) (user pos : string) (tile : Tile)
      (deck' hand : list Tile) :
  dict_get user (positions rd) = Some pos ->
  current_turn (game_state rd) = pos ->
  remaining_deck (game_state rd) = tile :: deck' ->
  dict_get pos (players_hands (game_state rd)) = Some hand ->
  exists ev,
    on_draw_tile user rd
    = (Ok tt,
       set_game_state rd
         (set_hands (set_deck (game_state rd) deck')
                    (dict_set pos (hand ++ [tile])%list
                              (players_hands (game_state rd)))),
       ev).
Proof.
  intros Hpos Hturn Hdeck Hhand.
  unfold on_draw_tile.
  rewrite (bind_ok get _ rd rd rd) by reflexivity.
  rewrite (bind_ok (lift _) _ rd rd pos)
    by (unfold lift, dict_index; now rewrite Hpos).
  rewrite Hturn, String.eqb_refl. cbn [negb]. rewrite Hdeck. cbv zeta.
  erewrite (bind_ok (put _)) by reflexivity.
  erewrite (bind_ok (lift _))
    by (unfold lift, dict_index; cbn [set_deck players_hands];
        rewrite Hhand; reflexivity).
  erewrite (bind_ok (put _)) by reflexivity.
  unfold update_hand_counts.
  destruct (dict_get user (sids rd)) as [[sid|]|];
    [destruct (String.eqb sid "")|..];
    unfold bind, ret, emit, get; cbn; eexists; reflexivity.
Qed.

(** X2. A draw moves the first tile of the wall to the end of the drawer's
    hand and leaves the turn where it was: the player to move can draw
    [k] times in a row, for every [k] up to the size of the wall, and then
    holds the first [k] tiles of the wall after the old hand. *)
Theorem on_draw_tile_repeats (k : nat) :
  forall (rd : Room) (user pos : string) (hand : list Tile),
    dict_get user (positions rd) = Some pos ->
    current_turn (game_state rd) = pos ->
    dict_get pos (players_hands (game_state rd)) = Some hand ->
    (k <= List.length (remaining_deck (game_state rd)))%nat ->
    let deck := remaining_deck (game_state rd) in
    let out := times k (on_draw_tile user) rd in
    fst (fst out) = Ok tt
    /\ remaining_deck (game_state (snd (fst out))) = skipn k deck
    /\ dict_get pos (players_hands (game_state (snd (fst out))))
       = Some (hand ++ firstn k deck)%list
    /\ current_turn (game_state (snd (fst out))) = pos
    /\ discard_pile (game_state (snd (fst out))) = discard_pile (game_state rd).
Proof.
  induction k as [|k IH]; intros rd user pos hand Hpos Hturn Hhand Hk deck out.
  - subst out. cbn. rewrite app_nil_r. auto.
  - subst deck.
    destruct (remaining_deck (game_state rd)) as [|tile deck'] eqn:Hdeck;
      [simpl in Hk; lia|].
    destruct (on_draw_tile_run rd user pos tile deck' hand Hpos Hturn Hdeck Hhand)
      as (ev & Hrun).
    subst out. cbn [times]. rewrite (run_bind _ _ _ _ _ _ Hrun).
    cbn [fst snd].
    set (rd1 := set_game_state rd _) in *.
    specialize (IH rd1 user pos (hand ++ [tile])%list).
    cbn [skipn firstn].
    replace (hand ++ tile :: firstn k deck')%list
      with ((hand ++ [tile]) ++ firstn k deck')%list
      by (rewrite <- app_assoc; reflexivity).
    apply IH.
    + exact Hpos.
    + exact Hturn.
    + subst rd1. cbn. apply dict_get_set_same.
    + subst rd1. cbn. simpl in Hk. lia.
Qed.

Lemma keeps_bind_gen {X A B} (f : Room -> X) (m : M A) (k : A -> M B) :
  keeps f m -> (forall a, keeps f (k a)) -> keeps f (bind m k).
Proof.
  intros Hm Hk rd. unfold bind. specialize (Hm rd).
  destruct (m rd) as [[[a|e] rd'] ev]; simpl in Hm.
  - specialize (Hk a rd'). destruct (k a rd') as [[r rd''] ev'].
    simpl in *. congruence.
  - exact Hm.
Qed.

Lemma keeps_for_each_gen {X A} (f : Room -> X) (l : list A) (body : A -> M unit) :
  (forall x, keeps f (body x)) -> keeps f (for_each l body).
Proof.
  intros H. induction l as [|x l IH]; [intros rd; reflexivity|].
  simpl. apply keeps_bind_gen; auto.
Qed.

Lemma keeps_add_score_gen {X} (f : Room -> X) (u : string) (d : Z) :
  beside_scores f -> keeps f (add_score u d).
Proof.
  intros Hf rd. unfold add_score, bind, get, lift, put.
  destruct (dict_index u (scores rd)); cbn; [apply Hf|reflexivity].
Qed.

Lemma keeps_settle_scores_gen {X} (f : Room -> X) (t : option string) (w : Z) :
  beside_scores f -> keeps f (settle_scores t w).
Proof.
  intros Hf rd. unfold settle_scores.
  rewrite (bind_ok get _ rd rd rd) by reflexivity.
  rewrite (bind_ok _ _ _ _ _ (settle_init_run rd)).
  rewrite <- (Hf rd (starting_scores rd)).
  match goal with
  | |- f (snd (fst (?m ?st))) = _ =>
      assert (K : keeps f m); [|exact (K st)]
  end.
  repeat (apply keeps_bind_gen; [intros rd'; reflexivity|]; intros ?).
  apply keeps_bind_gen.
  - apply keeps_for_each_gen. intros up.
    destruct (String.eqb (fst up) _); [|intros rd'; reflexivity].
    apply keeps_for_each_gen. intros lp. unfold pay_winner.
    destruct (negb _); [|intros rd'; reflexivity].
    destruct (String.eqb _ _); apply keeps_bind_gen; intros;
      apply keeps_add_score_gen; exact Hf.
  - intros _. apply keeps_bind_gen; intros; intros rd'; reflexivity.
Qed.

Lemma keeps_update_hand_counts {X} (f : Room -> X) : keeps f update_hand_counts.
Proof. intros rd. reflexivity. Qed.

Lemma keeps_schedule_ai_move {X} (f : Room -> X) : keeps f schedule_ai_move.
Proof.
  unfold schedule_ai_move.
  apply keeps_bind_gen; [intros rd; reflexivity|]. intros rd.
  apply keeps_bind_gen; [intros rd'; reflexivity|]. intros u.
  destruct (str_in u (bots rd)); intros rd'; reflexivity.
Qed.

(** What follows the discard in [on_discard_tile] and [ai_discard_tile]
    changes the score table only. *)
Lemma keeps_win_check {X} (f : Room -> X) (user : string)
      (over : dict Z * string -> Event) (otherwise : M unit) :
  beside_scores f ->
  keeps f otherwise ->
  keeps f
    (rd1 <- get ;;
     ws <- lift (check_win_and_score rd1 user) ;;
     if fst ws then
       new_scores <- settle_scores (Some user) (snd ws) ;;
       emit (over new_scores)
     else otherwise).
Proof.
  intros Hf Ho.
  apply keeps_bind_gen; [intros rd; reflexivity|]. intros rd1.
  apply keeps_bind_gen; [intros rd; reflexivity|]. intros ws.
  destruct (fst ws); [|exact Ho].
  apply keeps_bind_gen; [apply keeps_settle_scores_gen; exact Hf|].
  intros ns rd. reflexivity.
Qed.

Lemma table_beside_scores : beside_scores table.
Proof. intros rd s. reflexivity. Qed.

Lemma get_next_turn_seat (pos : string) :
  In pos POSITIONS -> exists next, get_next_turn pos = Ok next /\ In next POSITIONS.
Proof.
  intros H. simpl in H.
  destruct H as [<-|[<-|[<-|[<-|[]]]]]; eexists; (split; [reflexivity|]);
    simpl; auto 10.
Qed.

Lemma room_bind {A B} (m : M A) (k : A -> M B) (rd rd1 : Room) (a : A)
      (ev1 : list Event) :
  m rd = (Ok a, rd1, ev1) -> snd (fst (bind m k rd)) = snd (fst (k a rd1)).
Proof. intros H. now rewrite (run_bind _ _ _ _ _ _ H). Qed.

Lemma events_bind {A B} (m : M A) (k : A -> M B) (rd rd1 : Room) (a : A)
      (ev1 : list Event) :
  m rd = (Ok a, rd1, ev1) -> snd (bind m k rd) = (ev1 ++ snd (k a rd1))%list.
Proof. intros H. now rewrite (run_bind _ _ _ _ _ _ H). Qed.

(** A discard by the player to move: the room it leaves (but for the
    scores, which a win settles) and its first events. *)
Lemma on_discard_tile_accepted (rd : Room) (user pos next : string)
      (hand hand' : list Tile) (tile_id : Z) :
  dict_get user (positions rd) = Some pos ->
  current_turn (game_state rd) = pos ->
  dict_get pos (players_hands (game_state rd)) = Some hand ->
  In (mkTile tile_id) hand ->
  list_remove (mkTile tile_id) hand = Ok hand' ->
  get_next_turn pos = Ok next ->
  table (snd (fst (on_discard_tile user tile_id rd)))
  = table
      (set_game_state rd
         (set_current_turn
            (set_last_discard
               (set_discard_pile
                  (set_hands (game_state rd)
                             (dict_set pos hand' (players_hands (game_state rd))))
                  (discard_pile (game_state rd) ++ [mkTile tile_id])%list)
               (Some (mkTile tile_id)))
            next))
  /\ exists rest, snd (on_discard_tile user tile_id rd)
                  = tile_discarded user (mkTile tile_id)
                    :: turn_update next :: rest.
Proof.
  intros Hpos Hturn Hhand Hin Hrm Hnext.
  destruct (find_existsb (fun t => id t =? tile_id) hand) as (tile & Hfind & _ & Hid).
  { apply existsb_exists. exists (mkTile tile_id). split; [exact Hin|apply Z.eqb_refl]. }
  apply Z.eqb_eq in Hid.
  assert (Ht : tile = mkTile tile_id) by (apply tile_eq; exact Hid).
  subst tile.
  unfold on_discard_tile.
  rewrite (bind_ok get _ rd rd rd) by reflexivity.
  rewrite (bind_ok (lift _) _ rd rd pos)
    by (unfold lift, dict_index; now rewrite Hpos).
  rewrite Hturn, String.eqb_refl. cbn [negb].
  rewrite (bind_ok (lift _) _ rd rd hand)
    by (unfold lift, dict_index; now rewrite Hhand).
  rewrite Hfind.
  rewrite (bind_ok (lift _) _ rd rd hand')
    by (unfold lift; now rewrite Hrm).
  cbv zeta.
  erewrite (bind_ok (put _)) by reflexivity.
  erewrite (run_bind (emit _)) by reflexivity.
  erewrite (bind_ok (lift _)) by (unfold lift; rewrite Hnext; reflexivity).
  erewrite (bind_ok (put _)) by reflexivity.
  erewrite (run_bind (emit _)) by reflexivity.
  erewrite (run_bind update_hand_counts) by reflexivity.
  cbn [fst snd app].
  split; [|eexists; reflexivity].
  match goal with
  | |- table (snd (fst (?m ?st))) = _ =>
      assert (K : keeps table m); [|rewrite (K st); reflexivity]
  end.
  apply keeps_win_check with
    (over := fun ns => game_over (Some user)
                                 (ScoresAndWinner (fst ns) (snd ns)) "win").
  - exact table_beside_scores.
  - apply keeps_schedule_ai_move.
Qed.

Lemma table_game_state (rd rd' : Room) :
  table rd = table rd' -> game_state rd = game_state rd'.
Proof. intros H. exact (f_equal game_state H). Qed.

Lemma table_positions (rd rd' : Room) :
  table rd = table rd' -> positions rd = positions rd'.
Proof. intros H. exact (f_equal positions H). Qed.

Lemma table_sids (rd rd' : Room) :
  table rd = table rd' -> sids rd = sids rd'.
Proof. intros H. exact (f_equal sids H). Qed.

(** X3. A discard by the player to move of an id present in the hand takes
    exactly one tile of that id from the hand, appends it to the discard
    pile, makes it the last discard and passes the turn to the next seat;
    wall and melds are untouched, and the first two events are
    [tile_discarded] and [turn_update].  This holds of the state reached
    whether or not the win check and the scheduling that follow raise. *)
Theorem on_discard_tile_moves_tile (rd : Room) (user pos : string)
        (hand : list Tile) (tile_id : Z) :
  dict_get user (positions rd) = Some pos ->
  current_turn (game_state rd) = pos ->
  In pos POSITIONS ->
  dict_get pos (players_hands (game_state rd)) = Some hand ->
  In (mkTile tile_id) hand ->
  let out := on_discard_tile user tile_id rd in
  let gs' := game_state (snd (fst out)) in
  exists hand' next rest,
    dict_get pos (players_hands gs') = Some hand'
    /\ len hand' = len hand - 1
    /\ (forall x, count_id hand' x
                  = count_id hand x - (if id x =? tile_id then 1 else 0))
    /\ discard_pile gs' = (discard_pile (game_state rd) ++ [mkTile tile_id])%list
    /\ last_discard gs' = Some (mkTile tile_id)
    /\ get_next_turn pos = Ok next
    /\ current_turn gs' = next
    /\ remaining_deck gs' = remaining_deck (game_state rd)
    /\ players_melds gs' = players_melds (game_state rd)
    /\ snd out = tile_discarded user (mkTile tile_id) :: turn_update next :: rest.
Proof.
  intros Hpos Hturn Hseat Hhand Hin out gs'.
  destruct (list_remove_In (mkTile tile_id) hand (In_existsb_id _ _ Hin))
    as (hand' & Hrm & Hlen & Hcount).
  destruct (get_next_turn_seat pos Hseat) as (next & Hnext & _).
  destruct (on_discard_tile_accepted rd user pos next hand hand' tile_id
              Hpos Hturn Hhand Hin Hrm Hnext) as (Hgs & rest & Hev).
  apply table_game_state in Hgs.
  exists hand', next, rest. unfold gs', out. rewrite Hgs. cbn.
  rewrite dict_get_set_same.
  repeat split; try assumption; try reflexivity.
  intros x. rewrite Hcount. cbn. rewrite Z.eqb_sym. reflexivity.
Qed.

(** X4. A discard out of turn, or of an id the hand does not hold, and a
    draw out of turn change nothing in the room and send one [error]
    event. *)
Theorem refused_requests_change_nothing (rd : Room) (user pos : string)
        (tile_id : Z) :
  dict_get user (positions rd) = Some pos ->
  (current_turn (game_state rd) <> pos
   \/ exists hand, dict_get pos (players_hands (game_state rd)) = Some hand
                   /\ ~ In (mkTile tile_id) hand) ->
  (exists msg, on_discard_tile user tile_id rd = (Ok tt, rd, [error msg]))
  /\ (current_turn (game_state rd) <> pos ->
      on_draw_tile user rd = (Ok tt, rd, [error "It's not your turn."])).
Proof.
  intros Hpos Hcase. split.
  - unfold on_discard_tile.
    rewrite (bind_ok get _ rd rd rd) by reflexivity.
    rewrite (bind_ok (lift _) _ rd rd pos)
      by (unfold lift, dict_index; now rewrite Hpos).
    destruct (String.eqb_spec pos (current_turn (game_state rd))) as [E|Hne];
      cbn [negb]; [|eexists; reflexivity].
    destruct Hcase as [Hturn|(hand & Hhand & Hnot)]; [congruence|].
    rewrite (bind_ok (lift _) _ rd rd hand)
      by (unfold lift, dict_index; now rewrite Hhand).
    destruct (find (fun t => id t =? tile_id) hand) as [t|] eqn:Hf;
      [|eexists; reflexivity].
    exfalso. apply find_some in Hf as [Hin Hid]. apply Hnot.
    apply Z.eqb_eq in Hid.
    replace (mkTile tile_id) with t by (apply tile_eq; exact Hid). exact Hin.
  - intros Hturn. unfold on_draw_tile.
    rewrite (bind_ok get _ rd rd rd) by reflexivity.
    rewrite (bind_ok (lift _) _ rd rd pos)
      by (unfold lift, dict_index; now rewrite Hpos).
    destruct (String.eqb_spec pos (current_turn (game_state rd))) as [E|Hne];
      [congruence|reflexivity].
Qed.

(** A claim whose tiles were found: the state it leaves and its first
    event. *)
Lemma on_claim_meld_accepted (rd : Room) (username meld_type position : string)
      (last : Tile) (hand' taken : list Tile) :
  dict_get username (positions rd) = Some position ->
  position <> "" ->
  last_discard (game_state rd) = Some last ->
  select_meld_tiles meld_type
    (get_list (Some position) (players_hands (game_state rd))) last
  = Ok (Some (true, hand', taken)) ->
  game_state (snd (fst (on_claim_meld username meld_type rd)))
  = set_current_turn
      (set_melds
         (set_discard_pile
            (set_hands (game_state rd)
               (dict_set position hand' (players_hands (game_state rd))))
            (pop_last (discard_pile (game_state rd))))
         (dict_set position
            (get_list (Some position) (players_melds (game_state rd))
             ++ [mkMeld meld_type (last :: taken) username])%list
            (players_melds (game_state rd))))
      position
  /\ exists rest, snd (on_claim_meld username meld_type rd)
                  = meld_claimed (mkMeld meld_type (last :: taken) username) :: rest.
Proof.
  intros Hpos Hne Hld Hsel.
  unfold on_claim_meld.
  rewrite (bind_ok get _ rd rd rd) by reflexivity.
  rewrite Hpos.
  destruct position as [|c position']; [contradiction|].
  rewrite Hld.
  rewrite (bind_ok (lift _) _ rd rd (Some (true, hand', taken)))
    by (unfold lift; now rewrite Hsel).
  cbv zeta.
  erewrite (bind_ok (put _)) by reflexivity.
  split.
  - rewrite keeps_after_claim. reflexivity.
  - erewrite (run_bind (emit _)) by reflexivity. cbn [snd app].
    eexists; reflexivity.
Qed.

(** A claim the hand does not support, or of an unknown type. *)
Lemma on_claim_meld_refused (rd : Room) (username meld_type position : string)
      (last : Tile) :
  dict_get username (positions rd) = Some position ->
  position <> "" ->
  last_discard (game_state rd) = Some last ->
  claim_supported meld_type
    (get_list (Some position) (players_hands (game_state rd))) last = false ->
  exists msg, on_claim_meld username meld_type rd = (Ok tt, rd, [error msg]).
Proof.
  intros Hpos Hne Hld Hsup.
  unfold on_claim_meld.
  rewrite (bind_ok get _ rd rd rd) by reflexivity.
  rewrite Hpos.
  destruct position as [|c position']; [contradiction|].
  rewrite Hld.
  set (hand := get_list _ _) in *.
  assert (Hsel : select_meld_tiles meld_type hand last = Ok None
                 \/ select_meld_tiles meld_type hand last
                    = Ok (Some (false, hand, []))).
  { revert Hsup. unfold claim_supported, select_meld_tiles.
    destruct (String.eqb meld_type "pong"); [intros ->; now right|].
    destruct (String.eqb meld_type "chi").
    { destruct (Mahjong.can_claim_chi hand last) as [[|] [s|]]; cbn;
        try discriminate; intros _; now right. }
    destruct (String.eqb meld_type "kong"); [intros ->; now right|].
    intros _; now left. }
  destruct Hsel as [Hsel|Hsel];
    rewrite (bind_ok (lift _) _ rd rd _) by (unfold lift; now rewrite Hsel);
    eexists; reflexivity.
Qed.

(** X5. With a last discard pending, [on_check_meld] offers a meld type
    exactly when [on_claim_meld] accepts it: an offered type is claimed
    (the first event is [meld_claimed] with that type), and a type that is
    not offered is refused with one [error] event and an unchanged
    room. *)
Theorem on_check_meld_agrees_with_claim (rd : Room)
        (username position : string) (last : Tile) :
  dict_get username (positions rd) = Some position ->
  position <> "" ->
  last_discard (game_state rd) = Some last ->
  exists options,
    on_check_meld rd username = meld_options options
    /\ forall meld_type,
         (In meld_type options ->
          exists m rest,
            snd (on_claim_meld username meld_type rd) = meld_claimed m :: rest
            /\ meld_type = App.meld_type m)
         /\ (~ In meld_type options ->
             exists msg,
               on_claim_meld username meld_type rd = (Ok tt, rd, [error msg])).
Proof.
  intros Hpos Hne Hld.
  set (hand := get_list (Some position) (players_hands (game_state rd))).
  assert (Hopt : exists options,
             on_check_meld rd username = meld_options options
             /\ forall mt, In mt options <-> claim_supported mt hand last = true).
  { unfold on_check_meld. rewrite Hpos.
    destruct position as [|c position']; [contradiction|].
    rewrite Hld. cbv zeta. fold hand.
    eexists. split; [reflexivity|].
    intros mt. unfold claim_supported.
    destruct (Mahjong.can_claim_pong hand last) eqn:Ep;
      destruct (fst (Mahjong.can_claim_chi hand last)) eqn:Ec;
      destruct (Mahjong.can_claim_kong hand last) eqn:Ek;
      cbn [app In];
      destruct (String.eqb_spec mt "pong") as [->|Np];
      try (destruct (String.eqb_spec mt "chi") as [->|Nc]);
      try (destruct (String.eqb_spec mt "kong") as [->|Nk]);
      split; intros H; try reflexivity; try discriminate;
      try (exfalso; intuition congruence); auto 10. }
  destruct Hopt as (options & Hrun & Hiff).
  exists options. split; [exact Hrun|].
  intros mt. split.
  - intros Hin. apply Hiff in Hin.
    destruct (select_meld_tiles_supported mt hand last Hin)
      as (hand' & taken & Hsel & _).
    destruct (on_claim_meld_accepted rd username mt position last hand' taken
                Hpos Hne Hld Hsel) as (_ & rest & Hev).
    eexists _, rest. split; [exact Hev|reflexivity].
  - intros Hnot.
    apply (on_claim_meld_refused rd username mt position last Hpos Hne Hld).
    destruct (claim_supported mt hand last) eqn:E; [|exact E].
    exfalso. apply Hnot. now apply Hiff.
Qed.

Lemma take_matching_ids (limit : Z) (last : Tile) (snapshot : list Tile) :
  forall hand meld count hand' meld',
    take_matching limit last snapshot hand meld count = Ok (hand', meld') ->
    Forall (fun t => id t = id last) meld ->
    Forall (fun t => id t = id last) meld'.
Proof.
  induction snapshot as [|t rest IH]; intros hand meld count hand' meld' Hrun Hm.
  - cbn in Hrun. injection Hrun as <- <-. exact Hm.
  - cbn [take_matching] in Hrun.
    destruct ((id t =? id last) && (count <? limit)) eqn:Hc.
    + apply andb_true_iff in Hc as [Ht _]. apply Z.eqb_eq in Ht.
      destruct (list_remove t hand) as [h1|e]; [|discriminate].
      cbn [rbind] in Hrun. eapply IH; [exact Hrun|].
      apply Forall_app. split; [exact Hm|]. constructor; [exact Ht|constructor].
    + eapply IH; eauto.
Qed.

Lemma take_matching_two (last : Tile) (hand hand' taken : list Tile) :
  take_matching 2 last hand hand [] 0 = Ok (hand', taken) ->
  len taken = 2 -> taken = [last; last].
Proof.
  intros Hrun Hl.
  pose proof (take_matching_ids 2 last hand hand [] 0 hand' taken Hrun
                (Forall_nil _)) as Hall.
  destruct taken as [|a [|b [|c taken]]]; unfold len in Hl; cbn in Hl; try lia.
  inversion Hall as [|? ? Ha Hall']; subst.
  inversion Hall' as [|? ? Hb _]; subst.
  now rewrite (tile_eq a last Ha), (tile_eq b last Hb).
Qed.

(** X6. [on_claim_meld] checks neither the turn nor who discarded: a
    player who discards one of three equal tiles can claim it back as a
    pong at once.  The hand is then three tiles shorter, the pong is
    recorded under the player's seat, the discard pile is what it was
    before the discard and the turn is the player's again. *)
Theorem discarder_can_claim_own_discard (rd : Room) (user pos : string)
        (hand : list Tile) (tile_id : Z) :
  dict_get user (positions rd) = Some pos ->
  current_turn (game_state rd) = pos ->
  In pos POSITIONS ->
  dict_get pos (players_hands (game_state rd)) = Some hand ->
  3 <= count_id hand (mkTile tile_id) ->
  let rd1 := snd (fst (on_discard_tile user tile_id rd)) in
  let out := on_claim_meld user "pong" rd1 in
  let gs' := game_state (snd (fst out)) in
  let t := mkTile tile_id in
  exists hand',
    dict_get pos (players_hands gs') = Some hand'
    /\ len hand' = len hand - 3
    /\ count_id hand' t = count_id hand t - 3
    /\ get_list (Some pos) (players_melds gs')
       = (get_list (Some pos) (players_melds (game_state rd))
          ++ [mkMeld "pong" [t; t; t] user])%list
    /\ discard_pile gs' = discard_pile (game_state rd)
    /\ current_turn gs' = pos
    /\ exists rest, snd out = meld_claimed (mkMeld "pong" [t; t; t] user) :: rest.
Proof.
  intros Hpos Hturn Hseat Hhand Hcount rd1 out gs' t.
  change (mkTile tile_id) with t in Hcount.
  assert (Hin : In t hand) by (apply In_count_id; lia).
  destruct (list_remove_In t hand (In_existsb_id _ _ Hin))
    as (hand1 & Hrm & Hlen1 & Hcount1).
  destruct (get_next_turn_seat pos Hseat) as (next & Hnext & _).
  destruct (on_discard_tile_accepted rd user pos next hand hand1 tile_id
              Hpos Hturn Hhand Hin Hrm Hnext) as (Htab & _).
  fold rd1 in Htab.
  pose proof (table_game_state _ _ Htab) as Hgs1.
  pose proof (table_positions _ _ Htab) as Hp1.
  cbn [set_game_state game_state positions] in Hgs1, Hp1.
  assert (Hne : pos <> "").
  { intros ->. simpl in Hseat. intuition discriminate. }
  assert (Hhand1 : get_list (Some pos) (players_hands (game_state rd1)) = hand1).
  { rewrite Hgs1. cbn. now rewrite dict_get_set_same. }
  assert (Hsup : 2 <= count_id hand1 t).
  { rewrite Hcount1, Z.eqb_refl. lia. }
  destruct (take_matching_claim 2 t hand1) as (hand2 & taken & Hrun & Hl2 & Ht2 & Hc2);
    [pose proof (count_id_nonneg hand1 t); lia|].
  pose proof (take_matching_two t hand1 hand2 taken Hrun Ht2) as ->.
  assert (Hsel : select_meld_tiles "pong"
                   (get_list (Some pos) (players_hands (game_state rd1))) t
                 = Ok (Some (true, hand2, [t; t]))).
  { rewrite Hhand1. unfold select_meld_tiles. cbn [String.eqb Ascii.eqb Bool.eqb].
    unfold Mahjong.can_claim_pong, can_claim_pong.
    apply Z.leb_le in Hsup. rewrite Hsup, Hrun. reflexivity. }
  destruct (on_claim_meld_accepted rd1 user "pong" pos t hand2 [t; t])
    as (Hgs2 & rest & Hev); try assumption.
  { now rewrite Hp1. }
  { now rewrite Hgs1. }
  exists hand2. unfold gs', out. rewrite Hgs2, Hgs1. cbn.
  rewrite !dict_get_set_same.
  unfold pop_last. rewrite removelast_last.
  repeat split; try reflexivity.
  - lia.
  - rewrite Hc2, Hcount1, Z.eqb_refl. lia.
  - exists rest. exact Hev.
Qed.

Lemma min_from_spec {A} (f : A -> Z) (l : list A) : forall best,
  In (min_from f best l) (best :: l)
  /\ forall x, In x (best :: l) -> f (min_from f best l) <= f x.
Proof.
  induction l as [|y l IH]; intros best; simpl.
  - split; [now left|]. intros x [<-|[]]. lia.
  - destruct (Z.ltb_spec (f y) (f best)) as [Hlt|Hge].
    + destruct (IH y) as [Hin Hmin]. split.
      * right. exact Hin.
      * intros x [<-|Hx].
        -- specialize (Hmin y (or_introl eq_refl)). lia.
        -- apply Hmin. exact Hx.
    + destruct (IH best) as [Hin Hmin]. split.
      * destruct Hin as [<-|Hin]; [now left|right; now right].
      * intros x [<-|[<-|Hx]].
        -- apply Hmin. now left.
        -- specialize (Hmin best (or_introl eq_refl)). lia.
        -- apply Hmin. now right.
Qed.

(** The tile [ai_discard_tile] picks from a non-empty hand. *)
Lemma ai_choice (hand : list Tile) :
  hand <> [] ->
  let tile_scores := map (fun t => (t, discard_score hand t)) hand in
  exists min_entry t,
    py_min snd tile_scores = Ok min_entry
    /\ py_max id (map fst (filter (fun ts => snd ts =? snd min_entry) tile_scores))
       = Ok t
    /\ In t hand
    /\ (forall x, In x hand -> discard_score hand t <= discard_score hand x)
    /\ (forall x, In x hand -> discard_score hand x = discard_score hand t ->
                  id x <= id t).
Proof.
  intros Hne tile_scores.
  assert (Hin_ts : forall e, In e tile_scores <->
                             In (fst e) hand /\ snd e = discard_score hand (fst e)).
  { intros [a s]. unfold tile_scores. rewrite in_map_iff. cbn. split.
    - intros (x & E & Hx). injection E as <- <-. auto.
    - intros (Ha & ->). exists a. auto. }
  destruct tile_scores as [|e0 rest] eqn:Ets.
  { destruct hand; [contradiction|discriminate]. }
  cbn [py_min].
  destruct (min_from_spec snd rest e0) as [Hmin_in Hmin].
  set (me := min_from snd e0 rest) in *.
  apply Hin_ts in Hmin_in as Hme. destruct Hme as [Hme_hand Hme_score].
  exists me.
  set (cands := map fst (filter (fun ts => snd ts =? snd me) (e0 :: rest))).
  assert (Hc : forall x, In x cands <->
                         In x hand /\ discard_score hand x = snd me).
  { intros x. unfold cands. rewrite in_map_iff. split.
    - intros ([a s] & E & Hf). cbn in E. subst a.
      apply filter_In in Hf as [Hf Hs]. apply Z.eqb_eq in Hs. cbn in Hs.
      apply Hin_ts in Hf as [Ha Hsa]. cbn in Ha, Hsa. split; [exact Ha|congruence].
    - intros [Hx Hs]. exists (x, discard_score hand x). split; [reflexivity|].
      apply filter_In. split.
      + apply Hin_ts. cbn. auto.
      + cbn. apply Z.eqb_eq. exact Hs. }
  destruct cands as [|c0 crest] eqn:Ec.
  { exfalso. assert (H : In (fst me) []) by (apply Hc; auto). exact H. }
  cbn [py_max].
  destruct (max_from_spec id crest c0) as [Hmax_in Hmax].
  set (t := max_from id c0 crest) in *.
  exists t. split; [reflexivity|]. split; [reflexivity|].
  apply Hc in Hmax_in as [Ht_hand Ht_score].
  split; [exact Ht_hand|]. split.
  - intros x Hx. rewrite Ht_score.
    specialize (Hmin (x, discard_score hand x)). cbn in Hmin. apply Hmin.
    apply Hin_ts. cbn. auto.
  - intros x Hx Hs. apply Hmax. apply Hc. split; [exact Hx|congruence].
Qed.

Lemma keeps_after_ai_discard {X} (f : Room -> X) (username : string) :
  beside_scores f ->
  keeps f
    (rd1 <- get ;;
     ws <- lift (check_win_and_score rd1 username) ;;
     (if fst ws then
        new_scores <- settle_scores (Some username) (snd ws) ;;
        emit (game_over (Some (snd new_scores)) (ScoresOnly (fst new_scores)) "win")
      else ret tt) ;;;
     update_hand_counts ;;;
     schedule_ai_move).
Proof.
  intros Hf.
  apply keeps_bind_gen; [intros rd; reflexivity|]. intros rd1.
  apply keeps_bind_gen; [intros rd; reflexivity|]. intros ws.
  apply keeps_bind_gen.
  - destruct (fst ws); [|intros rd; reflexivity].
    apply keeps_bind_gen; [apply keeps_settle_scores_gen; exact Hf|].
    intros ns rd. reflexivity.
  - intros _. apply keeps_bind_gen; [apply keeps_update_hand_counts|].
    intros _. apply keeps_schedule_ai_move.
Qed.

(** A bot's discard: the room it leaves (but for the scores) and its
    first events. *)
Lemma ai_discard_tile_run (rd : Room) (username position next : string)
      (hand hand' : list Tile) (min_entry : Tile * Z) (t : Tile) :
  dict_get username (positions rd) = Some position ->
  dict_get position (players_hands (game_state rd)) = Some hand ->
  py_min snd (map (fun t => (t, discard_score hand t)) hand) = Ok min_entry ->
  py_max id (map fst (filter (fun ts => snd ts =? snd min_entry)
                             (map (fun t => (t, discard_score hand t)) hand)))
  = Ok t ->
  list_remove t hand = Ok hand' ->
  get_next_turn position = Ok next ->
  table (snd (fst (ai_discard_tile username rd)))
  = table
      (set_game_state rd
         (set_current_turn
            (set_last_discard
               (set_discard_pile
                  (set_hands (game_state rd)
                             (dict_set position hand' (players_hands (game_state rd))))
                  (discard_pile (game_state rd) ++ [t])%list)
               (Some t))
            next))
  /\ exists rest, snd (ai_discard_tile username rd)
                  = tile_discarded username t :: turn_update next :: rest.
Proof.
  intros Hpos Hhand Hmin Hmax Hrm Hnext.
  unfold ai_discard_tile.
  rewrite (bind_ok get _ rd rd rd) by reflexivity.
  rewrite (bind_ok (lift _) _ rd rd position)
    by (unfold lift, dict_index; now rewrite Hpos).
  rewrite (bind_ok (lift _) _ rd rd hand)
    by (unfold lift, dict_index; now rewrite Hhand).
  cbv zeta.
  rewrite (bind_ok (lift _) _ rd rd min_entry)
    by (unfold lift; now rewrite Hmin).
  rewrite (bind_ok (lift _) _ rd rd t)
    by (unfold lift; now rewrite Hmax).
  rewrite (bind_ok (lift _) _ rd rd hand')
    by (unfold lift; now rewrite Hrm).
  erewrite (bind_ok (put _)) by reflexivity.
  erewrite (run_bind (emit _)) by reflexivity.
  erewrite (bind_ok (lift _)) by (unfold lift; rewrite Hnext; reflexivity).
  erewrite (bind_ok (put _)) by reflexivity.
  erewrite (run_bind (emit _)) by reflexivity.
  cbn [fst snd app].
  split; [|eexists; reflexivity].
  match goal with
  | |- table (snd (fst (?m ?st))) = _ =>
      assert (K : keeps table m); [|rewrite (K st); reflexivity]
  end.
  apply keeps_after_ai_discard. exact table_beside_scores.
Qed.

(** X7. On an empty hand [ai_discard_tile] raises [ValueError] (the
    minimum of no score) and changes nothing.  On any other hand it
    discards a tile of least [discard_score], the one of highest id among
    those: the tile leaves the hand, ends the discard pile, becomes the
    last discard, and the turn passes to the next seat. *)
Theorem ai_discard_tile_picks_least_useful (rd : Room)
        (username position : string) (hand : list Tile) :
  dict_get username (positions rd) = Some position ->
  dict_get position (players_hands (game_state rd)) = Some hand ->
  In position POSITIONS ->
  let out := ai_discard_tile username rd in
  let gs' := game_state (snd (fst out)) in
  (hand = [] ->
   out = (Raise (ValueError "min() arg is an empty sequence"), rd, []))
  /\ (hand <> [] ->
      exists t hand' next rest,
        In t hand
        /\ (forall x, In x hand -> discard_score hand t <= discard_score hand x)
        /\ (forall x, In x hand -> discard_score hand x = discard_score hand t ->
                      id x <= id t)
        /\ dict_get position (players_hands gs') = Some hand'
        /\ len hand' = len hand - 1
        /\ (forall x, count_id hand' x
                      = count_id hand x - (if id t =? id x then 1 else 0))
        /\ discard_pile gs' = (discard_pile (game_state rd) ++ [t])%list
        /\ last_discard gs' = Some t
        /\ get_next_turn position = Ok next
        /\ current_turn gs' = next
        /\ snd out = tile_discarded username t :: turn_update next :: rest).
Proof.
  intros Hpos Hhand Hseat out gs'. split.
  - intros ->. unfold out, ai_discard_tile.
    rewrite (bind_ok get _ rd rd rd) by reflexivity.
    rewrite (bind_ok (lift _) _ rd rd position)
      by (unfold lift, dict_index; now rewrite Hpos).
    rewrite (bind_ok (lift _) _ rd rd [])
      by (unfold lift, dict_index; now rewrite Hhand).
    reflexivity.
  - intros Hne.
    destruct (ai_choice hand Hne) as (me & t & Hmin & Hmax & Hin & Hleast & Hhigh).
    destruct (list_remove_In t hand (In_existsb_id _ _ Hin))
      as (hand' & Hrm & Hlen & Hcount).
    destruct (get_next_turn_seat position Hseat) as (next & Hnext & _).
    destruct (ai_discard_tile_run rd username position next hand hand' me t
                Hpos Hhand Hmin Hmax Hrm Hnext) as (Htab & rest & Hev).
    apply table_game_state in Htab.
    exists t, hand', next, rest. unfold gs', out. rewrite Htab. cbn.
    rewrite dict_get_set_same.
    repeat split; try assumption; reflexivity.
Qed.

Lemma sends_bind {A B} (P : Event -> Prop) (m : M A) (k : A -> M B) :
  sends P m -> (forall a, sends P (k a)) -> sends P (bind m k).
Proof.
  intros Hm Hk rd. unfold bind. specialize (Hm rd).
  destruct (m rd) as [[[a|e] rd'] ev]; simpl in Hm.
  - specialize (Hk a rd'). destruct (k a rd') as [[r rd''] ev'].
    simpl in *. apply Forall_app. auto.
  - exact Hm.
Qed.

Lemma sends_silent {A} (P : Event -> Prop) (m : M A) : silent m -> sends P m.
Proof. intros H rd. rewrite H. constructor. Qed.

Lemma sends_emit (P : Event -> Prop) (e : Event) : P e -> sends P (emit e).
Proof. intros H rd. cbn. constructor; [exact H|constructor]. Qed.

Lemma sends_weaken {A} (P Q : Event -> Prop) (m : M A) :
  (forall e, P e -> Q e) -> sends P m -> sends Q m.
Proof. intros H Hm rd. eapply Forall_impl; [exact H|apply Hm]. Qed.

Ltac quiet := apply sends_silent; intros ?; reflexivity.

Lemma sends_update_hand_counts (P : Event -> Prop) :
  (forall c, P (hand_update c)) -> sends P update_hand_counts.
Proof.
  intros H. unfold update_hand_counts.
  apply sends_bind; [quiet|]. intros rd. apply sends_emit, H.
Qed.

Lemma sends_schedule_ai_move (P : Event -> Prop) :
  (forall u, P (ai_thread u)) -> sends P schedule_ai_move.
Proof.
  intros H. unfold schedule_ai_move.
  apply sends_bind; [quiet|]. intros rd.
  apply sends_bind; [quiet|]. intros u.
  destruct (str_in u (bots rd)); [apply sends_emit, H|quiet].
Qed.

Lemma sends_on_claim_meld (username meld_type : string) :
  sends (claims_only meld_type) (on_claim_meld username meld_type).
Proof.
  unfold on_claim_meld.
  apply sends_bind; [quiet|]. intros rd.
  destruct (dict_get username (positions rd)) as [[|c position]|];
    try (apply sends_emit; exact I).
  destruct (last_discard (game_state rd)) as [last|];
    [|apply sends_emit; exact I].
  apply sends_bind; [quiet|]. intros [[[[|] hand'] meld_tiles]|];
    try (apply sends_emit; exact I).
  cbv zeta.
  apply sends_bind; [quiet|]. intros _.
  apply sends_bind; [apply sends_emit; reflexivity|]. intros _.
  apply sends_bind; [apply sends_update_hand_counts; intros; exact I|]. intros _.
  apply sends_bind; [apply sends_emit; exact I|]. intros _.
  apply sends_bind.
  { destruct (dict_get username (sids rd)) as [[sid|]|]; try quiet.
    destruct (String.eqb sid ""); [quiet|apply sends_emit; exact I]. }
  intros _.
  apply sends_bind; [quiet|]. intros rd1.
  apply sends_bind; [quiet|]. intros ws.
  destruct (fst ws); [|quiet].
  apply sends_bind; [apply sends_silent, silent_settle_scores|].
  intros ns. apply sends_emit. exact I.
Qed.

Lemma sends_ai_discard_tile (P : Event -> Prop) (username : string) :
  (forall e, match e with meld_claimed _ => True | _ => P e end) ->
  sends P (ai_discard_tile username).
Proof.
  intros H. unfold ai_discard_tile.
  apply sends_bind; [quiet|]. intros rd.
  apply sends_bind; [quiet|]. intros position.
  apply sends_bind; [quiet|]. intros hand.
  cbv zeta.
  apply sends_bind; [quiet|]. intros me.
  apply sends_bind; [quiet|]. intros t.
  apply sends_bind; [quiet|]. intros hand'.
  apply sends_bind; [quiet|]. intros _.
  apply sends_bind; [apply sends_emit; exact (H (tile_discarded _ _))|]. intros _.
  apply sends_bind; [quiet|]. intros next.
  apply sends_bind; [quiet|]. intros _.
  apply sends_bind; [apply sends_emit; exact (H (turn_update _))|]. intros _.
  apply sends_bind; [quiet|]. intros rd1.
  apply sends_bind; [quiet|]. intros ws.
  apply sends_bind.
  { destruct (fst ws); [|quiet].
    apply sends_bind; [apply sends_silent, silent_settle_scores|].
    intros ns. apply sends_emit. exact (H (game_over _ _ _)). }
  intros _.
  apply sends_bind;
    [apply sends_update_hand_counts; intros c; exact (H (hand_update c))|].
  intros _. apply sends_schedule_ai_move. intros u. exact (H (ai_thread u)).
Qed.

Lemma events_prefix {A B} (m : M A) (k : A -> M B) (rd : Room) :
  exists rest, snd (bind m k rd) = (snd (m rd) ++ rest)%list.
Proof.
  unfold bind. destruct (m rd) as [[[a|e] rd'] ev].
  - destruct (k a rd') as [[r rd''] ev']. exists ev'. reflexivity.
  - exists []. cbn. now rewrite app_nil_r.
Qed.

Lemma sends_handle_ai_turn (bot_username : string) :
  sends pong_or_chi (handle_ai_turn bot_username).
Proof.
  unfold handle_ai_turn.
  apply sends_bind; [quiet|]. intros rd0.
  apply sends_bind; [quiet|]. intros position.
  apply sends_bind.
  { destruct (last_discard (game_state rd0)) as [last|]; [|quiet].
    apply sends_bind; [quiet|]. intros bot_hand. cbv zeta.
    destruct (Mahjong.can_claim_pong bot_hand last) eqn:Ep.
    { apply sends_bind; [|intros; quiet].
      apply sends_weaken with (P := claims_only "pong");
        [|apply sends_on_claim_meld].
      intros [] He; try exact I. left. exact He. }
    destruct (fst (Mahjong.can_claim_chi bot_hand last)).
    { apply sends_bind; [|intros; quiet].
      apply sends_weaken with (P := claims_only "chi");
        [|apply sends_on_claim_meld].
      intros [] He; try exact I. right. exact He. }
    destruct (Mahjong.can_claim_kong bot_hand last) eqn:Ek; [|quiet].
    exfalso. unfold Mahjong.can_claim_pong, can_claim_pong in Ep.
    unfold Mahjong.can_claim_kong, can_claim_kong in Ek.
    apply Z.leb_le in Ek. apply Z.leb_gt in Ep. lia. }
  intros claimed.
  apply sends_bind; [quiet|]. intros rd1.
  destruct (remaining_deck (game_state rd1)) as [|drawn deck'].
  { apply sends_bind; [apply sends_silent, silent_settle_scores|].
    intros sw. apply sends_emit. exact I. }
  apply sends_bind.
  { destruct (negb claimed); [|quiet]. cbv zeta.
    apply sends_bind; [quiet|]. intros _.
    apply sends_bind; [quiet|]. intros hand.
    apply sends_bind; [quiet|]. intros _.
    apply sends_update_hand_counts. intros; exact I. }
  intros _. apply sends_ai_discard_tile. intros []; exact I.
Qed.

(** X8. A bot never claims a kong: [handle_ai_turn] tests pong before
    kong, and a hand that supports a kong supports a pong.  Every
    [meld_claimed] event of a bot's turn is a pong or a chi, and with
    three copies of the last discard in hand the bot claims a pong. *)
Theorem handle_ai_turn_never_claims_kong (rd : Room) (bot_username : string) :
  (forall m, In (meld_claimed m) (snd (handle_ai_turn bot_username rd)) ->
             App.meld_type m = "pong" \/ App.meld_type m = "chi")
  /\ (forall position last hand,
        dict_get bot_username (positions rd) = Some position ->
        position <> "" ->
        last_discard (game_state rd) = Some last ->
        dict_get position (players_hands (game_state rd)) = Some hand ->
        3 <= count_id hand last ->
        claim_supported "kong" hand last = true
        /\ exists rest,
             snd (handle_ai_turn bot_username rd)
             = meld_claimed (mkMeld "pong" [last; last; last] bot_username)
               :: rest).
Proof.
  split.
  - intros m Hin. pose proof (sends_handle_ai_turn bot_username rd) as H.
    rewrite Forall_forall in H. exact (H _ Hin).
  - intros position last hand Hpos Hne Hld Hhand Hcount. split.
    { unfold claim_supported. cbn [String.eqb Ascii.eqb Bool.eqb].
      unfold Mahjong.can_claim_kong, can_claim_kong. now apply Z.leb_le. }
    assert (Hp : Mahjong.can_claim_pong hand last = true).
    { unfold Mahjong.can_claim_pong, can_claim_pong. apply Z.leb_le. lia. }
    destruct (take_matching_claim 2 last hand)
      as (hand2 & taken & Hrun & _ & Ht2 & _); [lia|].
    pose proof (take_matching_two last hand hand2 taken Hrun Ht2) as ->.
    assert (Hget : get_list (Some position) (players_hands (game_state rd)) = hand).
    { unfold get_list. now rewrite Hhand. }
    destruct (on_claim_meld_accepted rd bot_username "pong" position last
                hand2 [last; last] Hpos Hne Hld) as (_ & rest & Hev).
    { rewrite Hget. unfold select_meld_tiles. cbn [String.eqb Ascii.eqb Bool.eqb].
      rewrite Hp, Hrun. reflexivity. }
    unfold handle_ai_turn.
    rewrite (bind_ok get _ rd rd rd) by reflexivity.
    rewrite (bind_ok (lift _) _ rd rd position)
      by (unfold lift, dict_index; now rewrite Hpos).
    rewrite Hld.
    match goal with
    | |- exists r, snd (bind ?m ?k rd) = _ =>
        destruct (events_prefix m k rd) as (r1 & ->)
    end.
    rewrite (bind_ok (lift _) _ rd rd hand)
      by (unfold lift, dict_index; now rewrite Hhand).
    cbv zeta. rewrite Hp.
    match goal with
    | |- exists r, (snd (bind ?m ?k rd) ++ _)%list = _ =>
        destruct (events_prefix m k rd) as (r2 & ->)
    end.
    rewrite Hev. eexists. cbn [app]. reflexivity.
Qed.

(* ------------------------------------------------------------------ *)
Lemma ids_count_cons (x y : Z) (l : list Z) :
  ids_count x (y :: l) = (if x =? y then 1 else 0) + ids_count x l.
Proof.
  unfold ids_count. cbn [filter]. destruct (x =? y);
    cbn [List.length]; rewrite ?Nat2Z.inj_succ; lia.
Qed.

Lemma ids_count_nonneg (x : Z) (l : list Z) : 0 <= ids_count x l.
Proof. unfold ids_count. lia. Qed.

Lemma z_in_count (x : Z) (l : list Z) : z_in x l = true <-> 0 < ids_count x l.
Proof.
  induction l as [|y l IH]; [cbn; split; [discriminate|lia]|].
  rewrite ids_count_cons. unfold z_in in *. cbn [existsb].
  pose proof (ids_count_nonneg x l).
  destruct (x =? y); cbn [orb]; [split; [lia|reflexivity]|].
  rewrite IH. lia.
Qed.

Lemma ids_remove_ok (x : Z) (l : list Z) :
  0 < ids_count x l ->
  exists l', ids_remove x l = Ok l'
             /\ Permutation l (x :: l')
             /\ (forall y, ids_count y l' = ids_count y l - (if y =? x then 1 else 0)).
Proof.
  induction l as [|y l IH]; [cbn; lia|].
  rewrite ids_count_cons. cbn [ids_remove].
  destruct (Z.eqb_spec y x) as [->|Hne].
  - intros _. exists l. split; [reflexivity|]. split; [reflexivity|].
    intros y. rewrite ids_count_cons. lia.
  - destruct (Z.eqb_spec x y); [congruence|]. intros H.
    destruct IH as (l' & -> & Hp & Hc); [lia|]. cbn [rbind].
    exists (y :: l'). split; [reflexivity|]. split.
    + rewrite Hp. apply perm_swap.
    + intros z. rewrite !ids_count_cons, Hc. lia.
Qed.

Lemma ids_remove_sorted (x : Z) (l l' : list Z) :
  StronglySorted Z.le l -> ids_remove x l = Ok l' -> StronglySorted Z.le l'.
Proof.
  revert l'. induction l as [|y l IH]; intros l' Hs Hr; [discriminate|].
  cbn [ids_remove] in Hr. inversion Hs as [|? ? Hs' Hall]; subst.
  destruct (y =? x); [injection Hr as <-; exact Hs'|].
  destruct (ids_remove x l) as [r|e] eqn:E; [|discriminate].
  cbn in Hr. injection Hr as <-.
  constructor; [now apply IH|].
  rewrite Forall_forall in *. intros z Hz. apply Hall.
  destruct (ids_remove_ok x l) as (r' & Hr' & Hp & _).
  { destruct (Z.ltb_spec 0 (ids_count x l)) as [H|H]; [exact H|].
    exfalso. pose proof (ids_count_nonneg x l).
    assert (Hz0 : ids_count x l = 0) by lia.
    clear - E Hz0. revert r E. induction l as [|a l IH]; intros r E; [discriminate|].
    rewrite ids_count_cons in Hz0. pose proof (ids_count_nonneg x l).
    cbn [ids_remove] in E. destruct (Z.eqb_spec a x) as [->|Hne].
    - rewrite Z.eqb_refl in Hz0. lia.
    - destruct (ids_remove x l) as [r0|]; [|discriminate].
      eapply IH; [|reflexivity]. destruct (x =? a); lia. }
  rewrite E in Hr'. injection Hr' as <-.
  eapply Permutation_in; [symmetry; exact Hp|]. now right.
Qed.

Lemma ascending_sorted (l : list Z) :
  ascending l = true <-> StronglySorted Z.le l.
Proof.
  induction l as [|a l IH]; [split; [constructor|reflexivity]|].
  destruct l as [|b l].
  - split; [intros _; repeat constructor|reflexivity].
  - cbn [ascending]. rewrite andb_true_iff, IH, Z.leb_le. split.
    + intros [Hab Hs]. constructor; [exact Hs|].
      inversion Hs as [|? ? _ Hall]; subst. constructor; [exact Hab|].
      eapply Forall_impl; [|exact Hall]. intros; lia.
    + intros Hs. inversion Hs as [|? ? Hs' Hall]; subst.
      inversion Hall; subst. auto.
Qed.

(** The three removals of a pung or a chow. *)
Lemma remove_three (a b c : Z) (l : list Z) :
  0 < ids_count a l ->
  0 < ids_count b l - (if b =? a then 1 else 0) ->
  0 < ids_count c l - (if c =? a then 1 else 0) - (if c =? b then 1 else 0) ->
  exists new_ids,
    rbind (ids_remove a l) (fun l1 => rbind (ids_remove b l1) (ids_remove c))
    = Ok new_ids
    /\ Permutation l (a :: b :: c :: new_ids).
Proof.
  intros Ha Hb Hc.
  destruct (ids_remove_ok a l Ha) as (l1 & -> & Hp1 & Hc1). cbn [rbind].
  destruct (ids_remove_ok b l1) as (l2 & -> & Hp2 & Hc2); [rewrite Hc1; lia|].
  cbn [rbind].
  destruct (ids_remove_ok c l2) as (l3 & -> & Hp3 & Hc3);
    [rewrite Hc2, Hc1; lia|].
  exists l3. split; [reflexivity|].
  rewrite Hp1, Hp2, Hp3. reflexivity.
Qed.

Lemma remove_three_sorted (a b c : Z) (l new_ids : list Z) :
  StronglySorted Z.le l ->
  rbind (ids_remove a l) (fun l1 => rbind (ids_remove b l1) (ids_remove c))
  = Ok new_ids ->
  StronglySorted Z.le new_ids.
Proof.
  intros Hs H.
  destruct (ids_remove a l) as [l1|] eqn:E1; [|discriminate]. cbn in H.
  destruct (ids_remove b l1) as [l2|] eqn:E2; [|discriminate]. cbn in H.
  eapply ids_remove_sorted; [|exact H].
  eapply ids_remove_sorted; [|exact E2].
  eapply ids_remove_sorted; [|exact E1]. exact Hs.
Qed.

Lemma pung_removals (first : Z) (l : list Z) :
  3 <= ids_count first l ->
  exists new_ids,
    rbind (ids_remove first l) (fun l1 =>
      rbind (ids_remove first l1) (ids_remove first)) = Ok new_ids
    /\ Permutation l (first :: first :: first :: new_ids).
Proof.
  intros H. apply remove_three; rewrite ?Z.eqb_refl; lia.
Qed.

Lemma chow_removals (first : Z) (l : list Z) :
  0 < ids_count first l ->
  z_in (first + 1) l = true -> z_in (first + 2) l = true ->
  exists new_ids,
    rbind (ids_remove first l) (fun l1 =>
      rbind (ids_remove (first + 1) l1) (ids_remove (first + 2))) = Ok new_ids
    /\ Permutation l (first :: first + 1 :: first + 2 :: new_ids).
Proof.
  intros H0 H1 H2. apply z_in_count in H1, H2.
  apply remove_three; [exact H0| |].
  - destruct (Z.eqb_spec (first + 1) first); lia.
  - destruct (Z.eqb_spec (first + 2) first); [lia|].
    destruct (Z.eqb_spec (first + 2) (first + 1)); lia.
Qed.

Lemma perm_length3 (l new_ids : list Z) (a b c : Z) :
  Permutation l (a :: b :: c :: new_ids) ->
  List.length l = S (S (S (List.length new_ids))).
Proof. intros H. apply Permutation_length in H. exact H. Qed.

(** With a depth above the length of the list, the recursion returns. *)
Lemma can_form_sets_at_returns (depth : nat) :
  forall l, (List.length l < depth)%nat ->
            exists b, can_form_sets_at depth l = Some (Ok b).
Proof.
  induction depth as [|depth IH]; intros l Hl; [lia|].
  destruct l as [|first rest]; [exists true; reflexivity|].
  cbn [can_form_sets_at]. set (l := first :: rest) in *.
  assert (H0 : 0 < ids_count first l).
  { unfold l. rewrite ids_count_cons, Z.eqb_refl.
    pose proof (ids_count_nonneg first rest). lia. }
  assert (Hpung : exists b,
             (if 3 <=? ids_count first l then
                match rbind (ids_remove first l) (fun l1 =>
                      rbind (ids_remove first l1) (ids_remove first)) with
                | Raise e => Some (Raise e)
                | Ok new_ids => can_form_sets_at depth new_ids
                end
              else Some (Ok false)) = Some (Ok b)).
  { destruct (Z.leb_spec 3 (ids_count first l)) as [H3|H3]; [|eauto].
    destruct (pung_removals first l H3) as (n & -> & Hp).
    apply IH. apply perm_length3 in Hp. lia. }
  destruct Hpung as (b & ->). destruct b; [eauto|].
  destruct (first <=? 26); [|eauto]. cbv zeta.
  destruct (z_in (first + 1) l && z_in (first + 2) l) eqn:E; [|eauto].
  apply andb_true_iff in E as [E1 E2].
  destruct (chow_removals first l H0 E1 E2) as (n & -> & Hp).
  apply IH. apply perm_length3 in Hp. lia.
Qed.

Lemma can_form_sets_at_sound (depth : nat) :
  forall l, can_form_sets_at depth l = Some (Ok true) -> splits_into_sets l.
Proof.
  induction depth as [|depth IH]; intros l H; [discriminate|].
  destruct l as [|first rest].
  { exists []. split; [reflexivity|constructor]. }
  cbn [can_form_sets_at] in H. set (l := first :: rest) in *.
  assert (Hpung : forall new_ids,
             rbind (ids_remove first l) (fun l1 =>
               rbind (ids_remove first l1) (ids_remove first)) = Ok new_ids ->
             can_form_sets_at depth new_ids = Some (Ok true) ->
             splits_into_sets l).
  { intros n Hr Hn. destruct (IH n Hn) as (groups & Hp & Hall).
    assert (Hl : Permutation l (first :: first :: first :: n)).
    { destruct (ids_remove first l) as [l1|] eqn:E1; [|discriminate]. cbn in Hr.
      destruct (ids_remove first l1) as [l2|] eqn:E2; [|discriminate]. cbn in Hr.
      assert (R : forall x a b, ids_remove x a = Ok b -> Permutation a (x :: b)).
      { clear. intros x a. induction a as [|y a IHa]; intros b Hb; [discriminate|].
        cbn in Hb. destruct (Z.eqb_spec y x) as [->|].
        - injection Hb as <-. reflexivity.
        - destruct (ids_remove x a) as [r|]; [|discriminate].
          cbn in Hb. injection Hb as <-. rewrite (IHa r eq_refl). apply perm_swap. }
      rewrite (R _ _ _ E1), (R _ _ _ E2), (R _ _ _ Hr). reflexivity. }
    exists ([first; first; first] :: groups). split.
    - cbn [List.concat app]. rewrite Hl, Hp. reflexivity.
    - constructor; [exists first; now left|exact Hall]. }
  assert (Hchow : forall new_ids,
             first <= 26 ->
             rbind (ids_remove first l) (fun l1 =>
               rbind (ids_remove (first + 1) l1) (ids_remove (first + 2)))
             = Ok new_ids ->
             can_form_sets_at depth new_ids = Some (Ok true) ->
             splits_into_sets l).
  { intros n H26 Hr Hn. destruct (IH n Hn) as (groups & Hp & Hall).
    assert (Hl : Permutation l (first :: first + 1 :: first + 2 :: n)).
    { destruct (ids_remove first l) as [l1|] eqn:E1; [|discriminate]. cbn in Hr.
      destruct (ids_remove (first + 1) l1) as [l2|] eqn:E2; [|discriminate].
      cbn in Hr.
      assert (R : forall x a b, ids_remove x a = Ok b -> Permutation a (x :: b)).
      { clear. intros x a. induction a as [|y a IHa]; intros b Hb; [discriminate|].
        cbn in Hb. destruct (Z.eqb_spec y x) as [->|].
        - injection Hb as <-. reflexivity.
        - destruct (ids_remove x a) as [r|]; [|discriminate].
          cbn in Hb. injection Hb as <-. rewrite (IHa r eq_refl). apply perm_swap. }
      rewrite (R _ _ _ E1), (R _ _ _ E2), (R _ _ _ Hr). reflexivity. }
    exists ([first; first + 1; first + 2] :: groups). split.
    - cbn [List.concat app]. rewrite Hl, Hp. reflexivity.
    - constructor; [exists first; right; auto|exact Hall]. }
  destruct (3 <=? ids_count first l).
  - destruct (rbind (ids_remove first l) _) as [n|e] eqn:Er; [|discriminate].
    destruct (can_form_sets_at depth n) as [[[|]|]|] eqn:En; try discriminate.
    + eapply Hpung; eauto.
    + destruct (Z.leb_spec first 26); [|discriminate]. cbv zeta in H.
      destruct (z_in (first + 1) l && z_in (first + 2) l); [|discriminate].
      destruct (rbind (ids_remove first l) _) as [n'|e'] eqn:Er' in H;
        [|discriminate].
      eapply Hchow; eauto.
  - destruct (Z.leb_spec first 26); [|discriminate]. cbv zeta in H.
    destruct (z_in (first + 1) l && z_in (first + 2) l); [|discriminate].
    destruct (rbind (ids_remove first l) _) as [n'|e'] eqn:Er' in H;
      [|discriminate].
    eapply Hchow; eauto.
Qed.

Lemma ids_count_perm (x : Z) (l l' : list Z) :
  Permutation l l' -> ids_count x l = ids_count x l'.
Proof.
  intros H. induction H.
  - reflexivity.
  - rewrite !ids_count_cons. lia.
  - rewrite !ids_count_cons. lia.
  - congruence.
Qed.

Lemma In_ids_count (x : Z) (l : list Z) : In x l <-> 0 < ids_count x l.
Proof.
  rewrite <- z_in_count. unfold z_in. rewrite existsb_exists. split.
  - intros H. exists x. split; [exact H|apply Z.eqb_refl].
  - intros (y & Hy & E). apply Z.eqb_eq in E. now subst.
Qed.

(** Taking one group out of a split. *)
Lemma split_group (l : list Z) (groups : list (list Z)) (x : Z) :
  Permutation l (List.concat groups) -> In x l ->
  exists g others,
    In x g /\ In g groups
    /\ Permutation l (g ++ List.concat others)
    /\ (Forall set_of_three groups -> set_of_three g /\ Forall set_of_three others).
Proof.
  intros Hp Hx.
  assert (Hc : In x (List.concat groups)) by (eapply Permutation_in; eauto).
  apply in_concat in Hc as (g & Hg & Hxg).
  destruct (in_split _ _ Hg) as (G1 & G2 & ->).
  exists g, (G1 ++ G2)%list. split; [exact Hxg|]. split; [exact Hg|]. split.
  - rewrite Hp, !concat_app. cbn [List.concat].
    rewrite !app_assoc. apply Permutation_app_tail. apply Permutation_app_comm.
  - intros Hall. apply Forall_app in Hall as [H1 H2].
    inversion H2; subst. split; [assumption|]. apply Forall_app. auto.
Qed.

Lemma can_form_sets_at_complete (depth : nat) :
  forall l, (List.length l < depth)%nat ->
            StronglySorted Z.le l ->
            splits_into_sets l ->
            can_form_sets_at depth l = Some (Ok true).
Proof.
  induction depth as [|depth IH]; intros l Hl Hs Hsplit; [lia|].
  destruct l as [|first rest]; [reflexivity|].
  cbn [can_form_sets_at]. set (l := first :: rest) in *.
  destruct Hsplit as (groups & Hp & Hall).
  destruct (split_group l groups first Hp (or_introl eq_refl))
    as (g & others & Hfg & _ & Hpg & Hshape).
  destruct (Hshape Hall) as [(a & Hg) Hothers]. clear Hshape.
  assert (Hmin : forall y, In y l -> first <= y).
  { inversion Hs as [|? ? _ Hle]; subst. rewrite Forall_forall in Hle.
    intros y [<-|Hy]; [lia|auto]. }
  assert (H0 : 0 < ids_count first l) by (apply In_ids_count; now left).
  assert (Hrec : forall new_ids x y z,
             g = [x; y; z] ->
             Permutation l (x :: y :: z :: new_ids) ->
             StronglySorted Z.le new_ids ->
             can_form_sets_at depth new_ids = Some (Ok true)).
  { intros n x y z -> Hn Hsn. apply IH.
    - apply perm_length3 in Hn. lia.
    - exact Hsn.
    - exists others. split; [|exact Hothers].
      rewrite Hpg in Hn. cbn [app] in Hn.
      do 3 apply Permutation_cons_inv in Hn. symmetry. exact Hn. }
  destruct Hg as [Hg|[H26 Hg]].
  - (* the least id is in a pung *)
    assert (a = first).
    { subst g. cbn in Hfg. intuition. }
    subst a.
    assert (H3 : 3 <= ids_count first l).
    { rewrite (ids_count_perm first _ _ Hpg), Hg. cbn [app].
      rewrite !ids_count_cons, Z.eqb_refl.
      pose proof (ids_count_nonneg first (List.concat others)). lia. }
    apply Z.leb_le in H3. rewrite H3.
    destruct (pung_removals first l) as (n & Hr & Hn); [now apply Z.leb_le|].
    rewrite Hr.
    rewrite (Hrec n first first first Hg Hn
               (remove_three_sorted _ _ _ _ _ Hs Hr)).
    reflexivity.
  - (* the least id starts a chow *)
    assert (Ha : In a l).
    { eapply Permutation_in; [symmetry; exact Hpg|].
      apply in_or_app. left. subst g. now left. }
    assert (a = first).
    { pose proof (Hmin a Ha). subst g. cbn in Hfg. lia. }
    subst a.
    assert (H1 : z_in (first + 1) l = true).
    { apply z_in_count, In_ids_count.
      eapply Permutation_in; [symmetry; exact Hpg|].
      apply in_or_app. left. subst g. right. now left. }
    assert (H2 : z_in (first + 2) l = true).
    { apply z_in_count, In_ids_count.
      eapply Permutation_in; [symmetry; exact Hpg|].
      apply in_or_app. left. subst g. right. right. now left. }
    destruct (chow_removals first l H0 H1 H2) as (n & Hr & Hn).
    assert (Hchow : can_form_sets_at depth n = Some (Ok true)).
    { exact (Hrec n first (first + 1) (first + 2) Hg Hn
               (remove_three_sorted _ _ _ _ _ Hs Hr)). }
    assert (Hpung : exists b,
               (if 3 <=? ids_count first l then
                  match rbind (ids_remove first l) (fun l1 =>
                        rbind (ids_remove first l1) (ids_remove first)) with
                  | Raise e => Some (Raise e)
                  | Ok new_ids => can_form_sets_at depth new_ids
                  end
                else Some (Ok false)) = Some (Ok b)).
    { destruct (Z.leb_spec 3 (ids_count first l)) as [H3|H3]; [|eauto].
      destruct (pung_removals first l H3) as (n' & -> & Hp').
      apply can_form_sets_at_returns. apply perm_length3 in Hp'. lia. }
    destruct Hpung as ([|] & ->); [reflexivity|].
    apply Z.leb_le in H26. rewrite H26. cbv zeta.
    rewrite H1, H2. cbn [andb]. rewrite Hr. exact Hchow.
Qed.

(** X9. [can_form_sets] returns on every list of ids (it neither raises
    nor exhausts a recursion depth above the length of the list), and
    accepts only lists that split into sets of three: three equal ids, or
    three consecutive ids starting at 26 or below.  An accepted list has a
    multiple of three ids. *)
Theorem can_form_sets_accepts_only_sets (tile_ids : list Z) :
  exists b, can_form_sets tile_ids = Some (Ok b)
            /\ (b = true -> splits_into_sets tile_ids
                            /\ (List.length tile_ids mod 3 = 0)%nat).
Proof.
  destruct (can_form_sets_at_returns (S (List.length tile_ids)) tile_ids)
    as (b & Hb); [lia|].
  exists b. split; [exact Hb|]. intros ->.
  pose proof (can_form_sets_at_sound _ _ Hb) as Hs.
  split; [exact Hs|].
  destruct Hs as (groups & Hp & Hall).
  rewrite (Permutation_length Hp).
  assert (H3 : List.length (List.concat groups) = (List.length groups * 3)%nat).
  { clear Hp Hb. induction Hall as [|g groups (a & [->|[_ ->]]) _ IH];
      [reflexivity| |]; cbn [List.concat app List.length]; rewrite IH; lia. }
  rewrite H3. apply Nat.Div0.mod_mul.
Qed.

(** X10. On ids in ascending order [can_form_sets] decides whether the
    list splits into sets of three: it accepts exactly the lists that
    do. *)
Theorem can_form_sets_decides_sorted (tile_ids : list Z) :
  ascending tile_ids = true ->
  (can_form_sets tile_ids = Some (Ok true) <-> splits_into_sets tile_ids).
Proof.
  intros Hasc. apply ascending_sorted in Hasc. split.
  - apply can_form_sets_at_sound.
  - intros Hs. apply can_form_sets_at_complete; [lia|exact Hasc|exact Hs].
Qed.

(** Out of order a split can be missed, and runs are accepted across
    suits (8, 9, 10) and into the winds (26, 27, 28). *)
Lemma can_form_sets_misses_unsorted :
  can_form_sets [1; 0; 2] = Some (Ok false)
  /\ splits_into_sets [1; 0; 2]
  /\ can_form_sets [0; 1; 2] = Some (Ok true)
  /\ can_form_sets [8; 9; 10] = Some (Ok true)
  /\ can_form_sets [26; 27; 28] = Some (Ok true).
Proof.
  repeat split; try reflexivity.
  exists [[0; 1; 2]]. split.
  - cbn. apply perm_swap.
  - constructor; [|constructor]. exists 0. right. split; [lia|reflexivity].
Qed.

Lemma on_draw_tile_repeats_witness :
  (3 <= List.length (remaining_deck (game_state Scenario.pong_window)))%nat
  /\ remaining_deck
       (game_state
          (snd (fst (times 3 (on_draw_tile "AI_Player_1") Scenario.pong_window))))
     = Scenario.tiles_of [26; 27]
  /\ current_turn
       (game_state
          (snd (fst (times 3 (on_draw_tile "AI_Player_1") Scenario.pong_window))))
     = "east".
Proof.
  assert (Hk : (3 <= List.length (remaining_deck (game_state Scenario.pong_window)))%nat)
    by (simpl; lia).
  split; [exact Hk|].
  destruct (on_draw_tile_repeats 3 Scenario.pong_window "AI_Player_1" "east"
              Scenario.east_hand eq_refl eq_refl eq_refl Hk)
    as (_ & Hdeck & _ & Hturn & _).
  split; [exact Hdeck|exact Hturn].
Defined.

Lemma on_discard_tile_moves_tile_witness :
  In (mkTile 6) Scenario.east_hand
  /\ last_discard
       (game_state (snd (fst (on_discard_tile "AI_Player_1" 6 Scenario.pong_window))))
     = Some (mkTile 6)
  /\ current_turn
       (game_state (snd (fst (on_discard_tile "AI_Player_1" 6 Scenario.pong_window))))
     = "south".
Proof.
  assert (Hin : In (mkTile 6) Scenario.east_hand) by (simpl; auto).
  assert (Hseat : In "east" POSITIONS) by (simpl; auto).
  split; [exact Hin|].
  destruct (on_discard_tile_moves_tile Scenario.pong_window "AI_Player_1" "east"
              Scenario.east_hand 6 eq_refl eq_refl Hseat eq_refl Hin)
    as (hand' & next & rest & _ & _ & _ & _ & Hld & Hnext & Hturn & _).
  split; [exact Hld|].
  rewrite Hturn. vm_compute in Hnext. injection Hnext as <-. reflexivity.
Defined.

Lemma refused_requests_change_nothing_witness :
  current_turn (game_state Scenario.pong_window) <> "north"
  /\ on_draw_tile "alice" Scenario.pong_window
     = (Ok tt, Scenario.pong_window, [error "It's not your turn."]).
Proof.
  assert (Hturn : current_turn (game_state Scenario.pong_window) <> "north")
    by discriminate.
  split; [exact Hturn|].
  destruct (refused_requests_change_nothing Scenario.pong_window "alice" "north" 0
              eq_refl (or_introl Hturn)) as (_ & Hdraw).
  exact (Hdraw Hturn).
Defined.

Lemma on_check_meld_agrees_with_claim_witness :
  exists options,
    on_check_meld Scenario.pong_window "AI_Player_1" = meld_options options
    /\ forall meld_type,
         ~ In meld_type options ->
         exists msg,
           on_claim_meld "AI_Player_1" meld_type Scenario.pong_window
           = (Ok tt, Scenario.pong_window, [error msg]).
Proof.
  destruct (on_check_meld_agrees_with_claim Scenario.pong_window "AI_Player_1"
              "east" (mkTile 5) eq_refl ltac:(discriminate) eq_refl)
    as (options & Hrun & H).
  exists options. split; [exact Hrun|].
  intros mt. exact (proj2 (H mt)).
Defined.

Lemma discarder_can_claim_own_discard_witness :
  3 <= count_id Play.triplet_hand (mkTile 6)
  /\ current_turn
       (game_state
          (snd (fst (on_claim_meld "AI_Player_1" "pong"
                       (snd (fst (on_discard_tile "AI_Player_1" 6
                                                  Play.east_triplet)))))))
     = "east".
Proof.
  assert (Hc : 3 <= count_id Play.triplet_hand (mkTile 6)) by (vm_compute; discriminate).
  assert (Hseat : In "east" POSITIONS) by (simpl; auto).
  split; [exact Hc|].
  destruct (discarder_can_claim_own_discard Play.east_triplet "AI_Player_1" "east"
              Play.triplet_hand 6 eq_refl eq_refl Hseat eq_refl Hc)
    as (hand' & _ & _ & _ & _ & _ & Hturn & _).
  exact Hturn.
Defined.

Lemma ai_discard_tile_picks_least_useful_witness :
  Scenario.east_hand <> []
  /\ exists t,
       In t Scenario.east_hand
       /\ last_discard
            (game_state (snd (fst (ai_discard_tile "AI_Player_1" Scenario.pong_window))))
          = Some t.
Proof.
  assert (Hne : Scenario.east_hand <> []) by discriminate.
  assert (Hseat : In "east" POSITIONS) by (simpl; auto).
  split; [exact Hne|].
  destruct (ai_discard_tile_picks_least_useful Scenario.pong_window "AI_Player_1"
              "east" Scenario.east_hand eq_refl eq_refl Hseat) as (_ & H).
  destruct (H Hne) as (t & hand' & next & rest & Hin & _ & _ & _ & _ & _ & _ & Hld & _).
  exists t. split; [exact Hin|exact Hld].
Defined.

Lemma can_form_sets_decides_sorted_witness :
  ascending [0; 0; 0; 1; 2; 3] = true
  /\ (can_form_sets [0; 0; 0; 1; 2; 3] = Some (Ok true)
      <-> splits_into_sets [0; 0; 0; 1; 2; 3]).
Proof.
  split; [reflexivity|].
  exact (can_form_sets_decides_sorted [0; 0; 0; 1; 2; 3] eq_refl).
Defined.

(** X11. [deal_tiles] serves east, south, west and north in turn, thirteen
    times, then gives north one tile more: from a deck of at least 53
    tiles east receives the tiles at positions 0, 4, ..., 48, south those
    at 1, 5, ..., west those at 2, 6, ..., north those at 3, 7, ..., 51
    and the tile at 52 (13, 13, 13 and 14 tiles), and the deck is left
    with the tiles from position 53 on.  On a shorter deck it raises
    [IndexError], having emptied the deck. *)
Theorem deal_tiles_serves_seats_in_turn (deck : list Tile) :
  ((53 <= List.length deck)%nat ->
   Mahjong.deal_tiles deck
   = (Ok [("east", every_fourth deck 0 13);
          ("south", every_fourth deck 1 13);
          ("west", every_fourth deck 2 13);
          ("north", (every_fourth deck 3 13 ++ firstn 1 (skipn 52 deck))%list)],
      skipn 53 deck)
   /\ List.length (every_fourth deck 0 13) = 13%nat
   /\ List.length (every_fourth deck 1 13) = 13%nat
   /\ List.length (every_fourth deck 2 13) = 13%nat
   /\ List.length (every_fourth deck 3 13 ++ firstn 1 (skipn 52 deck))%list
      = 14%nat
   /\ List.length (skipn 53 deck) = (List.length deck - 53)%nat)
  /\ ((List.length deck < 53)%nat ->
      Mahjong.deal_tiles deck
      = (Raise (IndexError "pop from empty list"), [])).
Proof.
  split.
  - intros H. split; [|split; [|split; [|split; [|split]]]];
      try apply length_skipn;
      do 53 (destruct deck as [|? deck]; [simpl in H; lia|]);
      reflexivity.
  - intros H.
    do 53 (destruct deck as [|? deck]; [reflexivity|]).
    simpl in H. lia.
Qed.

Lemma firstn_plus {A} (n m : nat) : forall l : list A,
  firstn (n + m) l = (firstn n l ++ firstn m (skipn n l))%list.
Proof.
  induction n as [|n IH]; intros l; [reflexivity|].
  destruct l as [|x l]; [cbn; now rewrite firstn_nil|].
  cbn. now rewrite IH.
Qed.

Lemma slices_join {A} (deck : list A) (a b c : nat) :
  (a <= b)%nat -> (b <= c)%nat ->
  (MahjongMaster.slice deck a b ++ MahjongMaster.slice deck b c)%list = MahjongMaster.slice deck a c.
Proof.
  intros Hab Hbc. unfold MahjongMaster.slice.
  replace (c - a)%nat with ((b - a) + (c - b))%nat by lia.
  rewrite firstn_plus. f_equal.
  rewrite skipn_skipn. f_equal. f_equal. lia.
Qed.

(** X12. [deal_tiles] of the second copy cuts the deck into consecutive
    slices and never raises: east, south, west, north and the remainder,
    joined in that order, are the deck itself, whatever its length, and a
    seat gets fewer tiles than 14 or 13 when the deck runs out.  With the
    27-tile deck of [create_deck] from the same module, east gets 14
    tiles, south 13, and west, north and the remainder are empty. *)
Theorem master_deal_tiles_cuts_the_deck (deck : list Tile) :
  (exists east south west north remaining,
      MahjongMaster.deal_tiles deck
      = ([("east", east); ("south", south); ("west", west); ("north", north)],
         remaining)
      /\ (east ++ south ++ west ++ north ++ remaining)%list = deck
      /\ List.length east = Nat.min 14 (List.length deck)
      /\ List.length south = Nat.min 13 (List.length deck - 14)
      /\ List.length west = Nat.min 13 (List.length deck - 27)
      /\ List.length north = Nat.min 13 (List.length deck - 40))
  /\ MahjongMaster.deal_tiles MahjongMaster.create_deck
     = ([("east", map mkTile (Mahjong.range 0 14));
         ("south", map mkTile (Mahjong.range 14 13));
         ("west", []); ("north", [])], []).
Proof.
  split; [|reflexivity].
  unfold MahjongMaster.deal_tiles. cbv zeta.
  do 5 eexists. split; [reflexivity|]. split.
  - rewrite !app_assoc.
    rewrite (slices_join deck 0 14 27), (slices_join deck 0 27 40),
      (slices_join deck 0 40 53) by lia.
    unfold MahjongMaster.slice. cbn [skipn Nat.sub]. apply firstn_skipn.
  - unfold MahjongMaster.slice.
    rewrite !length_firstn, !length_skipn. cbn [Nat.sub]. repeat split; lia.
Qed.

Lemma main_name_unknown (n : Z) :
  n < 0 \/ 41 < n -> Mahjong.name (mkTile n) = "Unknown".
Proof.
  intros H. unfold Mahjong.name, Mahjong.TILE_NAMES. cbn [id Mahjong.table_get].
  repeat match goal with
         | |- context [n =? ?c] => destruct (Z.eqb_spec n c); [lia|]
         end.
  reflexivity.
Qed.

(** X13. The two copies of [Tile] agree on the suit of a tile exactly for
    the suited ids 0 to 26, and on its name exactly for the same ids: on
    every other id (winds, dragons, bonus tiles, ids outside the
    catalogue) the second copy gives one of the three suits and a numbered
    name where the first gives another suit and another name. *)
Theorem tile_attributes_agree_on_suited_ids (t : Tile) :
  (MahjongMaster.suit t = Mahjong.suit t <-> 0 <= id t <= 26)
  /\ (MahjongMaster.name t = Mahjong.name t <-> 0 <= id t <= 26).
Proof.
  assert (Hin : 0 <= id t <= 26 ->
                MahjongMaster.suit t = Mahjong.suit t
                /\ MahjongMaster.name t = Mahjong.name t).
  { intros H. destruct t as [n]. cbn [id] in H.
    assert (I : In n (Mahjong.range 0 27)) by (apply range_In; lia).
    assert (F : forallb (fun k =>
                  String.eqb (MahjongMaster.suit (mkTile k)) (Mahjong.suit (mkTile k))
                  && String.eqb (MahjongMaster.name (mkTile k))
                                (Mahjong.name (mkTile k)))
                  (Mahjong.range 0 27) = true) by (vm_compute; reflexivity).
    rewrite forallb_forall in F. apply F in I.
    apply andb_true_iff in I as [I1 I2].
    apply String.eqb_eq in I1, I2. auto. }
  split; (split; [|intros H; apply (Hin H)]).
  - intros Hs. unfold Mahjong.suit in Hs.
    destruct (get_suit_cases (id t))
      as [H|[H|[H|[H|[H|[H|H]]]]]]; destruct H as (Hr & E & _);
      try lia; exfalso; rewrite E in Hs; revert Hs; unfold MahjongMaster.suit;
      destruct (id t <? 9); try discriminate;
      destruct (id t <? 18); discriminate.
  - intros Hn. destruct t as [n]. cbn [id] in *.
    destruct (Z.ltb_spec n 0) as [Hneg|Hpos].
    { exfalso. rewrite main_name_unknown in Hn by lia.
      revert Hn. unfold MahjongMaster.name, MahjongMaster.suit. cbn [id].
      destruct (n <? 9); [discriminate|].
      destruct (n <? 18); discriminate. }
    destruct (Z.ltb_spec 41 n) as [Hbig|Hsmall].
    { exfalso. rewrite main_name_unknown in Hn by lia.
      revert Hn. unfold MahjongMaster.name, MahjongMaster.suit. cbn [id].
      destruct (n <? 9); [discriminate|].
      destruct (n <? 18); discriminate. }
    destruct (Z.leb_spec n 26) as [Hok|Hhonor]; [lia|]. exfalso.
    assert (I : In n (Mahjong.range 27 15)) by (apply range_In; lia).
    assert (F : forallb (fun k =>
                  negb (String.eqb (MahjongMaster.name (mkTile k))
                                   (Mahjong.name (mkTile k))))
                  (Mahjong.range 27 15) = true) by (vm_compute; reflexivity).
    rewrite forallb_forall in F. apply F in I.
    apply negb_true_iff, String.eqb_neq in I. contradiction.
Qed.

(* ===================================================================== *)
(** ** The second engine: actions and the evaluation cache *)
(* ===================================================================== *)

Lemma insert_sorted_comm (x y : Z) (l : list Z) :
  MctsMaster.insert_sorted x (MctsMaster.insert_sorted y l)
  = MctsMaster.insert_sorted y (MctsMaster.insert_sorted x l).
Proof.
  induction l as [|z l IH]; cbn [MctsMaster.insert_sorted].
  - destruct (Z.leb_spec x y), (Z.leb_spec y x); try reflexivity; try lia.
    now replace x with y by lia.
  - destruct (Z.leb_spec y z), (Z.leb_spec x z);
      cbn [MctsMaster.insert_sorted];
      repeat match goal with
             | |- context [?a <=? ?b] => destruct (Z.leb_spec a b); try lia
             end;
      try reflexivity.
    + now replace x with y by lia.
    + now rewrite IH.
Qed.

Lemma state_key_perm (hand hand' : list Tile) :
  Permutation hand hand' -> MctsMaster.state_key hand = MctsMaster.state_key hand'.
Proof.
  unfold MctsMaster.state_key. intros H. induction H; cbn [map fold_right].
  - reflexivity.
  - now rewrite IHPermutation.
  - apply insert_sorted_comm.
  - congruence.
Qed.

Lemma key_eqb_refl (k : list Z) : MctsMaster.key_eqb k k = true.
Proof. induction k as [|x k IH]; [reflexivity|]. cbn. now rewrite Z.eqb_refl. Qed.

Section MasterCache.
Variable fl : FloatOps.
Variable Rng : Type.

Local Abbreviation World := (MctsMaster.World fl Rng).
Local Abbreviation heap := (MctsMaster.heap fl Rng).
Local Abbreviation cache := (MctsMaster.cache fl Rng).
Local Abbreviation Done := (@MctsMaster.Done).

Lemma cache_lookup_store (k : list Z) (v : F fl) (c : list (list Z * F fl)) :
  MctsMaster.cache_lookup fl k (MctsMaster.cache_store fl k v c) = Some v.
Proof.
  induction c as [|[k' v'] c IH]; cbn.
  - now rewrite key_eqb_refl.
  - destruct (MctsMaster.key_eqb k k') eqn:E; cbn; rewrite E; auto.
Qed.

Lemma cache_store_length (k : list Z) (v : F fl) (c : list (list Z * F fl)) :
  (List.length c <= List.length (MctsMaster.cache_store fl k v c)
   <= S (List.length c))%nat.
Proof.
  induction c as [|[k' v'] c IH]; cbn; [lia|].
  destruct (MctsMaster.key_eqb k k'); cbn; lia.
Qed.

(** What [_evaluate_state] does on a state with a hand: the value it
    returns and the cache it leaves. *)
Lemma evaluate_state_run (self : MctsMaster.MCTS fl) (state : Val) (w : World)
      (hand : list Tile) :
  tiles_at (heap w) state "current_hand" = Ok hand ->
  let k := MctsMaster.state_key hand in
  let score := MctsMaster.clamp fl
                 (f_div fl (MctsMaster.evaluation_score fl hand) (f_of_int fl 10)) in
  MctsMaster._evaluate_state fl Rng self state w
  = match MctsMaster.cache_lookup fl k (cache w) with
    | Some v => (Done _ v, w)
    | None =>
        if MctsMaster.cache_size fl self <=? Z.of_nat (List.length (cache w)) then
          match cache w with
          | [] => (Done _ (f_of_int fl 0), w)
          | _ :: c' =>
              (Done _ score,
               MctsMaster.mkWorld fl Rng (heap w)
                 (MctsMaster.cache_store fl k score c') (MctsMaster.rng fl Rng w))
          end
        else
          (Done _ score,
           MctsMaster.mkWorld fl Rng (heap w)
             (MctsMaster.cache_store fl k score (cache w)) (MctsMaster.rng fl Rng w))
    end.
Proof.
  intros Hh k score.
  unfold MctsMaster._evaluate_state, MctsMaster._get_cached_evaluation,
    MctsMaster.bind, MctsMaster.current_hand, MctsMaster.heap_read.
  rewrite Hh. fold k.
  destruct (MctsMaster.cache_lookup fl k (cache w)) as [v|]; [reflexivity|].
  unfold MctsMaster.try_except, MctsMaster._cache_evaluation,
    MctsMaster.bind, MctsMaster.current_hand, MctsMaster.heap_read,
    MctsMaster.ret.
  rewrite !Hh. fold k. fold score.
  destruct (MctsMaster.cache_size fl self <=? Z.of_nat (List.length (cache w)));
    [destruct (cache w)|]; reflexivity.
Qed.

(** X15. The evaluation of a state is remembered under the tiles of its
    hand, in any order, and under nothing else: once [_evaluate_state] has
    returned a value for a state, it returns the same value, and changes
    nothing, for every state whose hand holds the same tiles, whatever the
    order of the tiles and whatever the rest of the state. *)
Theorem evaluate_state_repeats_by_hand (self : MctsMaster.MCTS fl)
        (state state' : Val) (w w1 : World) (hand hand' : list Tile) (v : F fl) :
  tiles_at (heap w) state "current_hand" = Ok hand ->
  MctsMaster._evaluate_state fl Rng self state w = (Done _ v, w1) ->
  tiles_at (heap w1) state' "current_hand" = Ok hand' ->
  Permutation hand hand' ->
  heap w1 = heap w
  /\ MctsMaster._evaluate_state fl Rng self state' w1 = (Done _ v, w1).
Proof.
  intros Hh Hrun Hh' Hperm.
  rewrite (evaluate_state_run self state w hand Hh) in Hrun.
  rewrite (evaluate_state_run self state' w1 hand' Hh').
  rewrite <- (state_key_perm hand hand' Hperm).
  cbv zeta in *.
  set (k := MctsMaster.state_key hand) in *.
  destruct (MctsMaster.cache_lookup fl k (cache w)) as [v0|] eqn:El.
  { injection Hrun as <- <-. rewrite El. auto. }
  destruct (MctsMaster.cache_size fl self <=? Z.of_nat (List.length (cache w)))
    eqn:Es.
  - destruct (cache w) as [|e c'] eqn:Ec.
    + injection Hrun as <- <-. rewrite Ec, El, Es. auto.
    + injection Hrun as <- <-. cbn. rewrite cache_lookup_store. auto.
  - injection Hrun as <- <-. cbn. rewrite cache_lookup_store. auto.
Qed.

(** X16. The cache never grows beyond [cache_size]: an evaluation that
    starts with at most [cache_size] entries ends with at most
    [cache_size] entries, the oldest entry making room for a new one.
    With [cache_size] 0 nothing is ever stored and every evaluation
    returns 0, since evicting from the empty cache raises inside the
    [try]. *)
Theorem evaluate_state_keeps_cache_bounded (self : MctsMaster.MCTS fl)
        (state : Val) (w : World) (hand : list Tile) :
  tiles_at (heap w) state "current_hand" = Ok hand ->
  Z.of_nat (List.length (cache w)) <= MctsMaster.cache_size fl self ->
  let out := MctsMaster._evaluate_state fl Rng self state w in
  Z.of_nat (List.length (cache (snd out))) <= MctsMaster.cache_size fl self
  /\ heap (snd out) = heap w
  /\ (MctsMaster.cache_size fl self = 0 ->
      out = (Done _ (f_of_int fl 0), w)).
Proof.
  intros Hh Hle out. unfold out.
  rewrite (evaluate_state_run self state w hand Hh). cbv zeta.
  set (k := MctsMaster.state_key hand).
  set (score := MctsMaster.clamp fl _).
  destruct (MctsMaster.cache_lookup fl k (cache w)) as [v0|] eqn:El.
  { cbn [snd]. split; [exact Hle|]. split; [reflexivity|].
    intros Hz. exfalso.
    destruct (cache w); [discriminate|]. cbn [List.length] in Hle. lia. }
  destruct (Z.leb_spec (MctsMaster.cache_size fl self)
                       (Z.of_nat (List.length (cache w)))) as [Hfull|Hroom].
  - destruct (cache w) as [|e c'] eqn:Ec.
    + cbn [snd]. rewrite Ec. auto.
    + cbn [snd MctsMaster.cache MctsMaster.heap].
      pose proof (cache_store_length k score c') as Hl.
      cbn [List.length] in Hle, Hfull.
      split; [lia|]. split; [reflexivity|]. intros Hz. lia.
  - cbn [snd MctsMaster.cache MctsMaster.heap].
    pose proof (cache_store_length k score (cache w)) as Hl.
    split; [lia|]. split; [reflexivity|]. intros Hz. lia.
Qed.

(** X14. [_get_available_actions] offers a chi on every last discard,
    whatever the hand: the pair returned by [can_claim_chi] is tested as
    a condition, and a pair is true.  The other actions are a discard for
    each tile of the hand, a pong with two copies of the discard in hand
    and a kong with three. *)
Theorem master_always_offers_chi (state : Val) (w : World)
        (hand : list Tile) (ld : Tile) :
  tiles_at (heap w) state "current_hand" = Ok hand ->
  get_default (heap w) state "last_discard" = Ok (VTile ld) ->
  exists actions,
    MctsMaster._get_available_actions fl Rng state w = (Done _ actions, w)
    /\ In ("chi", ld) actions
    /\ (forall t, In ("discard", t) actions <-> In t hand)
    /\ (In ("pong", ld) actions <-> 2 <= count_id hand ld)
    /\ (In ("kong", ld) actions <-> 3 <= count_id hand ld)
    /\ len actions
       = len hand + 1
         + (if 2 <=? count_id hand ld then 1 else 0)
         + (if 3 <=? count_id hand ld then 1 else 0).
Proof.
  intros Hh Hld.
  unfold MctsMaster._get_available_actions, MctsMaster.try_except,
    MctsMaster.bind, MctsMaster.current_hand, MctsMaster.heap_read,
    MctsMaster.ret.
  rewrite Hh, Hld.
  unfold MahjongMaster.can_claim_pong, MahjongMaster.can_claim_kong,
    can_claim_pong, can_claim_kong.
  destruct (MahjongMaster.can_claim_chi hand ld) as [flag seq].
  eexists. split; [reflexivity|].
  set (D := map (fun t => ("discard", t)) hand).
  assert (Hd : forall a t, In (a, t) D <-> a = "discard" /\ In t hand).
  { intros a t. unfold D. rewrite in_map_iff. split.
    - intros (x & E & Hx). injection E as <- <-. auto.
    - intros [-> Hx]. exists t. auto. }
  assert (Hmem : forall a t,
             In (a, t)
                ((if 3 <=? count_id hand ld
                  then ((if 2 <=? count_id hand ld
                         then D ++ [("pong", ld)] else D) ++ [("chi", ld)])
                       ++ [("kong", ld)]
                  else (if 2 <=? count_id hand ld
                        then D ++ [("pong", ld)] else D) ++ [("chi", ld)])%list)
             <-> (a = "discard" /\ In t hand)
                 \/ (a = "pong" /\ t = ld /\ 2 <= count_id hand ld)
                 \/ (a = "chi" /\ t = ld)
                 \/ (a = "kong" /\ t = ld /\ 3 <= count_id hand ld)).
  { intros a t.
    destruct (Z.leb_spec 3 (count_id hand ld)) as [H3|H3];
      destruct (Z.leb_spec 2 (count_id hand ld)) as [H2|H2];
      rewrite ?in_app_iff, Hd; cbn [In]; split; intros H;
      repeat match goal with
             | H : _ \/ _ |- _ => destruct H as [H|H]
             | H : _ /\ _ |- _ => destruct H
             | H : (_, _) = (_, _) |- _ => injection H as <- <-
             | H : False |- _ => contradiction
             end; subst; try lia; auto 10. }
  split; [apply Hmem; auto 10|].
  split.
  { intros t. rewrite Hmem. split; [|auto].
    intros [H|[H|[H|H]]]; destruct H as [H ?]; [assumption|discriminate..]. }
  split.
  { rewrite Hmem. split; [|auto 10].
    intros [H|[H|[H|H]]]; destruct H as [H ?]; try discriminate. tauto. }
  split.
  { rewrite Hmem. split; [|auto 10].
    intros [H|[H|[H|H]]]; destruct H as [H ?]; try discriminate. tauto. }
  unfold len.
  destruct (Z.leb_spec 3 (count_id hand ld)) as [H3|H3];
    destruct (Z.leb_spec 2 (count_id hand ld)) as [H2|H2];
    rewrite ?length_app; unfold D; rewrite length_map; cbn [List.length]; lia.
Qed.
End MasterCache.

(* ===================================================================== *)
(** ** The second engine: random playouts on shared objects *)
(* ===================================================================== *)

Lemma grows_refl (h : Heap) : grows h h.
Proof.
  intros a. destruct (nth_error h a) as [[items|v|e]|] eqn:E; auto.
  - exists items. exact E.
  - exists e. auto.
Qed.

Lemma grows_trans (h1 h2 h3 : Heap) : grows h1 h2 -> grows h2 h3 -> grows h1 h3.
Proof.
  intros H12 H23 a. specialize (H12 a). specialize (H23 a).
  destruct (nth_error h1 a) as [[items|v|e]|]; auto.
  - destruct H12 as (i2 & E2). now rewrite E2 in H23.
  - now rewrite H12 in H23.
  - destruct H12 as (e2 & E2 & K2). rewrite E2 in H23.
    destruct H23 as (e3 & E3 & K3). exists e3. split; [exact E3|].
    intros k Hk. rewrite <- (K2 k Hk). apply K3.
    destruct Hk as [Hk|Hk]; [now left|right]. now rewrite (K2 k (or_intror Hk)).
Qed.

Lemma nth_alloc_old (h : Heap) (o : Obj) (a : nat) :
  (a < List.length h)%nat -> nth_error (h ++ [o])%list a = nth_error h a.
Proof. intros H. now apply nth_error_app1. Qed.

Lemma nth_alloc_new (h : Heap) (o : Obj) :
  nth_error (h ++ [o])%list (List.length h) = Some o.
Proof. rewrite nth_error_app2 by lia. now rewrite Nat.sub_diag. Qed.

Lemma nth_some_lt {A} (l : list A) (a : nat) (x : A) :
  nth_error l a = Some x -> (a < List.length l)%nat.
Proof. intros H. apply nth_error_Some. congruence. Qed.

Lemma grows_alloc (h : Heap) (o : Obj) : grows h (h ++ [o])%list.
Proof.
  intros a. destruct (nth_error h a) as [[items|v|e]|] eqn:E; auto;
    pose proof (nth_some_lt _ _ _ E) as Hlt.
  - exists items. now rewrite nth_alloc_old.
  - now rewrite nth_alloc_old.
  - exists e. rewrite nth_alloc_old by exact Hlt. auto.
Qed.

Lemma grows_set_list (h : Heap) (a : nat) (items : list Tile) :
  list_at h a -> grows h (list_set h a (OList items)).
Proof.
  intros (old & Ha) b.
  destruct (Nat.eq_dec a b) as [<-|Hne].
  - rewrite Ha. exists items. apply list_set_same. eapply nth_some_lt; eauto.
  - destruct (nth_error h b) as [[i|v|e]|] eqn:E; auto; unfold list_at;
      rewrite (list_set_other h a b) by congruence; eauto.
Qed.

Lemma grows_set_meld (h : Heap) (mr : nat) (me : dict Val) (k : string) (v : Val) :
  nth_error h mr = Some (ODict me) ->
  In k meld_keys -> dict_get k me = None ->
  grows h (list_set h mr (ODict (dict_set k v me))).
Proof.
  intros Hm Hk Hnone b.
  destruct (Nat.eq_dec mr b) as [<-|Hne].
  - rewrite Hm. exists (dict_set k v me). split.
    + apply list_set_same. eapply nth_some_lt; eauto.
    + intros k' Hk'. apply dict_get_set_other.
      intros ->. destruct Hk' as [Hk'|Hk']; contradiction.
  - destruct (nth_error h b) as [[i|v'|e]|] eqn:E; auto; unfold list_at;
      rewrite (list_set_other h mr b) by congruence; eauto.
Qed.

Lemma grows_list_at (h h' : Heap) (a : nat) :
  grows h h' -> list_at h a -> list_at h' a.
Proof. intros G (items & Ha). specialize (G a). now rewrite Ha in G. Qed.

Lemma master_state_grows (hr pr mr : nat) (h h' : Heap) (state : Val) :
  grows h h' -> master_state hr pr mr h state -> master_state hr pr mr h' state.
Proof.
  intros G (e & He & Hh & Hp & Hm & Hl).
  unfold entries_of in He. destruct state as [| | |s]; try discriminate.
  destruct (nth_error h s) as [[|?|e0]|] eqn:Es; try discriminate.
  injection He as ->.
  specialize (G s). rewrite Es in G. destruct G as (e' & Es' & K).
  assert (Hk : forall k, ~ In k meld_keys -> dict_get k e' = dict_get k e).
  { intros k Hk. apply K. now left. }
  exists e'. unfold entries_of. rewrite Es'. split; [reflexivity|].
  rewrite !Hk by (unfold meld_keys; cbn; intuition discriminate).
  auto.
Qed.

Lemma master_heap_grows (hr pr mr : nat) (h h' : Heap) :
  grows h h' -> master_heap hr pr mr h ->
  (forall me', nth_error h' mr = Some (ODict me') ->
               forall k v, In k meld_keys -> dict_get k me' = Some v ->
                           exists r, v = VRef r /\ r <> hr /\ list_at h' r) ->
  master_heap hr pr mr h'.
Proof.
  intros G (Hh & Hp & Hne & me & Hm & Hk) Hnew.
  split; [eapply grows_list_at; eauto|].
  split; [eapply grows_list_at; eauto|].
  split; [exact Hne|].
  pose proof (G mr) as Gm. rewrite Hm in Gm. destruct Gm as (me' & Hm' & _).
  exists me'. split; [exact Hm'|].
  intros k Hin. destruct (dict_get k me') as [v|] eqn:E; [|exact I].
  exact (Hnew me' Hm' k v Hin E).
Qed.

(** The melds dict keeps good entries when only old entries are left. *)
Lemma master_heap_grows_same_melds (hr pr mr : nat) (h h' : Heap) :
  grows h h' -> master_heap hr pr mr h ->
  (forall me, nth_error h mr = Some (ODict me) -> nth_error h' mr = Some (ODict me)) ->
  master_heap hr pr mr h'.
Proof.
  intros G MH Hsame. apply (master_heap_grows hr pr mr h h' G MH).
  destruct MH as (_ & _ & _ & me & Hm & Hk).
  intros me' Hm' k v Hin E.
  rewrite (Hsame me Hm) in Hm'. injection Hm' as <-.
  specialize (Hk k Hin). rewrite E in Hk.
  destruct Hk as (r & -> & Hr & Hl). exists r. split; [reflexivity|].
  split; [exact Hr|]. eapply grows_list_at; eauto.
Qed.

Lemma getitem_at (h : Heap) (s : nat) (e : dict Val) (k : string) (v : Val) :
  nth_error h s = Some (ODict e) -> dict_get k e = Some v ->
  getitem h (VRef s) k = Ok v.
Proof. intros Hs Hk. unfold getitem, entries_of, dict_index. rewrite Hs. cbn. now rewrite Hk. Qed.

Lemma items_at (h : Heap) (a : nat) (items : list Tile) :
  nth_error h a = Some (OList items) -> items_of h (VRef a) = Ok items.
Proof. intros H. unfold items_of. now rewrite H. Qed.

Lemma set_items_at (h : Heap) (a : nat) (old items : list Tile) :
  nth_error h a = Some (OList old) ->
  set_items h (VRef a) items = Ok (list_set h a (OList items)).
Proof. intros H. unfold set_items. now rewrite H. Qed.

Lemma append_at (h : Heap) (a : nat) (items : list Tile) (x : Tile) :
  nth_error h a = Some (OList items) ->
  append h (VRef a) x = Ok (list_set h a (OList (items ++ [x])%list)).
Proof.
  intros H. unfold append. rewrite (items_at _ _ _ H). cbn.
  apply (set_items_at _ _ _ _ H).
Qed.

Lemma contains_at (h : Heap) (s : nat) (e : dict Val) (k : string) :
  nth_error h s = Some (ODict e) ->
  contains h (VRef s) k = Ok (str_in k (dict_keys e)).
Proof. intros H. unfold contains, entries_of. now rewrite H. Qed.

Lemma setitem_at (h : Heap) (s : nat) (e : dict Val) (k : string) (v : Val) :
  nth_error h s = Some (ODict e) ->
  setitem h (VRef s) k v = Ok (list_set h s (ODict (dict_set k v e))).
Proof. intros H. unfold setitem. now rewrite H. Qed.

Lemma dict_copy_at (h : Heap) (s : nat) (e : dict Val) :
  nth_error h s = Some (ODict e) ->
  dict_copy h (VRef s) = Ok ((h ++ [ODict e])%list, VRef (List.length h)).
Proof. intros H. unfold dict_copy, entries_of. now rewrite H. Qed.

Lemma master_state_ref (hr pr mr : nat) (h : Heap) (state : Val) :
  master_state hr pr mr h state ->
  exists s e, state = VRef s /\ nth_error h s = Some (ODict e)
              /\ dict_get "current_hand" e = Some (VRef hr)
              /\ dict_get "discard_pile" e = Some (VRef pr)
              /\ dict_get "melds" e = Some (VRef mr)
              /\ match dict_get "last_discard" e with
                 | None | Some VNone | Some (VTile _) => True
                 | Some _ => False
                 end.
Proof.
  intros (e & He & H). unfold entries_of in He.
  destruct state as [| | |s]; try discriminate.
  destruct (nth_error h s) as [[|?|e0]|] eqn:Es; try discriminate.
  injection He as ->. exists s, e. auto.
Qed.

Lemma master_state_at (hr pr mr : nat) (h : Heap) (s : nat) (e : dict Val) :
  nth_error h s = Some (ODict e) ->
  dict_get "current_hand" e = Some (VRef hr) ->
  dict_get "discard_pile" e = Some (VRef pr) ->
  dict_get "melds" e = Some (VRef mr) ->
  match dict_get "last_discard" e with
  | None | Some VNone | Some (VTile _) => True
  | Some _ => False
  end ->
  master_state hr pr mr h (VRef s).
Proof.
  intros Hs Hh Hp Hm Hl. exists e. unfold entries_of. rewrite Hs. auto.
Qed.

(** The hand of a search state. *)
Lemma master_state_hand (hr pr mr : nat) (h : Heap) (state : Val) :
  master_heap hr pr mr h -> master_state hr pr mr h state ->
  exists hand, nth_error h hr = Some (OList hand)
               /\ tiles_at h state "current_hand" = Ok hand.
Proof.
  intros ((hand & Hh) & _) MS.
  destruct (master_state_ref _ _ _ _ _ MS) as (s & e & -> & Hs & Hc & _).
  exists hand. split; [exact Hh|].
  unfold tiles_at. rewrite (getitem_at _ _ _ _ _ Hs Hc). cbn.
  now apply items_at.
Qed.

Section Playout.
Variable fl : FloatOps.
Variable Rng : Type.
Variable random_next : Rng -> nat * Rng.
Variables hr pr mr : nat.

Local Abbreviation World := (MctsMaster.World fl Rng).
Local Abbreviation heap := (MctsMaster.heap fl Rng).
Local Abbreviation cache := (MctsMaster.cache fl Rng).
Local Abbreviation rng := (MctsMaster.rng fl Rng).
Local Abbreviation mkWorld := (MctsMaster.mkWorld fl Rng).
Local Abbreviation Done := (@MctsMaster.Done).
Local Abbreviation ebind := (@MctsMaster.bind fl Rng).

Lemma ebind_done {A B} (m : MctsMaster.E fl Rng A) (k : A -> MctsMaster.E fl Rng B)
      (w w1 : World) (a : A) :
  m w = (Done _ a, w1) -> MctsMaster.bind fl Rng m k w = k a w1.
Proof. intros H. unfold MctsMaster.bind. now rewrite H. Qed.

Lemma heap_read_ok {A} (f : Heap -> Res A) (w : World) (a : A) :
  f (heap w) = Ok a -> MctsMaster.heap_read fl Rng f w = (Done _ a, w).
Proof. intros H. unfold MctsMaster.heap_read. now rewrite H. Qed.

Lemma heap_write_ok (f : Heap -> Res Heap) (w : World) (h' : Heap) :
  f (heap w) = Ok h' ->
  MctsMaster.heap_write fl Rng f w = (Done _ tt, mkWorld h' (cache w) (rng w)).
Proof. intros H. unfold MctsMaster.heap_write. now rewrite H. Qed.

Lemma heap_new_ok (f : Heap -> Res (Heap * Val)) (w : World) (h' : Heap) (v : Val) :
  f (heap w) = Ok (h', v) ->
  MctsMaster.heap_new fl Rng f w = (Done _ v, mkWorld h' (cache w) (rng w)).
Proof. intros H. unfold MctsMaster.heap_new. now rewrite H. Qed.

Lemma random_choice_ok {A} (l : list A) (w : World) :
  l <> [] ->
  exists x r, MctsMaster.random_choice fl Rng random_next l w
              = (Done _ x, mkWorld (heap w) (cache w) r)
              /\ In x l.
Proof.
  intros Hne. unfold MctsMaster.random_choice.
  destruct l as [|y l]; [contradiction|].
  destruct (random_next (rng w)) as [i r].
  set (L := y :: l) in *.
  destruct (nth_error L (i mod List.length L)) as [x|] eqn:E.
  - exists x, r. split; [reflexivity|]. eapply nth_error_In; eauto.
  - exfalso. apply nth_error_None in E.
    assert (i mod List.length L < List.length L)%nat
      by (apply Nat.mod_upper_bound; unfold L; cbn; lia).
    lia.
Qed.

(** On a search state the available actions are computed without error,
    and there is one as long as the hand holds a tile. *)
Lemma available_actions_ok (state : Val) (w : World) (hand : list Tile) :
  master_state hr pr mr (heap w) state ->
  tiles_at (heap w) state "current_hand" = Ok hand ->
  exists actions,
    MctsMaster._get_available_actions fl Rng state w = (Done _ actions, w)
    /\ (actions = [] -> hand = []).
Proof.
  intros MS Hh.
  destruct (master_state_ref _ _ _ _ _ MS) as (s & e & -> & Hs & _ & _ & _ & Hl).
  unfold MctsMaster._get_available_actions, MctsMaster.try_except,
    MctsMaster.bind, MctsMaster.current_hand, MctsMaster.heap_read,
    MctsMaster.ret.
  rewrite Hh. unfold get_default, entries_of. rewrite Hs. cbn [rbind].
  destruct (dict_get "last_discard" e) as [[| |ld|]|]; try contradiction.
  - eexists. split; [reflexivity|]. destruct hand; [reflexivity|discriminate].
  - destruct (MahjongMaster.can_claim_chi hand ld) as [flag seq].
    eexists. split; [reflexivity|].
    intros E. exfalso.
    destruct (MahjongMaster.can_claim_kong hand ld);
      repeat match type of E with
             | (_ ++ [_])%list = [] => apply app_eq_nil in E as [_ E]; discriminate E
             end.
  - eexists. split; [reflexivity|]. destruct hand; [reflexivity|discriminate].
Qed.

Lemma is_terminal_ok (state : Val) (w : World) (hand : list Tile) :
  tiles_at (heap w) state "current_hand" = Ok hand ->
  MctsMaster._is_terminal_state fl Rng state w
  = (Done _ (Nat.eqb (List.length hand) 0), w).
Proof.
  intros Hh. unfold MctsMaster._is_terminal_state, MctsMaster.bind,
    MctsMaster.current_hand, MctsMaster.heap_read, MctsMaster.ret.
  now rewrite Hh.
Qed.

(** [_apply_action] on a search state: it returns a new state dict over
    the same objects and never raises. *)
Lemma apply_action_ok (state : Val) (action : MctsMaster.Action) (w : World) :
  master_heap hr pr mr (heap w) ->
  master_state hr pr mr (heap w) state ->
  exists state' w',
    MctsMaster._apply_action fl Rng state action w = (Done _ state', w')
    /\ grows (heap w) (heap w')
    /\ master_heap hr pr mr (heap w')
    /\ master_state hr pr mr (heap w') state'
    /\ cache w' = cache w
    /\ (nth_error (heap w) hr = Some (OList []) ->
        nth_error (heap w') hr = Some (OList [])).
Proof.
  intros MH MS.
  destruct (master_state_ref _ _ _ _ _ MS) as (s & e & -> & Hs & Hc & Hp & Hm & Hl).
  destruct MH as ((hand & Hhand) & (pile & Hpile) & Hne & me & Hme & Hkeys).
  set (h := heap w) in *. set (n := List.length h).
  assert (Ls : (s < n)%nat) by (eapply nth_some_lt; eauto).
  assert (Lh : (hr < n)%nat) by (eapply nth_some_lt; eauto).
  assert (Lp : (pr < n)%nat) by (eapply nth_some_lt; eauto).
  assert (Lm : (mr < n)%nat) by (eapply nth_some_lt; eauto).
  assert (Nmh : mr <> hr) by (intros ->; congruence).
  assert (Nmp : mr <> pr) by (intros ->; congruence).
  destruct action as [action_type tile].
  set (h1 := (h ++ [ODict e])%list).
  assert (G1 : grows h h1) by apply grows_alloc.
  assert (H1n : nth_error h1 n = Some (ODict e)) by apply nth_alloc_new.
  assert (H1h : nth_error h1 hr = Some (OList hand))
    by (unfold h1; rewrite nth_alloc_old; assumption).
  set (hand' := MctsMaster.pop_first tile hand).
  set (h2 := list_set h1 hr (OList hand')).
  assert (G2 : grows h1 h2) by (apply grows_set_list; eexists; exact H1h).
  assert (H2n : nth_error h2 n = Some (ODict e)).
  { unfold h2. rewrite list_set_other by lia. exact H1n. }
  assert (H2p : nth_error h2 pr = Some (OList pile)).
  { unfold h2. rewrite list_set_other by congruence.
    unfold h1. rewrite nth_alloc_old; assumption. }
  assert (H2m : nth_error h2 mr = Some (ODict me)).
  { unfold h2. rewrite list_set_other by congruence.
    unfold h1. rewrite nth_alloc_old; assumption. }
  assert (MS1 : master_state hr pr mr h1 (VRef n))
    by (eapply master_state_at; eauto).
  assert (H2h : nth_error h2 hr = Some (OList hand')).
  { unfold h2. apply list_set_same. unfold h1. rewrite length_app. lia. }
  assert (Hempty : nth_error h hr = Some (OList []) -> hand' = []).
  { intros E. rewrite Hhand in E. injection E as ->. reflexivity. }
  assert (MH0 : master_heap hr pr mr h).
  { split; [eexists; eauto|]. split; [eexists; eauto|]. split; [exact Hne|].
    exists me. auto. }
  unfold MctsMaster._apply_action, MctsMaster.try_except.
  erewrite ebind_done
    by (apply heap_new_ok; fold h; apply (dict_copy_at _ _ _ Hs)).
  fold n. fold h1.
  destruct (String.eqb action_type "discard") eqn:Ed.
  { (* discard *)
    erewrite ebind_done
      by (apply heap_read_ok; cbn [MctsMaster.heap];
          apply (getitem_at _ _ _ _ _ H1n Hc)).
    erewrite ebind_done
      by (apply heap_read_ok; cbn [MctsMaster.heap]; apply (items_at _ _ _ H1h)).
    erewrite ebind_done
      by (apply heap_write_ok; cbn [MctsMaster.heap];
          apply (set_items_at _ _ _ _ H1h)).
    fold hand'. fold h2.
    erewrite ebind_done
      by (apply heap_read_ok; cbn [MctsMaster.heap];
          apply (getitem_at _ _ _ _ _ H2n Hp)).
    erewrite ebind_done
      by (apply heap_write_ok; cbn [MctsMaster.heap];
          apply (append_at _ _ _ _ H2p)).
    cbn [MctsMaster.cache MctsMaster.rng].
    unfold MctsMaster.ret.
    set (h3 := list_set h2 pr (OList (pile ++ [tile])%list)).
    assert (G3 : grows h2 h3) by (apply grows_set_list; eexists; exact H2p).
    assert (G : grows h h3) by (eapply grows_trans; [|eapply grows_trans]; eauto).
    eexists _, _. split; [reflexivity|]. cbn [MctsMaster.heap MctsMaster.cache].
    split; [exact G|]. split; [|split; [|split; [reflexivity|]]].
    - apply (master_heap_grows_same_melds hr pr mr h h3 G MH0).
      intros me0 Hme0. rewrite Hme in Hme0. injection Hme0 as <-.
      unfold h3. rewrite list_set_other by congruence. exact H2m.
    - eapply master_state_grows; [|exact MS1].
      eapply grows_trans; eauto.
    - intros E. unfold h3. rewrite list_set_other by congruence.
      rewrite H2h, (Hempty E). reflexivity. }
  destruct (str_in action_type ["pong"; "chi"; "kong"]) eqn:Em.
  2:{ (* any other action type *)
    unfold MctsMaster.ret.
    eexists _, _. split; [reflexivity|]. cbn [MctsMaster.heap MctsMaster.cache].
    split; [exact G1|]. split; [|split; [exact MS1|split; [reflexivity|]]].
    - apply (master_heap_grows_same_melds hr pr mr h h1 G1 MH0).
      intros me0 Hme0. unfold h1. rewrite nth_alloc_old; assumption.
    - intros E. unfold h1. rewrite nth_alloc_old; assumption. }
  (* pong, chi, kong *)
  assert (Hin : In action_type meld_keys) by (apply str_in_In; exact Em).
  erewrite ebind_done
    by (apply heap_read_ok; cbn [MctsMaster.heap];
        apply (getitem_at _ _ _ _ _ H1n Hc)).
  erewrite ebind_done
    by (apply heap_read_ok; cbn [MctsMaster.heap]; apply (items_at _ _ _ H1h)).
  erewrite ebind_done
    by (apply heap_write_ok; cbn [MctsMaster.heap];
        apply (set_items_at _ _ _ _ H1h)).
  fold hand'. fold h2.
  erewrite ebind_done
    by (apply heap_read_ok; cbn [MctsMaster.heap];
        apply (getitem_at _ _ _ _ _ H2n Hm)).
  erewrite ebind_done
    by (apply heap_read_ok; cbn [MctsMaster.heap];
        apply (contains_at _ _ _ _ H2m)).
  cbn [MctsMaster.cache MctsMaster.rng].
  assert (G02 : grows h h2) by (eapply grows_trans; eauto).
  destruct (str_in action_type (dict_keys me)) eqn:Epresent.
  - (* the meld type has a list already *)
    apply dict_get_keys in Epresent.
    destruct (dict_get action_type me) as [v|] eqn:Ev; [|contradiction].
    pose proof (Hkeys action_type Hin) as Hv. rewrite Ev in Hv.
    destruct Hv as (r & -> & Hr & Lr).
    destruct (grows_list_at h h2 r G02 Lr) as (items & H2r).
    erewrite ebind_done by reflexivity.
    erewrite ebind_done
      by (apply heap_read_ok; cbn [MctsMaster.heap];
          apply (getitem_at _ _ _ _ _ H2m Ev)).
    erewrite ebind_done
      by (apply heap_write_ok; cbn [MctsMaster.heap];
          apply (append_at _ _ _ _ H2r)).
    cbn [MctsMaster.cache MctsMaster.rng]. unfold MctsMaster.ret.
    set (h3 := list_set h2 r (OList (items ++ [tile])%list)).
    assert (G3 : grows h2 h3) by (apply grows_set_list; eexists; exact H2r).
    assert (G : grows h h3) by (eapply grows_trans; eauto).
    eexists _, _. split; [reflexivity|]. cbn [MctsMaster.heap MctsMaster.cache].
    split; [exact G|]. split; [|split; [|split; [reflexivity|]]].
    + apply (master_heap_grows_same_melds hr pr mr h h3 G MH0).
      intros me0 Hme0. rewrite Hme in Hme0. injection Hme0 as <-.
      unfold h3. rewrite list_set_other; [exact H2m|].
      intros ->. congruence.
    + eapply master_state_grows; [|exact MS1]. eapply grows_trans; eauto.
    + intros E. unfold h3. rewrite list_set_other by congruence.
      rewrite H2h, (Hempty E). reflexivity.
  - (* a new list for the meld type *)
    assert (Ev : dict_get action_type me = None).
    { destruct (dict_get action_type me) eqn:E; [|reflexivity].
      assert (X : str_in action_type (dict_keys me) = true)
        by (apply dict_get_keys; congruence).
      congruence. }
    assert (L2 : List.length h2 = S n).
    { unfold h2. rewrite list_set_length. unfold h1. rewrite length_app.
      cbn. unfold n. lia. }
    set (h3 := (h2 ++ [OList []])%list).
    assert (H3m : nth_error h3 mr = Some (ODict me)).
    { unfold h3. rewrite nth_alloc_old by lia. exact H2m. }
    set (me' := dict_set action_type (VRef (S n)) me).
    set (h4 := list_set h3 mr (ODict me')).
    assert (H4m : nth_error h4 mr = Some (ODict me')).
    { unfold h4. apply list_set_same. unfold h3. rewrite length_app. lia. }
    assert (H4f : nth_error h4 (S n) = Some (OList [])).
    { unfold h4. rewrite list_set_other by lia.
      unfold h3. rewrite <- L2. apply nth_alloc_new. }
    set (h5 := list_set h4 (S n) (OList ([] ++ [tile])%list)).
    erewrite ebind_done.
    2:{ erewrite ebind_done
          by (apply heap_new_ok; cbn [MctsMaster.heap]; unfold alloc;
              rewrite L2; reflexivity).
        apply heap_write_ok. cbn [MctsMaster.heap]. fold h3.
        apply (setitem_at _ _ _ _ _ H3m). }
    fold me'. fold h4.
    erewrite ebind_done
      by (apply heap_read_ok; cbn [MctsMaster.heap];
          apply (getitem_at _ _ _ _ _ H4m); unfold me';
          apply dict_get_set_same).
    erewrite ebind_done
      by (apply heap_write_ok; cbn [MctsMaster.heap];
          apply (append_at _ _ _ _ H4f)).
    cbn [MctsMaster.cache MctsMaster.rng]. unfold MctsMaster.ret. fold h5.
    assert (G3 : grows h2 h3) by apply grows_alloc.
    assert (G4 : grows h3 h4) by (apply grows_set_meld; assumption).
    assert (G5 : grows h4 h5) by (apply grows_set_list; eexists; exact H4f).
    assert (G : grows h h5).
    { eapply grows_trans; [exact G02|]. eapply grows_trans; [exact G3|].
      eapply grows_trans; eauto. }
    eexists _, _. split; [reflexivity|]. cbn [MctsMaster.heap MctsMaster.cache].
    split; [exact G|]. split; [|split; [|split; [reflexivity|]]].
    3:{ intros E. unfold h5. rewrite list_set_other by lia.
        unfold h4. rewrite list_set_other by congruence.
        unfold h3. rewrite nth_alloc_old by lia.
        rewrite H2h, (Hempty E). reflexivity. }
    + apply (master_heap_grows hr pr mr h h5 G MH0).
      intros me0 Hme0 k v Hk Hv.
      assert (H5m : nth_error h5 mr = Some (ODict me')).
      { unfold h5. rewrite list_set_other by lia. exact H4m. }
      rewrite H5m in Hme0. injection Hme0 as <-.
      destruct (String.eqb_spec action_type k) as [<-|Hd].
      * unfold me' in Hv. rewrite dict_get_set_same in Hv. injection Hv as <-.
        exists (S n). split; [reflexivity|]. split; [lia|].
        eexists. unfold h5. apply list_set_same.
        unfold h4. rewrite list_set_length. unfold h3. rewrite length_app.
        cbn. lia.
      * unfold me' in Hv. rewrite dict_get_set_other in Hv by exact Hd.
        pose proof (Hkeys k Hk) as Hold. rewrite Hv in Hold.
        destruct Hold as (r & -> & Hr & Lr). exists r.
        split; [reflexivity|]. split; [exact Hr|].
        eapply grows_list_at; eauto.
    + eapply master_state_grows; [|exact MS1].
      eapply grows_trans; [exact G2|]. eapply grows_trans; [exact G3|].
      eapply grows_trans; eauto.
Qed.

(** The playout loop on a search state: it does not raise, and when it
    returns the shared hand is empty. *)
Lemma playout_loop_ok (self : MctsMaster.MCTS fl) (fuel : nat) :
  forall (current_state : Val) (w : World),
    master_heap hr pr mr (heap w) ->
    master_state hr pr mr (heap w) current_state ->
    match MctsMaster.playout_loop fl Rng random_next self fuel current_state w with
    | (MctsMaster.Done final, w') =>
        grows (heap w) (heap w')
        /\ master_heap hr pr mr (heap w')
        /\ master_state hr pr mr (heap w') final
        /\ cache w' = cache w
        /\ nth_error (heap w') hr = Some (OList [])
    | (MctsMaster.Raised _, _) => False
    | (MctsMaster.OutOfFuel, _) => True
    end.
Proof.
  induction fuel as [|fuel IH]; intros cur w MH MS; [exact I|].
  cbn [MctsMaster.playout_loop].
  destruct (master_state_hand hr pr mr _ _ MH MS) as (hand & Hhr & Hhand).
  erewrite ebind_done by (apply is_terminal_ok; exact Hhand).
  destruct hand as [|t hand].
  { cbn [List.length Nat.eqb]. unfold MctsMaster.ret.
    split; [apply grows_refl|]. split; [exact MH|]. split; [exact MS|].
    split; [reflexivity|exact Hhr]. }
  cbn [List.length Nat.eqb].
  destruct (available_actions_ok cur w (t :: hand) MS Hhand)
    as (actions & Hact & Hnil).
  erewrite ebind_done by exact Hact.
  destruct actions as [|a actions]; [specialize (Hnil eq_refl); discriminate|].
  destruct (random_choice_ok (a :: actions) w ltac:(discriminate))
    as (x & r & Hchoice & _).
  erewrite ebind_done by exact Hchoice.
  set (w1 := mkWorld (heap w) (cache w) r).
  destruct (apply_action_ok cur x w1 MH MS)
    as (next & w2 & Happly & G2 & MH2 & MS2 & C2 & _).
  erewrite ebind_done by exact Happly.
  specialize (IH next w2 MH2 MS2).
  destruct (MctsMaster.playout_loop fl Rng random_next self fuel next w2)
    as [[final| |] w3]; auto.
  destruct IH as (G3 & MH3 & MS3 & C3 & E3).
  split; [eapply grows_trans; eauto|]. split; [exact MH3|].
  split; [exact MS3|]. split; [|exact E3].
  rewrite C3, C2. reflexivity.
Qed.

(** A playout on a search state: it never takes the [except] branch, and
    when it returns the shared hand is empty. *)
Lemma playout_ok (self : MctsMaster.MCTS fl) (fuel : nat)
      (state : Val) (w : World) :
  master_heap hr pr mr (heap w) ->
  master_state hr pr mr (heap w) state ->
  match MctsMaster._simulate_random_playout fl Rng random_next self fuel state w with
  | (MctsMaster.Done v, w') =>
      grows (heap w) (heap w')
      /\ master_heap hr pr mr (heap w')
      /\ nth_error (heap w') hr = Some (OList [])
      /\ v = empty_hand_value fl self (cache w)
  | (MctsMaster.Raised _, _) => False
  | (MctsMaster.OutOfFuel, _) => True
  end.
Proof.
  intros MH MS.
  destruct (master_state_ref _ _ _ _ _ MS) as (s & e & -> & Hs & Hc & Hp & Hm & Hl).
  set (h := heap w) in *. set (n := List.length h).
  set (h1 := (h ++ [ODict e])%list).
  set (w1 := mkWorld h1 (cache w) (rng w)).
  assert (G1 : grows h h1) by apply grows_alloc.
  assert (MS1 : master_state hr pr mr h1 (VRef n)).
  { eapply master_state_at; eauto. apply nth_alloc_new. }
  assert (MH1 : master_heap hr pr mr h1).
  { apply (master_heap_grows_same_melds hr pr mr h h1 G1 MH).
    intros me0 Hme0. unfold h1. rewrite nth_alloc_old; [assumption|].
    eapply nth_some_lt; eauto. }
  unfold MctsMaster._simulate_random_playout, MctsMaster.try_except.
  erewrite ebind_done
    by (apply heap_new_ok; fold h; apply (dict_copy_at _ _ _ Hs)).
  fold n. fold h1. fold w1.
  pose proof (playout_loop_ok self fuel (VRef n) w1 MH1 MS1) as Hloop.
  unfold MctsMaster.bind at 1.
  destruct (MctsMaster.playout_loop fl Rng random_next self fuel (VRef n) w1)
    as [[final| |] w2]; [|contradiction|exact I].
  destruct Hloop as (G2 & MH2 & MS2 & C2 & E2).
  destruct (master_state_hand hr pr mr _ _ MH2 MS2) as (hand & Hhr & Hhand).
  rewrite E2 in Hhr. injection Hhr as <-.
  rewrite (evaluate_state_run fl Rng self final w2 [] Hhand).
  cbv zeta.
  change (MctsMaster.state_key []) with (@nil Z).
  change (MctsMaster.evaluation_score fl []) with (f_of_int fl 0).
  assert (G : grows h (heap w2)) by (eapply grows_trans; [exact G1|exact G2]).
  assert (C2' : cache w2 = cache w) by (rewrite C2; reflexivity).
  unfold empty_hand_value. rewrite C2'.
  destruct (MctsMaster.cache_lookup fl [] (cache w)) as [v0|]; [auto|].
  destruct (cache w) as [|c0 c'] eqn:Ec.
  - cbn [List.length Z.of_nat].
    destruct (MctsMaster.cache_size fl self <=? 0); cbn [MctsMaster.heap]; auto.
  - destruct (MctsMaster.cache_size fl self <=? _); cbn [MctsMaster.heap]; auto.
Qed.

(** X17. A random playout works on the caller's own hand: [state.copy()]
    and [_apply_action] copy the state dict only, so every discard of the
    playout pops a tile from the list the caller passed in.  On a search
    state (a dict with a hand list, a discard pile, a melds dict and a
    tile or nothing as last discard) a playout that returns has emptied
    the caller's hand, and the value it returns is the evaluation of the
    empty hand, whatever the hand was. *)
Theorem playout_empties_the_hand (self : MctsMaster.MCTS fl) (fuel : nat)
        (state : Val) (w w' : World) (v : F fl) :
  master_heap hr pr mr (heap w) ->
  master_state hr pr mr (heap w) state ->
  MctsMaster._simulate_random_playout fl Rng random_next self fuel state w
  = (Done _ v, w') ->
  tiles_at (heap w') state "current_hand" = Ok []
  /\ v = empty_hand_value fl self (cache w).
Proof.
  intros MH MS Hrun.
  pose proof (playout_ok self fuel state w MH MS) as H.
  rewrite Hrun in H. destruct H as (G & MH' & E & Hv).
  split; [|exact Hv].
  destruct (master_state_hand hr pr mr _ _ MH' (master_state_grows _ _ _ _ _ _ G MS))
    as (hand & Hhr & Hhand).
  rewrite E in Hhr. injection Hhr as <-. exact Hhand.
Qed.
End Playout.

Lemma master_always_offers_chi_witness :
  fst (MahjongMaster.can_claim_chi [mkTile 0; mkTile 1] (mkTile 20)) = false
  /\ exists actions,
       MctsMaster._get_available_actions IntFloats unit (VRef 0)
         (Searches.two_worlds (mkTile 20))
       = (MctsMaster.Done actions, Searches.two_worlds (mkTile 20))
       /\ In ("chi", mkTile 20) actions.
Proof.
  split; [reflexivity|].
  destruct (master_always_offers_chi IntFloats unit (VRef 0)
              (Searches.two_worlds (mkTile 20)) [mkTile 0; mkTile 1] (mkTile 20)
              eq_refl eq_refl) as (actions & Hrun & Hchi & _).
  exists actions. split; [exact Hrun|exact Hchi].
Defined.

Lemma evaluate_state_repeats_by_hand_witness :
  Permutation [mkTile 0; mkTile 1] [mkTile 1; mkTile 0]
  /\ exists v w1,
       MctsMaster._evaluate_state IntFloats unit Searches.engine (VRef 0)
         (Searches.two_worlds (mkTile 20)) = (MctsMaster.Done v, w1)
       /\ MctsMaster._evaluate_state IntFloats unit Searches.engine (VRef 4) w1
          = (MctsMaster.Done v, w1).
Proof.
  assert (Hp : Permutation [mkTile 0; mkTile 1] [mkTile 1; mkTile 0])
    by apply perm_swap.
  split; [exact Hp|].
  destruct (MctsMaster._evaluate_state IntFloats unit Searches.engine (VRef 0)
              (Searches.two_worlds (mkTile 20))) as [[v| |] w1] eqn:Hrun;
    [|vm_compute in Hrun; discriminate Hrun..].
  exists v, w1. split; [reflexivity|].
  destruct (evaluate_state_repeats_by_hand IntFloats unit Searches.engine
              (VRef 0) (VRef 4) (Searches.two_worlds (mkTile 20)) w1
              [mkTile 0; mkTile 1] [mkTile 1; mkTile 0] v
              eq_refl Hrun) as (_ & Hagain); [|exact Hp|exact Hagain].
  vm_compute in Hrun. injection Hrun as _ <-. reflexivity.
Defined.

Lemma evaluate_state_keeps_cache_bounded_witness :
  Z.of_nat (List.length (MctsMaster.cache IntFloats unit
                           (Searches.two_worlds (mkTile 20))))
  <= MctsMaster.cache_size IntFloats Searches.engine
  /\ Z.of_nat
       (List.length
          (MctsMaster.cache IntFloats unit
             (snd (MctsMaster._evaluate_state IntFloats unit Searches.engine
                     (VRef 0) (Searches.two_worlds (mkTile 20))))))
     <= 1000.
Proof.
  assert (Hle : Z.of_nat (List.length (MctsMaster.cache IntFloats unit
                                         (Searches.two_worlds (mkTile 20))))
                <= MctsMaster.cache_size IntFloats Searches.engine)
    by (cbn; lia).
  split; [exact Hle|].
  exact (proj1 (evaluate_state_keeps_cache_bounded IntFloats unit Searches.engine
                  (VRef 0) (Searches.two_worlds (mkTile 20))
                  [mkTile 0; mkTile 1] eq_refl Hle)).
Defined.

Lemma two_states_heap (ld : Tile) : master_heap 1 2 3 (Searches.two_states ld).
Proof.
  split; [eexists; reflexivity|]. split; [eexists; reflexivity|].
  split; [discriminate|]. exists []. split; [reflexivity|]. intros k _. exact I.
Qed.

Lemma two_states_state (ld : Tile) :
  master_state 1 2 3 (Searches.two_states ld) (VRef 0).
Proof. eexists. split; [reflexivity|]. cbn. auto. Qed.

Lemma playout_empties_the_hand_witness :
  tiles_at (Searches.two_states (mkTile 20)) (VRef 0) "current_hand"
  = Ok [mkTile 0; mkTile 1]
  /\ exists v w',
       MctsMaster._simulate_random_playout IntFloats unit Searches.first_choice
         Searches.engine 5 (VRef 0) (Searches.two_worlds (mkTile 20))
       = (MctsMaster.Done v, w')
       /\ tiles_at (MctsMaster.heap IntFloats unit w') (VRef 0) "current_hand"
          = Ok [].
Proof.
  split; [reflexivity|].
  destruct (MctsMaster._simulate_random_playout IntFloats unit
              Searches.first_choice Searches.engine 5 (VRef 0)
              (Searches.two_worlds (mkTile 20))) as [[v| |] w'] eqn:Hrun;
    [|vm_compute in Hrun; discriminate Hrun..].
  exists v, w'. split; [reflexivity|].
  exact (proj1 (playout_empties_the_hand IntFloats unit Searches.first_choice
                  1%nat 2%nat 3%nat Searches.engine 5 (VRef 0)
                  (Searches.two_worlds (mkTile 20)) w' v
                  (two_states_heap (mkTile 20)) (two_states_state (mkTile 20))
                  Hrun)).
Defined.
